(** * caikit.core.model_manager: a shallow embedding of [ModelManager]

    The Python class [ModelManager] resolves a path, a zip archive or a byte
    buffer into a loaded module, walking the configured load backends in
    order and optionally memoising the result in a singleton cache.  The
    embedding follows [src/caikit/core/model_manager.py] function by
    function.  Everything the module imports (the operating system, the
    zip library, the backend configuration, the module registries, the
    loaders themselves) is a field of the record [World]; what the manager
    mutates is the record [State]; what it raises is [exn]; and every call
    to a collaborator leaves an [event] in the trace of the run. *)

From Stdlib Require Import ZArith Lia Bool Ascii.
From stdpp Require Import base option list sorting gmap strings.

(** ** Python values and exceptions *)

(** The buffers of [BytesIO] and [bytes] arguments. *)
Definition bytes := list Byte.byte.

(** What a caller can pass to [load] as [module_path] or [load_singleton]:
    Python does not restrict the arguments, the [type_check] calls do. *)
Inductive PyVal :=
| VStr (s : string)
| VBytesIO (b : bytes)
| VBytes (b : bytes)
| VBool (b : bool)
| VNone
| VInt (z : Z).

(** [module_path] once it passed [load]'s type check: a path or a stream. *)
Inductive target :=
| TPath (p : string)
| TBuffer (b : bytes).

(** The exceptions that reach the caller.  [FileNotFoundError] is built in
    the source both from [(errno, strerror, filename)] and from a message
    alone. *)
Inductive exn :=
| FileNotFoundError (errno : option Z) (strerror : string) (filename : option string)
| ValueError (msg : string)
| TypeError (msg : string)
| AttributeError (msg : string)
| OtherError (name : string).

Inductive Result (A : Type) :=
| Ok (a : A)
| Raise (e : exn).
Arguments Ok {A} a.
Arguments Raise {A} e.

Definition is_FileNotFoundError (e : exn) : bool :=
  match e with FileNotFoundError _ _ _ => true | _ => false end.

Definition ENOENT : Z := 2.
Definition strerror_ENOENT : string := "No such file or directory".

(** ** Backends, module classes and module instances *)

(** A configured load backend.  [is_shared] is the answer of
    [isinstance(load_backend, SharedLoadBackendBase)]; [backend_id] tells
    two backend objects of one type apart. *)
Record Backend := {
  backend_type : string;
  is_shared : bool;
  backend_id : nat
}.

(** Modelled from the spec: the class [ModuleBase] of [modules/base.py] is
    not part of the sources.  An instance is an object identity together
    with the backend it was tagged with by [set_load_backend].  Instances
    are ordinary objects, hence truthy: [singleton_module_cache.get(path)]
    is falsy exactly when the cache has no entry for [path]. *)
Record ModuleBase := {
  instance : nat;
  load_backend : option Backend
}.

Definition set_load_backend (b : Backend) (m : ModuleBase) : ModuleBase :=
  {| instance := instance m; load_backend := Some b |}.

(** The concrete module class registered for one backend type
    ([backend_impl_obj.impl_class]).  The class attribute named by
    [SUPPORTED_LOAD_BACKENDS_VAR_NAME] may be missing. *)
Record ImplClass := {
  impl_name : string;
  SUPPORTED_LOAD_BACKENDS : option (list string)
}.

(** Modelled from the spec: [ModuleConfig] of [modules/config.py] is not part
    of the sources; the spec gives it a [module_id] and an optional
    creation backend (the key [model_backend] of config.yml). *)
Record ModuleConfig := {
  mc_module_id : string;
  mc_model_backend : option string
}.

(** What a loader hands back: [None], a module instance, or some other
    object. *)
Inductive loaded :=
| LNone
| LModule (m : ModuleBase)
| LOther.

#[global] Instance Backend_eq_dec : EqDecision Backend.
Proof. solve_decision. Defined.
#[global] Instance ModuleBase_eq_dec : EqDecision ModuleBase.
Proof. solve_decision. Defined.
#[global] Instance ImplClass_eq_dec : EqDecision ImplClass.
Proof. solve_decision. Defined.

(** ** The trace of a run *)

Inductive event :=
| EvLockAcquire
| EvLockRelease
| EvConfigure
| EvSharedLoad (i : nat) (b : Backend) (path : string) (ret : Result loaded)
| EvModuleConfigLoad (path : string)
| EvImplLoad (i : nat) (b : Backend) (impl : ImplClass) (path : string)
    (ret : Result loaded)
| EvTempDir (path : string)
| EvZipOpen (archive : target)
| EvExtractAll (dest : string)
| EvCleanup (path : string).

(** ** The collaborators *)

Record World := {
  (** the file system and the pass-through [*args, **kwargs] *)
  FS : Type;
  Args : Type;
  (** [os.path] *)
  os_path_exists : FS -> string -> bool;
  os_path_isdir : FS -> string -> bool;
  os_listdir : FS -> string -> list string;
  os_path_join : string -> string -> string;
  os_path_normpath : string -> string;
  os_path_abspath : string -> string;
  (** [zipfile] and [tempfile] *)
  zipfile_is_zipfile : FS -> target -> bool;
  zipfile_extractall : FS -> target -> string -> Result FS;
  (** what an [extractall] that raises leaves behind: the archive is unpacked
      member by member, so the destination may be created and partly
      filled by then *)
  zipfile_partial : FS -> target -> string -> FS;
  tempfile_mkdtemp : FS -> string * FS;
  tempfile_cleanup : FS -> string -> FS;
  repr_buffer : bytes -> string;
  (** [get_config().load_path] *)
  config_load_path : option string;
  (** [module_backend_config.configure()] installs these backends *)
  configure_installs : list Backend;
  (** [backend_types.LOCAL] *)
  LOCAL : string;
  (** [module_backend_registry()]: module id, then backend type *)
  module_backend_registry : gmap string (gmap string ImplClass);
  (** [ModuleConfig.load] *)
  ModuleConfig_load : FS -> string -> Result ModuleConfig;
  (** [load_backend.load(module_path, *args, **kwargs)] of a shared backend *)
  shared_load : Backend -> FS -> string -> Args -> Result loaded;
  (** [impl_class.load(module_path, *args, load_backend=..., **kwargs)] *)
  impl_load : ImplClass -> Backend -> FS -> string -> Args -> Result loaded
}.

(** ** The state and the monad of the manager *)

Record State (W : World) := {
  fs : FS W;
  singleton_module_cache : gmap string ModuleBase;
  configured_load_backends : list Backend
}.
Arguments fs {W} s.
Arguments singleton_module_cache {W} s.
Arguments configured_load_backends {W} s.

Record Outcome (S A : Type) := {
  result : Result A;
  final : S;
  emitted : list event
}.
Arguments result {S A} o.
Arguments final {S A} o.
Arguments emitted {S A} o.

Definition M (S A : Type) : Type := S -> Outcome S A.

Definition ret {S A} (a : A) : M S A :=
  fun s => {| result := Ok a; final := s; emitted := [] |}.

Definition raise {S A} (e : exn) : M S A :=
  fun s => {| result := Raise e; final := s; emitted := [] |}.

Definition bind {S A B} (m : M S A) (k : A -> M S B) : M S B :=
  fun s =>
    let o := m s in
    match result o with
    | Ok a =>
        let o' := k a (final o) in
        {| result := result o'; final := final o';
           emitted := emitted o ++ emitted o' |}
    | Raise e => {| result := Raise e; final := final o; emitted := emitted o |}
    end.

Definition gets {S A} (f : S -> A) : M S A :=
  fun s => {| result := Ok (f s); final := s; emitted := [] |}.

Definition modify {S} (f : S -> S) : M S unit :=
  fun s => {| result := Ok tt; final := f s; emitted := [] |}.

Definition emit {S} (e : event) : M S unit :=
  fun s => {| result := Ok tt; final := s; emitted := [e] |}.

Definition lift {S A} (r : Result A) : M S A :=
  match r with Ok a => ret a | Raise e => raise e end.

(** [try: m except FileNotFoundError: h]; other exceptions pass through. *)
Definition except_FileNotFoundError {S A} (m : M S A) (h : M S A) : M S A :=
  fun s =>
    let o := m s in
    match result o with
    | Raise e =>
        if is_FileNotFoundError e then
          let o' := h (final o) in
          {| result := result o'; final := final o';
             emitted := emitted o ++ emitted o' |}
        else o
    | Ok _ => o
    end.

(** The exit of a [with] block: [cleanup] runs on every way out of [m]. *)
Definition with_exit {S A} (m : M S A) (cleanup : M S unit) : M S A :=
  fun s =>
    let o := m s in
    let o' := cleanup (final o) in
    {| result := result o; final := final o';
       emitted := emitted o ++ emitted o' |}.

Declare Scope py_scope.
Delimit Scope py_scope with py.
Notation "x <- m ;; k" := (bind m (fun x => k))
  (at level 100, m at next level, right associativity) : py_scope.
Notation "m ;; k" := (bind m (fun _ => k))
  (at level 100, right associativity) : py_scope.
Open Scope py_scope.

(** ** ModelManager *)

Section ModelManager.
Context {W : World}.

#[local] Abbreviation St := (State W).
#[local] Abbreviation Py := (M (State W)).

Definition set_fs (f : FS W) (s : St) : St :=
  {| fs := f;
     singleton_module_cache := singleton_module_cache s;
     configured_load_backends := configured_load_backends s |}.

Definition set_cache (c : gmap string ModuleBase) (s : St) : St :=
  {| fs := fs s;
     singleton_module_cache := c;
     configured_load_backends := configured_load_backends s |}.

Definition set_backends (l : list Backend) (s : St) : St :=
  {| fs := fs s;
     singleton_module_cache := singleton_module_cache s;
     configured_load_backends := l |}.

(** [module_backend_config.configure()] *)
Definition configure : Py unit :=
  emit EvConfigure ;;
  modify (set_backends (configure_installs W)).

(** [str(module_path)] inside the error messages *)
Definition format_target (t : target) : string :=
  match t with
  | TPath p => p
  | TBuffer b => repr_buffer W b
  end.

(** *** The error values of the module, by their log code

    [error(log_code, exception)] of [toolkit/errors] logs the code and
    raises the exception it is given; [error.type_check] raises a
    [TypeError] that carries the log code. *)

(** [FileNotFoundError(errno.ENOENT, os.strerror(errno.ENOENT), module_path)] *)
Definition path_does_not_exist (module_path : string) : exn :=
  FileNotFoundError (Some ENOENT) strerror_ENOENT (Some module_path).

(** COR80419785E *)
Definition no_config_yml (module_path : target) : exn :=
  FileNotFoundError None
    ("Module load path `" +:+ format_target module_path +:+
     "` does not contain a `config.yml` file.") None.

(** COR50207494E; [module_id] is still [None] when no config was parsed. *)
Definition unable_to_load (module_path : string) (module_id : option string) : exn :=
  ValueError
    ("Unable to load model from " +:+ module_path +:+ " with MODULE_ID " +:+
     default "None" module_id).

(** COR06761097E *)
Definition nested_dirs_error : exn :=
  FileNotFoundError None "Unable to locate archive config due to nested dirs" None.

(** COR84410081E *)
Definition top_two_levels_error (module_path : target) : exn :=
  FileNotFoundError None
    ("Unable to locate archive config within top two levels of " +:+
     format_target module_path) None.

(** *** singleton_lock *)

(** The context manager takes [_singleton_lock] around the block only for a
    singleton load, and releases it on every way out. *)
Definition singleton_lock {A} (load_singleton : bool) (block : Py A) : Py A :=
  if load_singleton then
    emit EvLockAcquire ;;
    with_exit block (emit EvLockRelease)
  else block.

(** *** _get_supported_load_backends *)

(** [getattr(backend_impl, SUPPORTED_LOAD_BACKENDS_VAR_NAME, [])] *)
Definition _get_supported_load_backends (backend_impl : ImplClass) : list string :=
  match SUPPORTED_LOAD_BACKENDS backend_impl with
  | Some l => l
  | None => []
  end.

(** *** _load_from_dir *)

(** The three variables parsed lazily from the [ModuleConfig]; they are
    assigned together, so they are [None] together. *)
Record Parsed := {
  module_id : string;
  module_implementations : gmap string ImplClass;
  model_creation_backend : string
}.

(** The shared-loader branch of the loop body: [Some] is [break]. *)
Definition try_shared_backend (module_path : string) (args : Args W)
    (i : nat) (load_backend : Backend) : Py (option ModuleBase) :=
  f <- gets fs ;;
  let r := shared_load W load_backend f module_path args in
  emit (EvSharedLoad i load_backend module_path r) ;;
  model <- lift r ;;
  match model with
  | LNone => ret None
  | LModule m => ret (Some (set_load_backend load_backend m))
  | LOther => raise (TypeError "<COR76726077E>")
  end.

(** [if module_id is None: module_config = ModuleConfig.load(module_path) ...] *)
Definition parse_module_config (module_path : string) (parsed : option Parsed)
    : Py Parsed :=
  match parsed with
  | Some p => ret p
  | None =>
      f <- gets fs ;;
      emit (EvModuleConfigLoad module_path) ;;
      module_config <- lift (ModuleConfig_load W f module_path) ;;
      ret {| module_id := mc_module_id module_config;
             module_implementations :=
               default ∅ (module_backend_registry W !! mc_module_id module_config);
             model_creation_backend :=
               default (LOCAL W) (mc_model_backend module_config) |}
  end.

(** The per-module branch of the loop body. *)
Definition try_module_backend (module_path : string) (args : Args W)
    (i : nat) (load_backend : Backend) (parsed : option Parsed)
    : Py (option ModuleBase * option Parsed) :=
  p <- parse_module_config module_path parsed ;;
  match module_implementations p !! backend_type load_backend with
  | None => ret (None, Some p)
  | Some module_backend_impl =>
      let supported_load_backends :=
        _get_supported_load_backends module_backend_impl in
      if bool_decide (model_creation_backend p ∈ supported_load_backends) then
        f <- gets fs ;;
        let r := impl_load W module_backend_impl load_backend f module_path args in
        emit (EvImplLoad i load_backend module_backend_impl module_path r) ;;
        loaded_model <- lift r ;;
        match loaded_model with
        | LNone => ret (None, Some p)
        | LModule m => ret (Some (set_load_backend load_backend m), Some p)
        | LOther => raise (AttributeError "set_load_backend")
        end
      else ret (None, Some p)
  end.

(** One turn of [for i, load_backend in enumerate(configured_load_backends)]. *)
Definition try_backend (module_path : string) (args : Args W)
    (i : nat) (load_backend : Backend) (parsed : option Parsed)
    : Py (option ModuleBase * option Parsed) :=
  if is_shared load_backend then
    model <- try_shared_backend module_path args i load_backend ;;
    ret (model, parsed)
  else try_module_backend module_path args i load_backend parsed.

(** The loop, from index [i] on; it returns [loaded_model] and what was
    parsed by then. *)
Fixpoint backend_loop (module_path : string) (args : Args W) (i : nat)
    (backends : list Backend) (parsed : option Parsed)
    : Py (option ModuleBase * option Parsed) :=
  match backends with
  | [] => ret (None, parsed)
  | load_backend :: rest =>
      r <- try_backend module_path args i load_backend parsed ;;
      match r with
      | (Some loaded_model, parsed') => ret (Some loaded_model, parsed')
      | (None, parsed') => backend_loop module_path args (S i) rest parsed'
      end
  end.

(** The block under [with self.singleton_lock(load_singleton)]. *)
Definition load_from_dir_locked (module_path : string) (load_singleton : bool)
    (args : Args W) : Py ModuleBase :=
  cache <- gets singleton_module_cache ;;
  match (if load_singleton then cache !! module_path else None) with
  | Some singleton_entry => ret singleton_entry
  | None =>
      configured <- gets configured_load_backends ;;
      backends <-
        match configured with
        | [] => configure ;; gets configured_load_backends
        | _ :: _ => ret configured
        end ;;
      r <- backend_loop module_path args 0 backends None ;;
      match r with
      | (None, parsed) =>
          raise (unable_to_load module_path (module_id <$> parsed))
      | (Some loaded_model, _) =>
          (if load_singleton then
             modify (fun s =>
               set_cache (<[module_path := loaded_model]> (singleton_module_cache s)) s)
           else ret tt) ;;
          ret loaded_model
      end
  end.

(** [os.path.exists] raises [TypeError] on a stream, which happens for a
    [BytesIO] that is not a zip archive. *)
Definition _load_from_dir (module_path : target) (load_singleton : bool)
    (args : Args W) : Py ModuleBase :=
  match module_path with
  | TBuffer _ =>
      raise (TypeError
               "stat: path should be string, bytes, os.PathLike or integer, not BytesIO")
  | TPath p =>
      f <- gets fs ;;
      if negb (os_path_exists W f p) then raise (path_does_not_exist p)
      else singleton_lock load_singleton (load_from_dir_locked p load_singleton args)
  end.

(** *** _load_from_zipfile *)

(** [with tempfile.TemporaryDirectory() as extract_path: block] *)
Definition with_TemporaryDirectory {A} (block : string -> Py A) : Py A :=
  f <- gets fs ;;
  let (extract_path, f') := tempfile_mkdtemp W f in
  modify (set_fs f') ;;
  emit (EvTempDir extract_path) ;;
  with_exit (block extract_path)
    (modify (fun s => set_fs (tempfile_cleanup W (fs s) extract_path) s) ;;
     emit (EvCleanup extract_path)).

(** [with zipfile.ZipFile(src, "r") as zip_f: zip_f.extractall(dest)]; when
    it raises, what was written until then stays on the file system. *)
Definition zip_extractall (src : target) (dest : string) : Py unit :=
  emit (EvZipOpen src) ;;
  f <- gets fs ;;
  match zipfile_extractall W f src dest with
  | Ok f' =>
      modify (set_fs f') ;;
      emit (EvExtractAll dest)
  | Raise e =>
      modify (set_fs (zipfile_partial W f src dest)) ;;
      raise e
  end.

(** The directories directly under [extract_path], without the names that
    start with two underscores. *)
Definition nested_dirs (f : FS W) (extract_path : string) : list string :=
  map (os_path_join W extract_path)
    (filter (fun name =>
               os_path_isdir W f (os_path_join W extract_path name) = true ∧
               String.prefix "__" name = false)
       (os_listdir W f extract_path)).

(** The [try ... except FileNotFoundError] block that follows the
    extraction: the root first, then the single nested directory. *)
Definition load_from_extracted (module_path : target) (extract_path : string)
    (load_singleton : bool) (args : Args W) : Py ModuleBase :=
  except_FileNotFoundError
    (_load_from_dir (TPath extract_path) load_singleton args)
    (f <- gets fs ;;
     match nested_dirs f extract_path with
     | [nested] =>
         except_FileNotFoundError
           (_load_from_dir (TPath nested) load_singleton args)
           (raise (top_two_levels_error module_path))
     | _ => raise nested_dirs_error
     end).

Definition _load_from_zipfile (module_path : target) (load_singleton : bool)
    (args : Args W) : Py ModuleBase :=
  with_TemporaryDirectory (fun extract_path =>
    zip_extractall module_path extract_path ;;
    load_from_extracted module_path extract_path load_singleton args).

(** *** load *)

(** [error.type_check("<COR98255724E>", bool, load_singleton=load_singleton)] *)
Definition check_load_singleton (load_singleton : PyVal) : Py bool :=
  match load_singleton with
  | VBool b => ret b
  | _ => raise (TypeError "<COR98255724E>")
  end.

(** The lookup under the configured [load_path], for a [str] only. *)
Definition apply_load_path (f : FS W) (module_path : PyVal) : PyVal :=
  match config_load_path W, module_path with
  | Some load_path, VStr p =>
      if os_path_exists W f p then VStr p else VStr (os_path_join W load_path p)
  | _, _ => module_path
  end.

(** [error.type_check("<COR98255419E>", str, BytesIO, bytes, ...)], then
    [normpath] for a [str] and [BytesIO(...)] for [bytes]. *)
Definition check_module_path (module_path : PyVal) : Py target :=
  match module_path with
  | VStr p => ret (TPath (os_path_normpath W p))
  | VBytes b => ret (TBuffer b)
  | VBytesIO b => ret (TBuffer b)
  | _ => raise (TypeError "<COR98255419E>")
  end.

Definition load (module_path : PyVal) (load_singleton : PyVal) (args : Args W)
    : Py ModuleBase :=
  singleton <- check_load_singleton load_singleton ;;
  f <- gets fs ;;
  module_path <- check_module_path (apply_load_path f module_path) ;;
  if zipfile_is_zipfile W f module_path then
    _load_from_zipfile module_path singleton args
  else
    except_FileNotFoundError
      (_load_from_dir module_path singleton args)
      (raise (no_config_yml module_path)).

(** *** extract *)

Definition extract (zip_path : target) (model_path : string)
    (force_overwrite : bool) : Py string :=
  let model_path := os_path_abspath W model_path in
  f <- gets fs ;;
  if negb force_overwrite && os_path_exists W f model_path then ret model_path
  else
    zip_extractall zip_path model_path ;;
    ret model_path.

(** *** The singleton cache *)

Definition clear_singleton_cache : Py unit :=
  emit EvLockAcquire ;;
  with_exit (modify (set_cache ∅)) (emit EvLockRelease).

(** [{k: type(v) for k, v in self.singleton_module_cache.items()}]; the
    class of an instance is read off by [type]. *)
Definition get_singleton_model_cache_info {T} (type : ModuleBase -> T)
    : Py (gmap string T) :=
  cache <- gets singleton_module_cache ;;
  ret (type <$> cache).

(** [__init__]: a new manager has an empty singleton cache. *)
Definition __init__ : Py unit :=
  modify (set_cache ∅).

(** *** resolve_and_load *)

(** What a caller can pass as [path_or_name_or_model_reference]: a loaded
    module or any other Python value. *)
Inductive Reference :=
| RefModule (m : ModuleBase)
| RefValue (v : PyVal).

(** COR50207495E *)
Definition could_not_find (name : string) : exn :=
  ValueError ("could not find model with name `" +:+ name +:+ "`").

(** The keyword arguments go on to [load]: [load_singleton] when the caller
    gave one, everything else with [args]. *)
Definition resolve_and_load (path_or_name_or_model_reference : Reference)
    (load_singleton : option PyVal) (args : Args W) : Py ModuleBase :=
  match path_or_name_or_model_reference with
  | RefModule m => ret m
  | RefValue (VStr name) =>
      f <- gets fs ;;
      if os_path_isdir W f name then
        load (VStr name) (default (VBool false) load_singleton) args
      else raise (could_not_find name)
  | RefValue _ => raise (TypeError "<COR50266694E>")
  end.

End ModelManager.

Arguments format_target W t : clear implicits.
Arguments no_config_yml W module_path : clear implicits.
Arguments top_two_levels_error W module_path : clear implicits.

(** ** A POSIX world to run the manager in

    [posixpath] as CPython implements it, a disk made of a table of
    directories, and loaders given as tables.  The general theorems below
    hold in every [World]; this one evaluates the manager on concrete
    inputs. *)

Module posixpath.

(** [path.split("/")] *)
Fixpoint split_from (current : string) (path : string) : list string :=
  match path with
  | EmptyString => [current]
  | String c rest =>
      if Ascii.eqb c "/"%char then current :: split_from "" rest
      else split_from (current +:+ String c "") rest
  end.

Definition split (path : string) : list string := split_from "" path.

Definition endswith_sep (path : string) : bool :=
  match last (split path) with
  | Some "" => negb (String.eqb path "")
  | _ => false
  end.

(** [posixpath.join(a, b)] *)
Definition join (a b : string) : string :=
  if String.prefix "/" b then b
  else if String.eqb a "" || endswith_sep a then a +:+ b
  else a +:+ "/" +:+ b.

(** POSIX allows one or two initial slashes, three or more are one. *)
Definition initial_slashes (path : string) : nat :=
  if String.prefix "/" path then
    if String.prefix "//" path && negb (String.prefix "///" path) then 2 else 1
  else 0.

Definition normpath_step (initial : nat) (new_comps : list string)
    (comp : string) : list string :=
  if String.eqb comp "" || String.eqb comp "." then new_comps
  else if negb (String.eqb comp "..")
          || (Nat.eqb initial 0 && bool_decide (new_comps = []))
          || bool_decide (last new_comps = Some "..")
  then new_comps ++ [comp]
  else removelast new_comps.

(** [posixpath.normpath(path)] *)
Definition normpath (path : string) : string :=
  if String.eqb path "" then "."
  else
    let initial := initial_slashes path in
    let comps := fold_left (normpath_step initial) (split path) [] in
    let path' :=
      String.concat "" (replicate initial "/") +:+ String.concat "/" comps in
    if String.eqb path' "" then "." else path'.

(** [posixpath.abspath(path)] in the working directory [cwd] *)
Definition abspath (cwd : string) (path : string) : string :=
  normpath (if String.prefix "/" path then path else join cwd path).

End posixpath.

#[global] Instance byte_eq_dec : EqDecision Byte.byte := Stdlib.Strings.Byte.byte_eq_dec.
#[global] Instance target_eq_dec : EqDecision target.
Proof. solve_decision. Defined.

(** A disk: every directory with the names it lists, the zip archives with
    the directories they unpack to (relative to the destination, [""] being
    the destination itself), and a counter for temporary names. *)
Record Disk := {
  disk_dirs : list (string * list string);
  disk_zips : list (target * list (string * list string));
  disk_tmp : nat
}.

Module disk.

Definition lookup {K V} `{EqDecision K} (k : K) (table : list (K * V)) : option V :=
  snd <$> List.find (fun kv => bool_decide (kv.1 = k)) table.

Definition isdir (d : Disk) (path : string) : bool :=
  bool_decide (is_Some (lookup path (disk_dirs d))).

Definition listdir (d : Disk) (path : string) : list string :=
  default [] (lookup path (disk_dirs d)).

(** A path exists when it is a directory or is listed in one. *)
Definition exists_ (d : Disk) (path : string) : bool :=
  isdir d path ||
  existsb (fun dir =>
             existsb (fun name => String.eqb (posixpath.join dir.1 name) path) dir.2)
    (disk_dirs d).

Definition is_zipfile (d : Disk) (t : target) : bool :=
  bool_decide (is_Some (lookup t (disk_zips d))).

Definition place (dest : string) (entry : string * list string)
    : string * list string :=
  (if String.eqb entry.1 "" then dest else posixpath.join dest entry.1, entry.2).

Definition extractall (d : Disk) (src : target) (dest : string) : Result Disk :=
  match lookup src (disk_zips d) with
  | None => Raise (OtherError "BadZipFile")
  | Some content =>
      Ok {| disk_dirs := map (place dest) content ++ disk_dirs d;
            disk_zips := disk_zips d;
            disk_tmp := disk_tmp d |}
  end.

(** An archive that is not on this disk cannot be opened: nothing is
    written before [extractall] raises. *)
Definition partial (d : Disk) (src : target) (dest : string) : Disk := d.

Definition mkdtemp (d : Disk) : string * Disk :=
  let path := "/tmp/tmp" +:+ String.concat "" (replicate (disk_tmp d) "x") in
  (path,
   {| disk_dirs := (path, []) :: disk_dirs d;
      disk_zips := disk_zips d;
      disk_tmp := S (disk_tmp d) |}).

Definition cleanup (d : Disk) (path : string) : Disk :=
  {| disk_dirs :=
       List.filter (fun dir => negb (String.prefix path dir.1)) (disk_dirs d);
     disk_zips := disk_zips d;
     disk_tmp := disk_tmp d |}.

(** [ModuleConfig.load]: the directory must list a [config.yml]; its
    content is the same [manifest] everywhere on this disk. *)
Definition load_config (manifest : ModuleConfig) (d : Disk) (path : string)
    : Result ModuleConfig :=
  if bool_decide ("config.yml" ∈ listdir d path) then Ok manifest
  else Raise (FileNotFoundError (Some ENOENT) strerror_ENOENT
                (Some (posixpath.join path "config.yml"))).

End disk.

Definition disk_world (cwd : string) (load_path : option string)
    (installs : list Backend)
    (registry : gmap string (gmap string ImplClass))
    (manifest : ModuleConfig)
    (shared : Backend -> Disk -> string -> Result loaded)
    (impl : ImplClass -> Backend -> Disk -> string -> Result loaded) : World :=
  {| FS := Disk;
     Args := unit;
     os_path_exists := disk.exists_;
     os_path_isdir := disk.isdir;
     os_listdir := disk.listdir;
     os_path_join := posixpath.join;
     os_path_normpath := posixpath.normpath;
     os_path_abspath := posixpath.abspath cwd;
     zipfile_is_zipfile := disk.is_zipfile;
     zipfile_extractall := disk.extractall;
     zipfile_partial := disk.partial;
     tempfile_mkdtemp := disk.mkdtemp;
     tempfile_cleanup := disk.cleanup;
     repr_buffer := fun _ => "<_io.BytesIO object>";
     config_load_path := load_path;
     configure_installs := installs;
     LOCAL := "LOCAL";
     module_backend_registry := registry;
     ModuleConfig_load := disk.load_config manifest;
     shared_load := fun b d p _ => shared b d p;
     impl_load := fun c b d p _ => impl c b d p |}.

(** ** Observations on a trace *)

(** A loader call: the position of the backend in the loop, the backend and
    what the loader returned. *)
Definition attempt (e : event) : option (nat * Backend * Result loaded) :=
  match e with
  | EvSharedLoad i b _ r => Some (i, b, r)
  | EvImplLoad i b _ _ r => Some (i, b, r)
  | _ => None
  end.

Definition attempts (evs : list event) : list (nat * Backend * Result loaded) :=
  omap attempt evs.

Definition position (a : nat * Backend * Result loaded) : nat := a.1.1.
Definition backend_of (a : nat * Backend * Result loaded) : Backend := a.1.2.
Definition returned (a : nat * Backend * Result loaded) : Result loaded := a.2.
Arguments position !a /.
Arguments backend_of !a /.
Arguments returned !a /.

Definition is_parse (e : event) : bool :=
  match e with EvModuleConfigLoad _ => true | _ => false end.

(** How many times [ModuleConfig.load] ran. *)
Definition parse_count (evs : list event) : nat :=
  length (List.filter is_parse evs).

(** The path an event is about, for the events of the dispatch loop. *)
Definition probed_path (e : event) : option string :=
  match e with
  | EvSharedLoad _ _ p _ => Some p
  | EvModuleConfigLoad p => Some p
  | EvImplLoad _ _ _ p _ => Some p
  | _ => None
  end.

(** *** What the dispatch loop does, as predicates on its outcome *)

Section Dispatch.
Context {W : World}.

(** The backends the loop walks and the state it starts from, after the
    [configure()] of an empty configuration. *)
Definition effective_backends (s : State W) : list Backend :=
  match configured_load_backends s with
  | [] => configure_installs W
  | l => l
  end.

Definition after_configure (s : State W) : State W :=
  match configured_load_backends s with
  | [] => set_backends (configure_installs W) s
  | _ => s
  end.

Definition configure_events (s : State W) : list event :=
  match configured_load_backends s with
  | [] => [EvConfigure]
  | _ => []
  end.

Definition lock_events (load_singleton : bool) (evs : list event) : list event :=
  if load_singleton then EvLockAcquire :: evs ++ [EvLockRelease] else evs.

(** What one turn of the loop leaves in the trace and returns. *)
Inductive turn_spec (p : string) (s : State W) i b
    (o : Outcome (State W) (option ModuleBase * option Parsed)) : Prop :=
| turn_skipped q :
    is_shared b = false ->
    attempts (emitted o) = [] -> result o = Ok (None, q) -> turn_spec p s i b o
| turn_parse_failed e :
    is_shared b = false ->
    ModuleConfig_load W (fs s) p = Raise e ->
    attempts (emitted o) = [] -> result o = Raise e -> turn_spec p s i b o
| turn_declined q :
    attempts (emitted o) = [(i, b, Ok LNone)] -> result o = Ok (None, q) ->
    turn_spec p s i b o
| turn_loaded m q :
    attempts (emitted o) = [(i, b, Ok (LModule m))] ->
    result o = Ok (Some (set_load_backend b m), q) -> turn_spec p s i b o
| turn_failed r e :
    attempts (emitted o) = [(i, b, r)] ->
    (forall m, r <> Ok (LModule m)) -> r <> Ok LNone ->
    result o = Raise e -> turn_spec p s i b o.

(** The loader calls of the loop, from position [i] on: they follow the
    list, every call but the last returned [None], and the loop returns a
    module exactly when the last call returned one. *)
Record search_spec (i : nat) (bs : list Backend)
    (o : Outcome (State W) (option ModuleBase * option Parsed)) : Prop := {
  search_positions :
    Forall (fun a => exists k, position a = i + k /\ bs !! k = Some (backend_of a))
      (attempts (emitted o));
  search_increasing :
    StronglySorted lt (map position (attempts (emitted o)));
  search_declined :
    forall k a, attempts (emitted o) !! k = Some a ->
      S k < length (attempts (emitted o)) -> returned a = Ok LNone;
  search_found :
    forall m q, result o = Ok (Some m, q) ->
      exists j b m0, last (attempts (emitted o)) = Some (j, b, Ok (LModule m0)) /\
                     m = set_load_backend b m0;
  search_last :
    forall j b m0, last (attempts (emitted o)) = Some (j, b, Ok (LModule m0)) ->
      exists q, result o = Ok (Some (set_load_backend b m0), q);
  search_exhausted :
    forall q, result o = Ok (None, q) ->
      Forall (fun a => returned a = Ok LNone) (attempts (emitted o))
}.

(** The three ways [_load_from_dir] can go on a path. *)
Inductive dir_run p sing args s : Prop :=
| dir_missing :
    os_path_exists W (fs s) p = false ->
    _load_from_dir (TPath p) sing args s =
      {| result := Raise (path_does_not_exist p); final := s; emitted := [] |} ->
    dir_run p sing args s
| dir_cached m :
    os_path_exists W (fs s) p = true ->
    sing = true -> singleton_module_cache s !! p = Some m ->
    _load_from_dir (TPath p) sing args s =
      {| result := Ok m; final := s; emitted := [EvLockAcquire; EvLockRelease] |} ->
    dir_run p sing args s
| dir_dispatched :
    os_path_exists W (fs s) p = true ->
    (if sing then singleton_module_cache s !! p else None) = None ->
    (let s1 := after_configure s in
     let ol := backend_loop p args 0 (effective_backends s) None s1 in
     let o := _load_from_dir (TPath p) sing args s in
     emitted o = lock_events sing (configure_events s ++ emitted ol) /\
     result o =
       match result ol with
       | Ok (Some m, _) => Ok m
       | Ok (None, q) => Raise (unable_to_load p (module_id <$> q))
       | Raise e => Raise e
       end /\
     final o =
       match result ol with
       | Ok (Some m, _) =>
           if sing then set_cache (<[p := m]> (singleton_module_cache s1)) s1 else s1
       | _ => s1
       end) ->
    dir_run p sing args s.

(** The three lazily parsed variables, as [_load_from_dir] computes them
    from a module config. *)
Definition parsed_of (module_config : ModuleConfig) : Parsed :=
  {| module_id := mc_module_id module_config;
     module_implementations :=
       default ∅ (module_backend_registry W !! mc_module_id module_config);
     model_creation_backend :=
       default (LOCAL W) (mc_model_backend module_config) |}.

(** Once parsed, the variables hold what [ModuleConfig.load] gave. *)
Definition parsed_ok (f : FS W) (p : string) (parsed : option Parsed) : Prop :=
  match parsed with
  | None => True
  | Some q => exists mc, ModuleConfig_load W f p = Ok mc /\ q = parsed_of mc
  end.

(** The call of a per-module implementation's loader at position [i]. *)
Definition impl_called (i : nat) (b : Backend) (impl : ImplClass) (p : string)
    (evs : list event) : Prop :=
  exists r, EvImplLoad i b impl p r ∈ evs.

(** 1 while the module config is still to be parsed, 0 afterwards. *)
Definition unparsed (parsed : option Parsed) : nat :=
  match parsed with None => 1 | Some _ => 0 end.

(** What [except FileNotFoundError: error(..., replacement)] makes of a
    result. *)
Definition replaced (replacement : exn) {A} (r : Result A) : Result A :=
  match r with
  | Raise e => if is_FileNotFoundError e then Raise replacement else Raise e
  | Ok a => Ok a
  end.

(** What [load] turns a [str] argument into before it dispatches on it:
    the lookup under [load_path], then [normpath]. *)
Definition load_key (s : State W) (given : string) : string :=
  os_path_normpath W
    (match config_load_path W with
     | Some load_path =>
         if os_path_exists W (fs s) given then given
         else os_path_join W load_path given
     | None => given
     end).

(** The target [load] dispatches on, when [module_path] passes its type
    check. *)
Definition load_target (s : State W) (module_path : PyVal) : option target :=
  match module_path with
  | VStr given => Some (TPath (load_key s given))
  | VBytes b | VBytesIO b => Some (TBuffer b)
  | _ => None
  end.

(** What a load may do to the singleton cache: nothing, or store the module
    it returns, which a loader has just handed back. *)
Definition cache_kept_or_stored (s : State W)
    (o : Outcome (State W) ModuleBase) : Prop :=
  match result o with
  | Raise _ => singleton_module_cache (final o) = singleton_module_cache s
  | Ok m =>
      singleton_module_cache (final o) = singleton_module_cache s \/
      exists key j b m0,
        singleton_module_cache (final o) = <[key := m]> (singleton_module_cache s) /\
        (j, b, Ok (LModule m0)) ∈ attempts (emitted o) /\
        m = set_load_backend b m0
  end.

Definition is_lock_event (e : event) : bool :=
  match e with EvLockAcquire | EvLockRelease => true | _ => false end.

(** The events [_load_from_dir] can leave: the lock, [configure()] and the
    calls of the loop; the other events belong to archives. *)
Definition is_dispatch_event (e : event) : bool :=
  match e with
  | EvTempDir _ | EvZipOpen _ | EvExtractAll _ | EvCleanup _ => false
  | _ => true
  end.

Definition is_configure (e : event) : bool :=
  match e with EvConfigure => true | _ => false end.


(** What a turn of the loop makes of the answer of a loader: [None] lets the
    search go on, a module ends it, anything else is an exception. *)
Definition loader_verdict (b : Backend) (r : Result loaded)
    : Result (option ModuleBase) :=
  match r with
  | Ok LNone => Ok None
  | Ok (LModule m) => Ok (Some (set_load_backend b m))
  | Ok LOther =>
      Raise (if is_shared b then TypeError "<COR76726077E>"
             else AttributeError "set_load_backend")
  | Raise e => Raise e
  end.

(** A backend that lets the search go on without an error, the variables
    parsed from the module config being [q]: a shared loader that returns
    [None]; a per-module backend for which the module has no implementation,
    or one that does not support the creation backend, or one whose loader
    returns [None]. *)
Definition declines (f : FS W) (p : string) (args : Args W) (q : Parsed)
    (b : Backend) : Prop :=
  if is_shared b then shared_load W b f p args = Ok LNone
  else
    match module_implementations q !! backend_type b with
    | None => True
    | Some impl =>
        model_creation_backend q ∉ _get_supported_load_backends impl \/
        impl_load W impl b f p args = Ok LNone
    end.





(** A trace without the events of the lock. *)
Definition unlocked (evs : list event) : list event :=
  List.filter (fun e => negb (is_lock_event e)) evs.

(** The lock along a trace, starting free or held: [None] when the trace
    acquires the lock while it is held (a [threading.Lock] would block for
    ever) or releases it while it is free. *)
Fixpoint lock_after (held : bool) (evs : list event) : option bool :=
  match evs with
  | [] => Some held
  | EvLockAcquire :: rest => if held then None else lock_after true rest
  | EvLockRelease :: rest => if held then lock_after false rest else None
  | _ :: rest => lock_after held rest
  end.

(** The calls a client can make on a manager, to speak about any sequence
    of them. *)
Inductive call :=
| CallLoad (module_path load_singleton : PyVal) (args : Args W)
| CallExtract (zip_path : target) (model_path : string) (force_overwrite : bool)
| CallResolveAndLoad (reference : Reference) (load_singleton : option PyVal)
    (args : Args W)
| CallClearSingletonCache.

(** The state and the trace a call leaves; the client goes on after an
    exception. *)
Definition perform (c : call) (s : State W) : State W * list event :=
  match c with
  | CallLoad module_path load_singleton args =>
      let o := load module_path load_singleton args s in (final o, emitted o)
  | CallExtract zip_path model_path force_overwrite =>
      let o := extract zip_path model_path force_overwrite s in (final o, emitted o)
  | CallResolveAndLoad reference load_singleton args =>
      let o := resolve_and_load reference load_singleton args s in
      (final o, emitted o)
  | CallClearSingletonCache =>
      let o := clear_singleton_cache s in (final o, emitted o)
  end.

Fixpoint run_calls (cs : list call) (s : State W) : State W * list event :=
  match cs with
  | [] => (s, [])
  | c :: rest =>
      let (s1, evs1) := perform c s in
      let (s2, evs2) := run_calls rest s1 in
      (s2, evs1 ++ evs2)
  end.

(** Every cached module carries the backend that loaded it. *)
Definition cache_tagged (s : State W) : Prop :=
  forall key m, singleton_module_cache s !! key = Some m ->
    exists b, load_backend m = Some b.

Definition is_clear (c : call) : bool :=
  match c with CallClearSingletonCache => true | _ => false end.

End Dispatch.

Arguments parsed_of W module_config : clear implicits.

(** *** Scenarios *)

Module demo.

(** A shared backend and two per-module backends, in this order. *)
Definition tgis : Backend :=
  {| backend_type := "TGIS"; is_shared := true; backend_id := 0 |}.
Definition local : Backend :=
  {| backend_type := "LOCAL"; is_shared := false; backend_id := 1 |}.
Definition other : Backend :=
  {| backend_type := "OTHER"; is_shared := false; backend_id := 2 |}.

(** Module classes: one that declares the backends it loads from, one
    that declares the empty list. *)
Definition SampleModule : ImplClass :=
  {| impl_name := "SampleModule"; SUPPORTED_LOAD_BACKENDS := Some ["LOCAL"] |}.
Definition EmptyListModule : ImplClass :=
  {| impl_name := "EmptyListModule"; SUPPORTED_LOAD_BACKENDS := Some [] |}.

(** Every config.yml on the disk: module id [mod], no [model_backend]. *)
Definition manifest : ModuleConfig :=
  {| mc_module_id := "mod"; mc_model_backend := None |}.

Definition registry (impl : ImplClass) : gmap string (gmap string ImplClass) :=
  {[ "mod" := {[ "LOCAL" := impl ]} ]}.

(** The shared loader takes a directory that lists [weights.bin]. *)
Definition shared_loader (b : Backend) (d : Disk) (path : string) : Result loaded :=
  if bool_decide ("weights.bin" ∈ disk.listdir d path)
  then Ok (LModule {| instance := 3; load_backend := None |})
  else Ok LNone.

(** The per-module loader builds instance 7. *)
Definition impl_loader (c : ImplClass) (b : Backend) (d : Disk) (path : string)
    : Result loaded :=
  Ok (LModule {| instance := 7; load_backend := None |}).

Definition world (impl : ImplClass) : World :=
  disk_world "/srv" None [tgis; local] (registry impl) manifest
    shared_loader impl_loader.

(** [models/foo] holds a module, [blobs] only weights, [empty] nothing;
    [m.zip] wraps the module in one directory next to a [__MACOSX]. *)
Definition the_disk : Disk :=
  {| disk_dirs :=
       [("models/foo", ["config.yml"]); ("blobs", ["weights.bin"]);
        ("empty", []); ("/srv/out", [])];
     disk_zips :=
       [(TPath "m.zip",
         [("", ["model"; "__MACOSX"]); ("model", ["config.yml"]);
          ("__MACOSX", [])])];
     disk_tmp := 0 |}.

Definition cached : ModuleBase := {| instance := 9; load_backend := Some local |}.

Definition state (impl : ImplClass) (cache : gmap string ModuleBase)
    (backends : list Backend) : State (world impl) :=
  Build_State (world impl) the_disk cache backends.

End demo.

Module variants.

(** The demo world with a configured [load_path]. *)
Definition world_under (load_path : string) : World :=
  disk_world "/srv" (Some load_path) [demo.tgis; demo.local]
    (demo.registry demo.SampleModule) demo.manifest
    demo.shared_loader demo.impl_loader.

(** A shared loader that fails on a directory with weights and hands back
    something that is no module everywhere else. *)
Definition failing_loader (b : Backend) (d : Disk) (path : string) : Result loaded :=
  if bool_decide ("weights.bin" ∈ disk.listdir d path)
  then Raise (OtherError "RuntimeError")
  else Ok LOther.

Definition faulty_world : World :=
  disk_world "/srv" None [demo.tgis; demo.local]
    (demo.registry demo.SampleModule) demo.manifest
    failing_loader demo.impl_loader.

(** The demo world with one more archive, [bad.zip], whose second member
    is corrupt: [extractall] makes the destination, writes [config.yml] into
    it and raises on the next member. *)
Definition corrupt_extractall (d : Disk) (src : target) (dest : string)
    : Result Disk :=
  if bool_decide (src = TPath "bad.zip") then Raise (OtherError "BadZipFile")
  else disk.extractall d src dest.

Definition corrupt_partial (d : Disk) (src : target) (dest : string) : Disk :=
  if bool_decide (src = TPath "bad.zip") then
    {| disk_dirs := (dest, ["config.yml"]) :: disk_dirs d;
       disk_zips := disk_zips d;
       disk_tmp := disk_tmp d |}
  else disk.partial d src dest.

Definition corrupt_world : World :=
  {| FS := Disk;
     Args := unit;
     os_path_exists := disk.exists_;
     os_path_isdir := disk.isdir;
     os_listdir := disk.listdir;
     os_path_join := posixpath.join;
     os_path_normpath := posixpath.normpath;
     os_path_abspath := posixpath.abspath "/srv";
     zipfile_is_zipfile := disk.is_zipfile;
     zipfile_extractall := corrupt_extractall;
     zipfile_partial := corrupt_partial;
     tempfile_mkdtemp := disk.mkdtemp;
     tempfile_cleanup := disk.cleanup;
     repr_buffer := fun _ => "<_io.BytesIO object>";
     config_load_path := None;
     configure_installs := [demo.tgis; demo.local];
     LOCAL := "LOCAL";
     module_backend_registry := demo.registry demo.SampleModule;
     ModuleConfig_load := disk.load_config demo.manifest;
     shared_load := fun b d p _ => demo.shared_loader b d p;
     impl_load := fun c b d p _ => demo.impl_loader c b d p |}.

End variants.

(** The supported-load-backends set as the specification words it: an empty
    or absent declaration stands for the implementation's own backend
    kind. *)
Definition spec_supported_load_backends (own_kind : string) (impl : ImplClass)
    : list string :=
  match SUPPORTED_LOAD_BACKENDS impl with
  | None | Some [] => [own_kind]
  | Some l => l
  end.

Module unpacked.

(** The disk of the demo once [m.zip] is unpacked into the first
    temporary directory. *)
Definition tmp : string := (disk.mkdtemp demo.the_disk).1.

Definition the_disk : Disk :=
  Eval vm_compute in
    match disk.extractall (disk.mkdtemp demo.the_disk).2 (TPath "m.zip") tmp with
    | Ok d => d
    | Raise _ => demo.the_disk
    end.

End unpacked.

(** * Properties *)

Section Properties.
Context {W : World}.
Implicit Types (s : State W) (b : Backend) (args : Args W) (p : string) (sing : bool).

(** ** The monad, one step at a time *)

Lemma outcome_ext {S A} (o o' : Outcome S A) :
  result o = result o' -> final o = final o' -> emitted o = emitted o' -> o = o'.
Proof. destruct o, o'; simpl; congruence. Qed.

Lemma bind_gets {S A B} (f : S -> A) (k : A -> M S B) (x : S) :
  bind (gets f) k x = k (f x) x.
Proof. by apply outcome_ext. Qed.

Lemma bind_modify {S B} (g : S -> S) (k : unit -> M S B) (x : S) :
  bind (modify g) k x = k tt (g x).
Proof. by apply outcome_ext. Qed.

Lemma bind_emit {S B} (e : event) (k : unit -> M S B) (x : S) :
  bind (emit e) k x =
  {| result := result (k tt x); final := final (k tt x);
     emitted := e :: emitted (k tt x) |}.
Proof. by apply outcome_ext. Qed.

Lemma bind_lift {S A B} (r : Result A) (k : A -> M S B) (x : S) :
  bind (lift r) k x =
  match r with
  | Ok a => k a x
  | Raise e => {| result := Raise e; final := x; emitted := [] |}
  end.
Proof. destruct r; by apply outcome_ext. Qed.

Lemma bind_run {S A B} (m : M S A) (k : A -> M S B) (x : S) :
  bind m k x =
  match result (m x) with
  | Ok a =>
      {| result := result (k a (final (m x)));
         final := final (k a (final (m x)));
         emitted := emitted (m x) ++ emitted (k a (final (m x))) |}
  | Raise e =>
      {| result := Raise e; final := final (m x); emitted := emitted (m x) |}
  end.
Proof. reflexivity. Qed.

Lemma modify_then_emit {S} (g : S -> S) (e : event) (x : S) :
  (modify g ;; emit e) x = {| result := Ok tt; final := g x; emitted := [e] |}.
Proof. reflexivity. Qed.

Lemma except_raise_run {A} (m : M (State W) A) (replacement : exn) s :
  except_FileNotFoundError m (raise replacement) s =
  {| result := replaced replacement (result (m s));
     final := final (m s);
     emitted := emitted (m s) |}.
Proof.
  unfold except_FileNotFoundError, replaced, raise.
  destruct (m s) as [[a|e] f evs]; cbn [result final emitted]; [done|].
  destruct (is_FileNotFoundError e); cbn [result final emitted];
    by rewrite ?app_nil_r.
Qed.

(** ** Loader calls and parses in a trace *)

Lemma attempts_app l1 l2 : attempts (l1 ++ l2) = attempts l1 ++ attempts l2.
Proof. unfold attempts. apply omap_app. Qed.

Lemma parse_count_app l1 l2 : parse_count (l1 ++ l2) = parse_count l1 + parse_count l2.
Proof. unfold parse_count. rewrite List.filter_app, length_app. done. Qed.

(** ** One turn of the dispatch loop, and the loop *)

Ltac run :=
  unfold bind, ret, raise, gets, modify, emit, lift in *; simpl in *.

Ltac reduce :=
  cbn [result final emitted app configured_load_backends set_backends].

Ltac step_cases :=
  unfold try_backend, try_shared_backend, try_module_backend, parse_module_config;
  run; repeat (case_match; run); simplify_eq/=.

Lemma try_backend_turn p args i b parsed s :
  turn_spec p s i b (try_backend p args i b parsed s).
Proof.
  step_cases.
  all: try (eapply turn_skipped; simpl; eauto; fail).
  all: try (eapply turn_parse_failed; simpl; eauto; fail).
  all: try (eapply turn_declined; simpl; eauto; fail).
  all: try (eapply turn_loaded; simpl; eauto; fail).
  all: try (eapply turn_failed; simpl; eauto; congruence).
Qed.

Lemma try_backend_final p args i b parsed s :
  final (try_backend p args i b parsed s) = s.
Proof. step_cases; done. Qed.

Lemma backend_loop_cons p args i b rest parsed s :
  backend_loop p args i (b :: rest) parsed s =
  let o1 := try_backend p args i b parsed s in
  match result o1 with
  | Ok (Some m, q) =>
      {| result := Ok (Some m, q); final := final o1; emitted := emitted o1 ++ [] |}
  | Ok (None, q) =>
      let o2 := backend_loop p args (S i) rest q (final o1) in
      {| result := result o2; final := final o2;
         emitted := emitted o1 ++ emitted o2 |}
  | Raise e => {| result := Raise e; final := final o1; emitted := emitted o1 |}
  end.
Proof.
  simpl. unfold bind at 1.
  destruct (result (try_backend p args i b parsed s)) as [[[m|] q]|e]; reflexivity.
Qed.

Lemma backend_loop_final p args bs : forall i parsed s,
  final (backend_loop p args i bs parsed s) = s.
Proof.
  induction bs as [|b rest IH]; intros i parsed s; [reflexivity|].
  rewrite backend_loop_cons. cbv zeta.
  pose proof (try_backend_final p args i b parsed s) as Hf.
  destruct (result (try_backend p args i b parsed s)) as [[[m|] q]|e]; simpl; auto.
  rewrite IH. done.
Qed.

Lemma backend_loop_search p args bs : forall i parsed s,
  search_spec i bs (backend_loop p args i bs parsed s).
Proof.
  induction bs as [|b rest IH]; intros i parsed s.
  { split; simpl; try done; try constructor. }
  rewrite backend_loop_cons. cbv zeta.
  pose proof (try_backend_turn p args i b parsed s) as Ht.
  pose proof (try_backend_final p args i b parsed s) as Hf.
  set (o1 := try_backend p args i b parsed s) in *.
  assert (Hshift : forall q,
            Forall (fun a => exists k, position a = i + k /\
                                       (b :: rest) !! k = Some (backend_of a))
              (attempts (emitted (backend_loop p args (S i) rest q (final o1))))).
  { intros q.
    eapply Forall_impl; [apply (search_positions _ _ _ (IH (S i) q (final o1)))|].
    intros a [k [Hk Hl]]. exists (S k). split; [lia | done]. }
  assert (Hlow : forall q,
            Forall (fun j => i < j)
              (map position
                 (attempts (emitted (backend_loop p args (S i) rest q (final o1)))))).
  { intros q. apply Forall_map.
    eapply Forall_impl; [apply (search_positions _ _ _ (IH (S i) q (final o1)))|].
    intros a [k [Hk _]]. simpl. lia. }
  destruct Ht as [q Hsh Ha Hr|e Hsh Hmc Ha Hr|q Ha Hr|m q Ha Hr|r e Ha Hn1 Hn2 Hr];
    rewrite Hr.
  - (* skipped *)
    destruct (IH (S i) q (final o1)) as [H1 H2 H3 H4 H5 H6].
    split; simpl; rewrite attempts_app, Ha; simpl; auto.
  - split; simpl; rewrite ?Ha; simpl; try done; try (by constructor).
  - (* declined *)
    destruct (IH (S i) q (final o1)) as [H1 H2 H3 H4 H5 H6].
    split; simpl; rewrite attempts_app, Ha; simpl.
    + constructor; [exists 0; split; [simpl; lia | done] | apply Hshift].
    + constructor; [done | apply Hlow].
    + intros [|k] a Hk Hlen; simpl in *;
        [by simplify_eq | apply (H3 k a Hk); lia].
    + intros m q' Hres. destruct (H4 m q' Hres) as (j & b' & m0 & Hl & ->).
      exists j, b', m0. split; [|done].
      destruct (attempts (emitted (backend_loop p args (S i) rest q (final o1))));
        [done|].
      done.
    + intros j b' m0 Hl. apply (H5 j b' m0).
      destruct (attempts (emitted (backend_loop p args (S i) rest q (final o1))));
        [by simplify_eq/=|].
      done.
    + intros q' Hres. constructor; [done | by eapply H6].
  - (* loaded *)
    split; simpl; rewrite attempts_app, Ha; simpl.
    + repeat constructor. exists 0. split; [simpl; lia | done].
    + repeat constructor.
    + intros [|k] a Hk Hlen; simpl in *; [lia | done].
    + intros m' q' Hres. simplify_eq. by exists i, b, m.
    + intros j b' m0 Hl. simplify_eq. by exists q.
    + intros q' Hres. done.
  - split; simpl; rewrite Ha; simpl.
    + repeat constructor. exists 0. split; [simpl; lia | done].
    + repeat constructor.
    + intros [|k] a Hk Hlen; simpl in *; [lia | done].
    + done.
    + intros j b' m0 Hl. simplify_eq. by destruct (Hn1 m0).
    + done.
Qed.

(** ** [_load_from_dir], case by case *)

(** The singleton cache as [load_from_dir_locked] consults it. *)
Lemma load_from_dir_locked_hit p args s m :
  singleton_module_cache s !! p = Some m ->
  load_from_dir_locked p true args s =
  {| result := Ok m; final := s; emitted := [] |}.
Proof. intros H. unfold load_from_dir_locked. run. rewrite H. reflexivity. Qed.

Lemma load_from_dir_locked_miss p sing args s :
  (if sing then singleton_module_cache s !! p else None) = None ->
  let s1 := after_configure s in
  let ol := backend_loop p args 0 (effective_backends s) None s1 in
  let o := load_from_dir_locked p sing args s in
  emitted o = configure_events s ++ emitted ol /\
  result o =
    match result ol with
    | Ok (Some m, _) => Ok m
    | Ok (None, q) => Raise (unable_to_load p (module_id <$> q))
    | Raise e => Raise e
    end /\
  final o =
    match result ol with
    | Ok (Some m, _) =>
        if sing then set_cache (<[p := m]> (singleton_module_cache s1)) s1 else s1
    | _ => s1
    end.
Proof.
  intros Hmiss. cbv zeta.
  unfold load_from_dir_locked, after_configure, effective_backends,
    configure_events.
  unfold configure, bind, gets, ret, raise, modify, emit. reduce.
  rewrite Hmiss.
  destruct (configured_load_backends s) as [|b0 bs0] eqn:Hc; reduce.
  - pose proof (backend_loop_final p args (configure_installs W) 0 None
                  (set_backends (configure_installs W) s)) as Hf.
    destruct (result (backend_loop p args 0 (configure_installs W) None
                (set_backends (configure_installs W) s))) as [[[m|] q]|e] eqn:Hr;
      reduce; rewrite ?Hf, ?app_nil_r; auto.
    destruct sing; reduce; rewrite ?app_nil_r; auto.
  - pose proof (backend_loop_final p args (b0 :: bs0) 0 None s) as Hf.
    destruct (result (backend_loop p args 0 (b0 :: bs0) None s))
      as [[[m|] q]|e] eqn:Hr;
      reduce; rewrite ?Hf, ?app_nil_r; auto.
    destruct sing; reduce; rewrite ?app_nil_r; auto.
Qed.

Lemma load_from_dir_missing p sing args s :
  os_path_exists W (fs s) p = false ->
  _load_from_dir (TPath p) sing args s =
  {| result := Raise (path_does_not_exist p); final := s; emitted := [] |}.
Proof. intros H. unfold _load_from_dir. run. rewrite H. reflexivity. Qed.

Lemma load_from_dir_existing p sing args s :
  os_path_exists W (fs s) p = true ->
  let ol := load_from_dir_locked p sing args s in
  let o := _load_from_dir (TPath p) sing args s in
  result o = result ol /\ final o = final ol /\
  emitted o = lock_events sing (emitted ol).
Proof.
  intros H. unfold _load_from_dir, singleton_lock, with_exit, lock_events. run.
  rewrite H. simpl. destruct sing; simpl; auto.
Qed.

Lemma attempts_lock_events sing evs :
  attempts (lock_events sing evs) = attempts evs.
Proof.
  destruct sing; [|done]. unfold lock_events.
  change (EvLockAcquire :: evs ++ [EvLockRelease])
    with ([EvLockAcquire] ++ evs ++ [EvLockRelease]).
  rewrite !attempts_app. simpl. by rewrite app_nil_r.
Qed.

Lemma attempts_configure_events s : attempts (configure_events s) = [].
Proof. unfold configure_events. by destruct (configured_load_backends s). Qed.

Lemma load_from_dir_run p sing args s : dir_run p sing args s.
Proof.
  destruct (os_path_exists W (fs s) p) eqn:Hex.
  2: { apply dir_missing; [done|]. by apply load_from_dir_missing. }
  destruct (if sing then singleton_module_cache s !! p else None) as [m|] eqn:Hc.
  - destruct sing; [|done].
    apply (dir_cached _ _ _ _ m); try done.
    pose proof (load_from_dir_existing p true args s Hex) as (Hr & Hf & He).
    rewrite (load_from_dir_locked_hit p args s m Hc) in Hr, Hf, He.
    by apply outcome_ext.
  - apply dir_dispatched; try done. cbv zeta.
    pose proof (load_from_dir_existing p sing args s Hex) as (Hr & Hf & He).
    pose proof (load_from_dir_locked_miss p sing args s Hc) as (He' & Hr' & Hf').
    rewrite Hr, Hf, He, He'. auto.
Qed.

(** ** The order of the loader calls *)



(** ** Creation backend against supported load backends *)

Lemma try_backend_parsed_ok p args i b parsed s x q :
  parsed_ok (fs s) p parsed ->
  result (try_backend p args i b parsed s) = Ok (x, q) ->
  parsed_ok (fs s) p q.
Proof.
  intros Hok. step_cases; intros; simplify_eq/=; try done.
  all: try (eexists; split; [eassumption|reflexivity]).
Qed.

(** Every call of a per-module loader in one turn passed the membership test
    of [_load_from_dir]. *)
Lemma try_backend_impl_sound p args i b parsed s j b' c p' r :
  parsed_ok (fs s) p parsed ->
  EvImplLoad j b' c p' r ∈ emitted (try_backend p args i b parsed s) ->
  j = i /\ b' = b /\ p' = p /\ is_shared b = false /\
  r = impl_load W c b (fs s) p args /\
  exists mc, ModuleConfig_load W (fs s) p = Ok mc /\
    module_implementations (parsed_of W mc) !! backend_type b = Some c /\
    model_creation_backend (parsed_of W mc) ∈ _get_supported_load_backends c.
Proof.
  intros Hok. step_cases; intros Hin.
  all: repeat (apply elem_of_cons in Hin as [Hin|Hin]; simplify_eq/=).
  all: try (by apply elem_of_nil in Hin).
  all: try (destruct Hok as (mc & Hmc & ->)).
  all: repeat (split; [by auto|]).
  all: eexists; split; [(eassumption || reflexivity)|]; split; [done|];
    by eapply bool_decide_eq_true_1.
Qed.

(** A per-module backend whose implementation is registered: the loader is
    called in that turn exactly when the creation backend is in the list. *)
Lemma try_backend_impl_called p args i b parsed s mc impl :
  is_shared b = false ->
  parsed_ok (fs s) p parsed ->
  ModuleConfig_load W (fs s) p = Ok mc ->
  module_implementations (parsed_of W mc) !! backend_type b = Some impl ->
  impl_called i b impl p (emitted (try_backend p args i b parsed s)) <->
  model_creation_backend (parsed_of W mc) ∈ _get_supported_load_backends impl.
Proof.
  intros Hsh Hok Hmc Himpl. split.
  - intros [r Hin].
    destruct (try_backend_impl_sound _ _ _ _ _ _ _ _ _ _ _ Hok Hin)
      as (_ & _ & _ & _ & _ & mc' & Hmc' & _ & Hsup).
    rewrite Hmc in Hmc'. injection Hmc' as <-. exact Hsup.
  - intros Hsup. exists (impl_load W impl b (fs s) p args).
    assert (Hb : bool_decide (model_creation_backend (parsed_of W mc)
                               ∈ _get_supported_load_backends impl) = true)
      by (by apply bool_decide_eq_true_2).
    clear Hsup; rename Hb into Hsup.
    unfold try_backend, try_module_backend, parse_module_config. rewrite Hsh.
    destruct parsed as [q|].
    + destruct Hok as (mc' & Hmc' & ->).
      rewrite Hmc in Hmc'. injection Hmc' as <-.
      run. rewrite Himpl. run. rewrite Hsup. run.
      destruct (impl_load W impl b (fs s) p args) as [[]|]; simpl;
        apply list_elem_of_here.
    + run. rewrite Hmc. run. fold (parsed_of W mc). rewrite Himpl. run. 
      rewrite Hsup. run.
      destruct (impl_load W impl b (fs s) p args) as [[]|]; simpl;
        apply list_elem_of_further, list_elem_of_here.
Qed.

Lemma backend_loop_impl_sound p args bs : forall i parsed s j b c p' r,
  parsed_ok (fs s) p parsed ->
  EvImplLoad j b c p' r ∈ emitted (backend_loop p args i bs parsed s) ->
  (exists k, j = i + k /\ bs !! k = Some b) /\
  p' = p /\ is_shared b = false /\ r = impl_load W c b (fs s) p args /\
  exists mc, ModuleConfig_load W (fs s) p = Ok mc /\
    module_implementations (parsed_of W mc) !! backend_type b = Some c /\
    model_creation_backend (parsed_of W mc) ∈ _get_supported_load_backends c.
Proof.
  induction bs as [|b0 rest IH]; intros i parsed s j b c p' r Hok Hin.
  { by apply elem_of_nil in Hin. }
  rewrite backend_loop_cons in Hin. cbv zeta in Hin.
  pose proof (try_backend_final p args i b0 parsed s) as Hf.
  pose proof (try_backend_impl_sound p args i b0 parsed s j b c p' r Hok) as Hturn.
  pose proof (try_backend_parsed_ok p args i b0 parsed s) as Hpres.
  assert (Hhead : EvImplLoad j b c p' r ∈ emitted (try_backend p args i b0 parsed s) ->
    (exists k, j = i + k /\ (b0 :: rest) !! k = Some b) /\
    p' = p /\ is_shared b = false /\ r = impl_load W c b (fs s) p args /\
    exists mc, ModuleConfig_load W (fs s) p = Ok mc /\
      module_implementations (parsed_of W mc) !! backend_type b = Some c /\
      model_creation_backend (parsed_of W mc) ∈ _get_supported_load_backends c).
  { intros H. destruct (Hturn H) as (-> & -> & -> & Hrest).
    split; [exists 0; split; [lia|done]|]. split; [done|]. exact Hrest. }
  destruct (result (try_backend p args i b0 parsed s)) as [[[m|] q]|e] eqn:Hr;
    cbn [emitted] in Hin.
  - rewrite app_nil_r in Hin. auto.
  - apply elem_of_app in Hin as [Hin|Hin]; [auto|].
    rewrite Hf in Hin.
    destruct (IH (S i) q s j b c p' r (Hpres _ _ Hok eq_refl) Hin)
      as ((k & -> & Hk) & Hrest).
    split; [exists (S k); split; [lia|done]|]. exact Hrest.
  - auto.
Qed.

Lemma backend_loop_impl_called p args bs : forall i parsed s k b mc impl,
  parsed_ok (fs s) p parsed ->
  bs !! k = Some b -> is_shared b = false ->
  ModuleConfig_load W (fs s) p = Ok mc ->
  module_implementations (parsed_of W mc) !! backend_type b = Some impl ->
  model_creation_backend (parsed_of W mc) ∈ _get_supported_load_backends impl ->
  let o := backend_loop p args i bs parsed s in
  (forall a, a ∈ attempts (emitted o) -> position a < i + k -> returned a = Ok LNone) ->
  impl_called (i + k) b impl p (emitted o).
Proof.
  induction bs as [|b0 rest IH]; intros i parsed s k b mc impl Hok Hk Hsh Hmc Himpl Hsup;
    [done|].
  cbv zeta. rewrite backend_loop_cons. cbv zeta.
  pose proof (try_backend_turn p args i b0 parsed s) as Ht.
  pose proof (try_backend_final p args i b0 parsed s) as Hf.
  pose proof (try_backend_parsed_ok p args i b0 parsed s) as Hpres.
  destruct k as [|k]; simpl in Hk.
  - simplify_eq. rewrite Nat.add_0_r. intros _.
    pose proof (proj2 (try_backend_impl_called p args i b parsed s mc impl
                         Hsh Hok Hmc Himpl) Hsup) as [r Hin].
    exists r.
    destruct (result (try_backend p args i b parsed s)) as [[[m|] q]|e];
      cbn [emitted]; rewrite ?elem_of_app; auto.
  - set (o1 := try_backend p args i b0 parsed s) in *.
    destruct Ht as [q Hs Ha Hr|e Hs Hmc' Ha Hr|q Ha Hr|m q Ha Hr|r e Ha Hn1 Hn2 Hr];
      rewrite Hr; cbn [emitted result]; rewrite ?attempts_app, ?Ha; intros Hnone.
    + rewrite Hf in *. replace (i + S k) with (S i + k) in * by lia.
      destruct (IH (S i) q s k b mc impl (Hpres _ _ Hok Hr) Hk Hsh Hmc Himpl Hsup Hnone)
        as [r Hin].
      exists r. apply elem_of_app. by right.
    + congruence.
    + rewrite Hf in *. replace (i + S k) with (S i + k) in * by lia.
      destruct (IH (S i) q s k b mc impl (Hpres _ _ Hok Hr) Hk Hsh Hmc Himpl Hsup)
        as [r Hin].
      { intros a Hin. apply Hnone. by apply list_elem_of_further. }
      exists r. apply elem_of_app. by right.
    + specialize (Hnone (i, b0, Ok (LModule m)) (list_elem_of_here _ _)).
      simpl in Hnone. discriminate Hnone. lia.
    + specialize (Hnone (i, b0, r) (list_elem_of_here _ _)).
      simpl in Hnone. destruct Hn2. apply Hnone. lia.
Qed.

Lemma elem_of_dispatch_events sing s evs (e : event) :
  e <> EvLockAcquire -> e <> EvLockRelease -> e <> EvConfigure ->
  e ∈ lock_events sing (configure_events s ++ evs) <-> e ∈ evs.
Proof.
  intros H1 H2 H3. unfold lock_events, configure_events.
  destruct sing, (configured_load_backends s); simpl;
    rewrite ?elem_of_cons, ?elem_of_app, ?elem_of_cons, ?elem_of_nil; tauto.
Qed.

Lemma fs_after_configure s : fs (after_configure s) = fs s.
Proof. unfold after_configure. by destruct (configured_load_backends s). Qed.

(** Every call of a per-module implementation's loader during
    [_load_from_dir] passed the membership test on the list that
    [_get_supported_load_backends] returns; and a registered implementation
    that the search reaches is called exactly when it passes it. *)
Lemma load_from_dir_impl_called p sing args s :
  let o := _load_from_dir (TPath p) sing args s in
  (forall i b impl p' r, EvImplLoad i b impl p' r ∈ emitted o ->
     p' = p /\ effective_backends s !! i = Some b /\ is_shared b = false /\
     exists mc, ModuleConfig_load W (fs s) p = Ok mc /\
       module_implementations (parsed_of W mc) !! backend_type b = Some impl /\
       model_creation_backend (parsed_of W mc) ∈ _get_supported_load_backends impl) /\
  (forall i b mc impl,
     effective_backends s !! i = Some b -> is_shared b = false ->
     ModuleConfig_load W (fs s) p = Ok mc ->
     module_implementations (parsed_of W mc) !! backend_type b = Some impl ->
     os_path_exists W (fs s) p = true ->
     (if sing then singleton_module_cache s !! p else None) = None ->
     (forall a, a ∈ attempts (emitted o) -> position a < i -> returned a = Ok LNone) ->
     (impl_called i b impl p (emitted o) <->
      model_creation_backend (parsed_of W mc) ∈ _get_supported_load_backends impl)).
Proof.
  cbv zeta. split.
  - intros i b impl p' r Hin.
    destruct (load_from_dir_run p sing args s) as [Hex Hrun|m Hex Hs Hc Hrun|Hex Hc Hrun].
    + rewrite Hrun in Hin. by apply elem_of_nil in Hin.
    + rewrite Hrun in Hin. cbn [emitted] in Hin.
      rewrite !elem_of_cons, elem_of_nil in Hin. by destruct Hin as [?|[?|[]]].
    + cbv zeta in Hrun. destruct Hrun as (He & _ & _).
      rewrite He in Hin. apply elem_of_dispatch_events in Hin; [|done..].
      apply backend_loop_impl_sound in Hin; [|done].
      rewrite fs_after_configure in Hin.
      destruct Hin as ((k & -> & Hk) & -> & Hsh & _ & Hmc). auto.
  - intros i b mc impl Hb Hsh Hmc Himpl Hex Hmiss Hreach.
    destruct (load_from_dir_run p sing args s)
      as [Hex' Hrun|m Hex' Hs Hc Hrun|Hex' Hc Hrun].
    + congruence.
    + subst sing. congruence.
    + cbv zeta in Hrun. destruct Hrun as (He & _ & _).
      rewrite He in Hreach |- *.
      rewrite attempts_lock_events, attempts_app, attempts_configure_events in Hreach.
      cbn [app] in Hreach.
      split.
      * intros [r Hin]. apply elem_of_dispatch_events in Hin; [|done..].
        apply backend_loop_impl_sound in Hin; [|done].
        rewrite fs_after_configure in Hin.
        destruct Hin as (_ & _ & _ & _ & mc' & Hmc' & _ & Hsup).
        rewrite Hmc in Hmc'. by injection Hmc' as <-.
      * intros Hsup.
        destruct (backend_loop_impl_called p args (effective_backends s) 0 None
                    (after_configure s) i b mc impl) as [r Hin]; try done.
        { by rewrite fs_after_configure. }
        exists r. by apply elem_of_dispatch_events.
Qed.

(** C1, as the code has it.  For a per-module implementation that declares
    a supported-load-backends list: every call of its loader during
    [_load_from_dir] is the call of the implementation registered for the
    module id of the manifest and the type of a configured per-module
    backend, and the creation backend recorded in the manifest ([LOCAL] when
    there is none) is in the declared list.  Conversely, when the search
    reaches such a backend (the path exists, the singleton cache has no
    entry, and every loader called at an earlier position returned [None]),
    the loader runs exactly when the creation backend is in the declared
    list, which is the list [_get_supported_load_backends] returns.  The
    backend's own kind is not added to it: an implementation that declares
    the empty list is never called. *)
Theorem load_from_dir_impl_called_iff_supported p sing args s :
  let o := _load_from_dir (TPath p) sing args s in
  (forall i b impl p' r l,
     EvImplLoad i b impl p' r ∈ emitted o ->
     SUPPORTED_LOAD_BACKENDS impl = Some l ->
     p' = p /\ effective_backends s !! i = Some b /\ is_shared b = false /\
     exists mc, ModuleConfig_load W (fs s) p = Ok mc /\
       module_implementations (parsed_of W mc) !! backend_type b = Some impl /\
       model_creation_backend (parsed_of W mc) ∈ l) /\
  (forall i b mc impl l,
     effective_backends s !! i = Some b -> is_shared b = false ->
     ModuleConfig_load W (fs s) p = Ok mc ->
     module_implementations (parsed_of W mc) !! backend_type b = Some impl ->
     SUPPORTED_LOAD_BACKENDS impl = Some l ->
     os_path_exists W (fs s) p = true ->
     (if sing then singleton_module_cache s !! p else None) = None ->
     (forall a, a ∈ attempts (emitted o) -> position a < i ->
                returned a = Ok LNone) ->
     _get_supported_load_backends impl = l /\
     (impl_called i b impl p (emitted o) <->
      model_creation_backend (parsed_of W mc) ∈ l) /\
     (l = [] -> ~ impl_called i b impl p (emitted o))).
Proof.
  cbv zeta.
  destruct (load_from_dir_impl_called p sing args s) as [Hsound Hiff].
  cbv zeta in Hsound, Hiff. split.
  - intros i b impl p' r l Hin Hl.
    destruct (Hsound i b impl p' r Hin) as (Hp & Hb & Hsh & mc & Hmc & Himpl & Hsup).
    unfold _get_supported_load_backends in Hsup. rewrite Hl in Hsup.
    split; [done|]. split; [done|]. split; [done|]. by exists mc.
  - intros i b mc impl l Hb Hsh Hmc Himpl Hl Hex Hmiss Hreach.
    assert (Hget : _get_supported_load_backends impl = l)
      by (unfold _get_supported_load_backends; by rewrite Hl).
    pose proof (Hiff i b mc impl Hb Hsh Hmc Himpl Hex Hmiss Hreach) as H.
    rewrite Hget in H. split; [done|]. split; [done|].
    intros -> Hcalled. apply H in Hcalled. by apply elem_of_nil in Hcalled.
Qed.

(** ** Parsing of the module config *)

Lemma try_backend_shared p args i b parsed s :
  is_shared b = true ->
  try_backend p args i b parsed s =
  let r := shared_load W b (fs s) p args in
  {| result :=
       match r with
       | Ok LNone => Ok (None, parsed)
       | Ok (LModule m) => Ok (Some (set_load_backend b m), parsed)
       | Ok LOther => Raise (TypeError "<COR76726077E>")
       | Raise e => Raise e
       end;
     final := s;
     emitted := [EvSharedLoad i b p r] |}.
Proof.
  intros Hsh. unfold try_backend, try_shared_backend. rewrite Hsh. run.
  destruct (shared_load W b (fs s) p args) as [[]|]; reflexivity.
Qed.

Lemma try_backend_parse_count p args i b parsed s :
  let o := try_backend p args i b parsed s in
  parse_count (emitted o) <= unparsed parsed /\
  (forall x q, result o = Ok (x, q) ->
     parse_count (emitted o) + unparsed q = unparsed parsed) /\
  (is_shared b = true -> parse_count (emitted o) = 0) /\
  Forall (fun e => probed_path e = Some p) (emitted o).
Proof.
  step_cases; split_and!; intros; simplify_eq/=; auto;
    try (unfold parse_count, unparsed; simpl; lia).
  all: repeat constructor.
Qed.

Lemma backend_loop_parse_count p args bs : forall i parsed s,
  let o := backend_loop p args i bs parsed s in
  parse_count (emitted o) <= unparsed parsed /\
  Forall (fun e => probed_path e = Some p) (emitted o).
Proof.
  induction bs as [|b rest IH]; intros i parsed s; cbv zeta.
  { simpl. split; [unfold parse_count; simpl; lia|constructor]. }
  rewrite backend_loop_cons. cbv zeta.
  pose proof (try_backend_parse_count p args i b parsed s) as (H1 & H2 & _ & H4).
  destruct (result (try_backend p args i b parsed s)) as [[[m|] q]|e] eqn:Hr;
    cbn [emitted]; rewrite ?app_nil_r; auto.
  specialize (H2 _ _ eq_refl).
  destruct (IH (S i) q (final (try_backend p args i b parsed s))) as [IH1 IH2].
  rewrite parse_count_app. split; [lia|]. by apply Forall_app.
Qed.

(** The module config is only parsed when the search reaches a per-module
    backend. *)
Lemma backend_loop_parse_reached p args bs : forall i parsed s,
  let o := backend_loop p args i bs parsed s in
  0 < parse_count (emitted o) ->
  exists k b, bs !! k = Some b /\ is_shared b = false /\
    forall a, a ∈ attempts (emitted o) -> position a < i + k -> returned a = Ok LNone.
Proof.
  induction bs as [|b rest IH]; intros i parsed s; cbv zeta.
  { simpl. unfold parse_count. simpl. lia. }
  pose proof (backend_loop_search p args (b :: rest) i parsed s) as [Hpos _ _ _ _ _].
  rewrite backend_loop_cons in *. cbv zeta in *.
  pose proof (try_backend_parse_count p args i b parsed s) as (_ & _ & H3 & _).
  pose proof (try_backend_turn p args i b parsed s) as Ht.
  pose proof (try_backend_final p args i b parsed s) as Hf.
  set (o1 := try_backend p args i b parsed s) in *.
  intros Hcount.
  destruct (decide (0 < parse_count (emitted o1))) as [Hhead|Hhead].
  { exists 0, b. split; [done|]. split.
    - destruct (is_shared b); [|done]. specialize (H3 eq_refl). lia.
    - intros a Ha Hlt. rewrite Forall_forall in Hpos.
      destruct (Hpos a Ha) as (k & Hk & _). lia. }
  destruct Ht as [q Hs Ha Hr|e Hs Hmc Ha Hr|q Ha Hr|m q Ha Hr|r e Ha Hn1 Hn2 Hr];
    rewrite Hr in *; cbn [emitted] in *;
    rewrite ?parse_count_app, ?attempts_app, ?Ha, ?app_nil_r in *;
    try (exfalso; unfold parse_count in *; simpl in *; lia).
  - destruct (IH (S i) q (final o1)) as (k & b' & Hk & Hsh & Hnone); [lia|].
    exists (S k), b'. split; [done|]. split; [done|].
    intros a Hin Hlt. apply Hnone; [done|lia].
  - destruct (IH (S i) q (final o1)) as (k & b' & Hk & Hsh & Hnone); [lia|].
    exists (S k), b'. split; [done|]. split; [done|].
    intros a Hin Hlt. apply elem_of_cons in Hin as [->|Hin]; [done|].
    apply Hnone; [done|lia].
Qed.

(** Shared backends that decline, then a shared backend that loads: the
    module is returned and the module config is never asked for. *)
Lemma backend_loop_shared_prefix p args b rest m pre : forall i parsed s,
  Forall (fun b' => is_shared b' = true /\
                    shared_load W b' (fs s) p args = Ok LNone) pre ->
  is_shared b = true ->
  shared_load W b (fs s) p args = Ok (LModule m) ->
  let o := backend_loop p args i (pre ++ b :: rest) parsed s in
  result o = Ok (Some (set_load_backend b m), parsed) /\
  parse_count (emitted o) = 0.
Proof.
  induction pre as [|b0 pre IH]; intros i parsed s Hpre Hsh Hload; cbv zeta.
  - simpl app. rewrite backend_loop_cons, try_backend_shared by done.
    cbv zeta. rewrite Hload. cbn [result emitted]. done.
  - apply Forall_cons in Hpre as [[Hsh0 Hload0] Hpre].
    change ((b0 :: pre) ++ b :: rest) with (b0 :: (pre ++ b :: rest)).
    rewrite backend_loop_cons, try_backend_shared by done.
    cbv zeta. rewrite Hload0. cbn [result emitted final].
    destruct (IH (S i) parsed s Hpre Hsh Hload) as [-> Hc].
    split; [done|]. rewrite parse_count_app, Hc. done.
Qed.

Lemma parse_count_dispatch_events sing s evs :
  parse_count (lock_events sing (configure_events s ++ evs)) = parse_count evs.
Proof.
  unfold lock_events, configure_events, parse_count.
  destruct sing, (configured_load_backends s); simpl;
    rewrite ?List.filter_app, ?length_app; simpl; lia.
Qed.

Lemma parse_count_pos evs q : EvModuleConfigLoad q ∈ evs -> 0 < parse_count evs.
Proof.
  unfold parse_count. induction evs as [|e evs IH]; intros Hin.
  - by apply elem_of_nil in Hin.
  - apply elem_of_cons in Hin as [<-|Hin]; simpl; [lia|].
    specialize (IH Hin). destruct (is_parse e); simpl; lia.
Qed.

(** C6.  One [_load_from_dir] runs [ModuleConfig.load] at most once, however
    many per-module backends it probes; it runs it on the load path, and
    only when the search reaches a per-module backend (every loader called
    before it returned [None]).  A shared backend never asks for it: when the
    configured list starts with shared backends that decline, followed by a
    shared backend that loads the module, the load succeeds without any
    parsing, whatever [ModuleConfig.load] would have answered. *)
Theorem load_from_dir_parses_at_most_once p sing args s :
  let o := _load_from_dir (TPath p) sing args s in
  parse_count (emitted o) <= 1 /\
  (forall q, EvModuleConfigLoad q ∈ emitted o ->
     q = p /\
     exists k b, effective_backends s !! k = Some b /\ is_shared b = false /\
       forall a, a ∈ attempts (emitted o) -> position a < k -> returned a = Ok LNone) /\
  (forall pre b rest m,
     effective_backends s = pre ++ b :: rest ->
     Forall (fun b' => is_shared b' = true /\
                       shared_load W b' (fs s) p args = Ok LNone) pre ->
     is_shared b = true ->
     shared_load W b (fs s) p args = Ok (LModule m) ->
     os_path_exists W (fs s) p = true ->
     (if sing then singleton_module_cache s !! p else None) = None ->
     result o = Ok (set_load_backend b m) /\ parse_count (emitted o) = 0).
Proof.
  cbv zeta.
  destruct (load_from_dir_run p sing args s) as [Hex Hrun|m Hex Hs Hc Hrun|Hex Hc Hrun].
  - rewrite Hrun. cbn [emitted result]. split; [unfold parse_count; simpl; lia|].
    split; [intros q Hin; by apply elem_of_nil in Hin|].
    intros. congruence.
  - rewrite Hrun. cbn [emitted result]. split; [unfold parse_count; simpl; lia|].
    split.
    + intros q Hin. rewrite !elem_of_cons, elem_of_nil in Hin.
      by destruct Hin as [?|[?|[]]].
    + intros. subst sing. congruence.
  - cbv zeta in Hrun. destruct Hrun as (He & Hr & _). rewrite He, Hr.
    rewrite parse_count_dispatch_events, attempts_lock_events, attempts_app,
      attempts_configure_events. cbn [app].
    pose proof (backend_loop_parse_count p args (effective_backends s) 0 None
                  (after_configure s)) as [Hle Hpaths].
    split; [exact Hle|]. split.
    + intros q Hin. apply elem_of_dispatch_events in Hin; [|done..].
      split.
      * rewrite Forall_forall in Hpaths. specialize (Hpaths _ Hin).
        simpl in Hpaths. congruence.
      * apply parse_count_pos in Hin.
        exact (backend_loop_parse_reached p args _ 0 None _ Hin).
    + intros pre b rest m Heff Hpre Hsh Hload _ _.
      rewrite Heff.
      destruct (backend_loop_shared_prefix p args b rest m pre 0 None
                  (after_configure s)) as [Hres Hcount]; try done.
      * by rewrite fs_after_configure.
      * by rewrite fs_after_configure.
      * rewrite Hres. done.
Qed.

(** ** [load] and [_load_from_zipfile], unfolded *)

Lemma load_str_run given sing args s :
  let key := load_key s given in
  load (VStr given) (VBool sing) args s =
  if zipfile_is_zipfile W (fs s) (TPath key) then
    _load_from_zipfile (TPath key) sing args s
  else
    except_FileNotFoundError (_load_from_dir (TPath key) sing args)
      (raise (no_config_yml W (TPath key))) s.
Proof.
  cbv zeta. unfold load, load_key, check_load_singleton, check_module_path,
    apply_load_path.
  unfold bind, ret, gets; cbn [result final emitted].
  destruct (config_load_path W) as [lp|];
    [destruct (os_path_exists W (fs s) given)|];
    cbn [result final emitted];
    match goal with
    | |- context [zipfile_is_zipfile W (fs s) ?t] =>
        destruct (zipfile_is_zipfile W (fs s) t)
    end;
    apply outcome_ext; reflexivity.
Qed.

Lemma load_from_extracted_run t root sing args s :
  let o1 := _load_from_dir (TPath root) sing args s in
  load_from_extracted t root sing args s =
  match result o1 with
  | Raise e =>
      if is_FileNotFoundError e then
        match nested_dirs (fs (final o1)) root with
        | [d] =>
            let o2 := _load_from_dir (TPath d) sing args (final o1) in
            {| result := replaced (top_two_levels_error W t) (result o2);
               final := final o2;
               emitted := emitted o1 ++ emitted o2 |}
        | _ =>
            {| result := Raise nested_dirs_error; final := final o1;
               emitted := emitted o1 |}
        end
      else o1
  | Ok _ => o1
  end.
Proof.
  cbv zeta. unfold load_from_extracted, except_FileNotFoundError at 1.
  destruct (result (_load_from_dir (TPath root) sing args s)) as [m|e]; [done|].
  destruct (is_FileNotFoundError e); [|done].
  unfold bind, gets, raise. cbn [result final emitted].
  destruct (nested_dirs (fs (final (_load_from_dir (TPath root) sing args s))) root)
    as [|d [|d' ds]]; cbn [result final emitted]; rewrite ?app_nil_r; try done.
  unfold except_FileNotFoundError, replaced.
  destruct (_load_from_dir (TPath d) sing args
              (final (_load_from_dir (TPath root) sing args s))) as [[m|e'] f2 ev2];
    cbn [result final emitted]; [done|].
  destruct (is_FileNotFoundError e'); cbn [result final emitted];
    rewrite ?app_nil_r; done.
Qed.

Lemma zip_extractall_run src dest s :
  zip_extractall src dest s =
  match zipfile_extractall W (fs s) src dest with
  | Ok f' =>
      {| result := Ok tt; final := set_fs f' s;
         emitted := [EvZipOpen src; EvExtractAll dest] |}
  | Raise e =>
      {| result := Raise e; final := set_fs (zipfile_partial W (fs s) src dest) s;
         emitted := [EvZipOpen src] |}
  end.
Proof.
  unfold zip_extractall. rewrite bind_emit, bind_gets.
  destruct (zipfile_extractall W (fs s) src dest); rewrite bind_modify; done.
Qed.

Lemma load_from_zipfile_run t sing args s :
  let tmp := (tempfile_mkdtemp W (fs s)).1 in
  let f1 := (tempfile_mkdtemp W (fs s)).2 in
  _load_from_zipfile t sing args s =
  match zipfile_extractall W f1 t tmp with
  | Raise e =>
      {| result := Raise e;
         final := set_fs (tempfile_cleanup W (zipfile_partial W f1 t tmp) tmp) s;
         emitted := [EvTempDir tmp; EvZipOpen t; EvCleanup tmp] |}
  | Ok f2 =>
      let o := load_from_extracted t tmp sing args (set_fs f2 s) in
      {| result := result o;
         final := set_fs (tempfile_cleanup W (fs (final o)) tmp) (final o);
         emitted :=
           [EvTempDir tmp; EvZipOpen t; EvExtractAll tmp] ++ emitted o ++
           [EvCleanup tmp] |}
  end.
Proof.
  cbv zeta. unfold _load_from_zipfile, with_TemporaryDirectory.
  rewrite bind_gets.
  destruct (tempfile_mkdtemp W (fs s)) as [tmp f1] eqn:Htmp. cbn [fst snd].
  rewrite bind_modify, bind_emit. unfold with_exit.
  rewrite bind_run, zip_extractall_run, !modify_then_emit. cbn [fs set_fs].
  destruct (zipfile_extractall W f1 t tmp) as [f2|e]; cbn [result final emitted].
  - change (set_fs f2 (set_fs f1 s)) with (set_fs f2 s).
    set (o := load_from_extracted t tmp sing args (set_fs f2 s)).
    apply outcome_ext; cbn [result final emitted app]; done.
  - by apply outcome_ext.
Qed.

(** ** The nested-directory fallback of archives *)

Lemma Forall_unprobed (P : string -> Prop) evs :
  Forall (fun ev => probed_path ev = None) evs ->
  Forall (fun ev => forall q, probed_path ev = Some q -> P q) evs.
Proof.
  intros H. eapply Forall_impl; [exact H|]. intros ev Hn q Hq. congruence.
Qed.

(** [_load_from_dir] leaves the file system alone and only looks at its own
    path. *)
Lemma load_from_dir_frame p sing args s :
  let o := _load_from_dir (TPath p) sing args s in
  fs (final o) = fs s /\
  Forall (fun ev => forall q, probed_path ev = Some q -> q = p) (emitted o).
Proof.
  cbv zeta.
  destruct (load_from_dir_run p sing args s) as [Hex Hrun|m Hex Hs Hc Hrun|Hex Hc Hrun].
  - rewrite Hrun. split; [done|constructor].
  - rewrite Hrun. split; [done|]. apply Forall_unprobed; by repeat constructor.
  - cbv zeta in Hrun. destruct Hrun as (He & _ & Hf). rewrite He, Hf. split.
    + destruct (result (backend_loop p args 0 (effective_backends s) None
                          (after_configure s))) as [[[m|] q]|e];
        try destruct sing; apply fs_after_configure.
    + pose proof (backend_loop_parse_count p args (effective_backends s) 0 None
                    (after_configure s)) as [_ Hpaths].
      rewrite Forall_forall in Hpaths |- *. intros ev Hin q Hq.
      destruct ev; try discriminate Hq.
      all: apply elem_of_dispatch_events in Hin; [|done..].
      all: specialize (Hpaths _ Hin); congruence.
Qed.

Lemma elem_of_nested_dirs f root q :
  q ∈ nested_dirs f root <->
  exists name, name ∈ os_listdir W f root /\
    os_path_isdir W f (os_path_join W root name) = true /\
    String.prefix "__" name = false /\ q = os_path_join W root name.
Proof.
  unfold nested_dirs. rewrite list_elem_of_fmap. split.
  - intros (name & -> & Hin). apply list_elem_of_filter in Hin as [[H1 H2] H3].
    by exists name.
  - intros (name & H1 & H2 & H3 & ->). exists name. split; [done|].
    by apply list_elem_of_filter.
Qed.

(** C5.  A zip load whose [_load_from_dir] on the extraction root raises
    [FileNotFoundError] looks at the directories directly under the root
    whose names do not start with two underscores.  With none or several of
    them it raises the "nested dirs" error, which is none of the other
    errors of the module, without probing anything else.  With exactly one
    it runs [_load_from_dir] once more, on that directory: a module is
    returned, a [FileNotFoundError] becomes the fatal "top two levels"
    error, any other exception passes through.  Nothing below the second
    level is ever probed. *)
Theorem load_from_zipfile_nested_fallback t sing args s f2 e :
  let tmp := (tempfile_mkdtemp W (fs s)).1 in
  let f1 := (tempfile_mkdtemp W (fs s)).2 in
  zipfile_extractall W f1 t tmp = Ok f2 ->
  let o1 := _load_from_dir (TPath tmp) sing args (set_fs f2 s) in
  result o1 = Raise e -> is_FileNotFoundError e = true ->
  let dirs := nested_dirs f2 tmp in
  let o := _load_from_zipfile t sing args s in
  (forall q, q ∈ dirs <->
     exists name, name ∈ os_listdir W f2 tmp /\
       os_path_isdir W f2 (os_path_join W tmp name) = true /\
       String.prefix "__" name = false /\ q = os_path_join W tmp name) /\
  (length dirs <> 1 ->
     result o = Raise nested_dirs_error /\
     emitted o =
       [EvTempDir tmp; EvZipOpen t; EvExtractAll tmp] ++ emitted o1 ++
       [EvCleanup tmp]) /\
  (forall d, dirs = [d] ->
     let o2 := _load_from_dir (TPath d) sing args (final o1) in
     (forall m, result o2 = Ok m -> result o = Ok m) /\
     (forall e2, result o2 = Raise e2 ->
        result o = Raise (if is_FileNotFoundError e2
                          then top_two_levels_error W t else e2)) /\
     emitted o =
       [EvTempDir tmp; EvZipOpen t; EvExtractAll tmp] ++
       (emitted o1 ++ emitted o2) ++ [EvCleanup tmp]) /\
  Forall (fun ev => forall q, probed_path ev = Some q -> q = tmp \/ q ∈ dirs)
    (emitted o) /\
  nested_dirs_error <> top_two_levels_error W t /\
  (forall mp, nested_dirs_error <> no_config_yml W mp) /\
  (forall p id, nested_dirs_error <> path_does_not_exist p /\
                nested_dirs_error <> unable_to_load p id).
Proof.
  cbv zeta. intros Hzip Hr1 Hfnf.
  pose proof (load_from_zipfile_run t sing args s) as Hrun. cbv zeta in Hrun.
  rewrite Hzip in Hrun.
  pose proof (load_from_extracted_run t (tempfile_mkdtemp W (fs s)).1 sing args
                (set_fs f2 s)) as Hext. cbv zeta in Hext.
  rewrite Hr1, Hfnf in Hext.
  pose proof (load_from_dir_frame (tempfile_mkdtemp W (fs s)).1 sing args (set_fs f2 s))
    as [Hfs1 Hp1]. cbv zeta in Hfs1, Hp1. cbn [fs set_fs] in Hfs1.
  rewrite Hfs1 in Hext.
  set (tmp := (tempfile_mkdtemp W (fs s)).1) in *.
  set (o1 := _load_from_dir (TPath tmp) sing args (set_fs f2 s)) in *.
  split; [intros q; apply elem_of_nested_dirs|].
  split; [|split; [|split]].
  - intros Hlen. rewrite Hrun.
    destruct (nested_dirs f2 tmp) as [|d [|d' ds]] eqn:Hd; [|done|];
      rewrite Hext; done.
  - intros d Hd. rewrite Hrun, Hd in *. rewrite Hext. cbn [result emitted].
    split; [|split; [|done]].
    + intros m ->. done.
    + intros e2 ->. cbn [replaced]. by destruct (is_FileNotFoundError e2).
  - rewrite Hrun. cbn [emitted].
    assert (Hinner : Forall (fun ev => forall q, probed_path ev = Some q ->
               q = tmp \/ q ∈ nested_dirs f2 tmp)
              (emitted (load_from_extracted t tmp sing args (set_fs f2 s)))).
    { assert (H1 : Forall (fun ev => forall q, probed_path ev = Some q ->
                 q = tmp \/ q ∈ nested_dirs f2 tmp) (emitted o1)).
      { eapply Forall_impl; [exact Hp1|]. intros ev H q Hq. left. by apply H. }
      rewrite Hext.
      destruct (nested_dirs f2 tmp) as [|d [|d' ds]] eqn:Hd; cbn [emitted]; try done.
      apply Forall_app. split; [done|].
      pose proof (load_from_dir_frame d sing args (final o1)) as [_ Hp2].
      eapply Forall_impl; [exact Hp2|]. intros ev H q Hq. right.
      rewrite (H q Hq). apply list_elem_of_here. }
    apply Forall_app. split; [apply Forall_unprobed; by repeat constructor|].
    apply Forall_app. split; [done|]. apply Forall_unprobed; by repeat constructor.
  - unfold nested_dirs_error, top_two_levels_error, no_config_yml,
      path_does_not_exist, unable_to_load. simpl. split_and!; try done.
    all: intros; split_and?; discriminate.
Qed.

(** ** The singleton cache *)

Lemma cache_after_configure s :
  singleton_module_cache (after_configure s) = singleton_module_cache s.
Proof. unfold after_configure. by destruct (configured_load_backends s). Qed.

(** The cache after [_load_from_dir]: the returned module sits under the
    path of a singleton load, nothing else moved. *)
Lemma load_from_dir_cache p sing args s :
  let o := _load_from_dir (TPath p) sing args s in
  match result o with
  | Ok m =>
      singleton_module_cache (final o) =
        (if sing then <[p := m]> (singleton_module_cache s)
         else singleton_module_cache s)
  | Raise _ => singleton_module_cache (final o) = singleton_module_cache s
  end.
Proof.
  cbv zeta.
  destruct (load_from_dir_run p sing args s) as [Hex Hrun|m Hex Hs Hc Hrun|Hex Hc Hrun].
  - by rewrite Hrun.
  - rewrite Hrun. cbn [result final]. subst sing. by rewrite insert_id.
  - cbv zeta in Hrun. destruct Hrun as (_ & Hr & Hf). rewrite Hr, Hf.
    destruct (result (backend_loop p args 0 (effective_backends s) None
                        (after_configure s))) as [[[m|] q]|e];
      try destruct sing; cbn [singleton_module_cache set_cache];
      by rewrite cache_after_configure.
Qed.

Lemma load_from_dir_stored p sing args s :
  cache_kept_or_stored s (_load_from_dir (TPath p) sing args s).
Proof.
  unfold cache_kept_or_stored.
  destruct (load_from_dir_run p sing args s) as [Hex Hrun|m Hex Hs Hc Hrun|Hex Hc Hrun].
  - by rewrite Hrun.
  - rewrite Hrun. by left.
  - cbv zeta in Hrun. destruct Hrun as (He & Hr & Hf). rewrite Hr, Hf, He.
    rewrite attempts_lock_events, attempts_app, attempts_configure_events.
    cbn [app].
    pose proof (backend_loop_search p args (effective_backends s) 0 None
                  (after_configure s)) as [_ _ _ H4 _ _].
    destruct (result (backend_loop p args 0 (effective_backends s) None
                        (after_configure s))) as [[[m|] q]|e];
      try apply cache_after_configure.
    destruct (H4 m q eq_refl) as (j & b & m0 & Hlast & ->).
    destruct sing; [right|left; apply cache_after_configure].
    exists p, j, b, m0. cbn [singleton_module_cache set_cache].
    rewrite cache_after_configure. split; [done|]. split; [|done].
    apply last_Some in Hlast as [l' ->]. apply elem_of_app. right.
    apply list_elem_of_here.
Qed.

Lemma load_run module_path load_singleton args s :
  load module_path load_singleton args s =
  match load_singleton with
  | VBool sing =>
      match load_target s module_path with
      | Some t =>
          if zipfile_is_zipfile W (fs s) t then _load_from_zipfile t sing args s
          else
            except_FileNotFoundError (_load_from_dir t sing args)
              (raise (no_config_yml W t)) s
      | None => raise (TypeError "<COR98255419E>") s
      end
  | _ => raise (TypeError "<COR98255724E>") s
  end.
Proof.
  destruct load_singleton as [| | |sing| |]; try reflexivity.
  destruct module_path as [given|buf|buf| | |];
    try (by apply load_str_run);
    unfold load, load_target, check_load_singleton, check_module_path,
      apply_load_path;
    rewrite bind_run; cbn [ret result final emitted]; rewrite bind_gets;
    destruct (config_load_path W);
    rewrite bind_run; cbn [ret raise result final emitted app];
    try reflexivity;
    destruct (zipfile_is_zipfile W (fs s) (TBuffer buf));
    apply outcome_ext; reflexivity.
Qed.

Lemma load_from_dir_buffer (buf : bytes) sing args s :
  _load_from_dir (TBuffer buf) sing args s =
  {| result :=
       Raise (TypeError
         "stat: path should be string, bytes, os.PathLike or integer, not BytesIO");
     final := s; emitted := [] |}.
Proof. reflexivity. Qed.

Lemma load_from_extracted_stored t root sing args s :
  cache_kept_or_stored s (load_from_extracted t root sing args s).
Proof.
  rewrite load_from_extracted_run. cbv zeta.
  pose proof (load_from_dir_stored root sing args s) as H1.
  pose proof (load_from_dir_cache root sing args s) as Hc1. cbv zeta in Hc1.
  set (o1 := _load_from_dir (TPath root) sing args s) in *.
  destruct (result o1) as [m|e] eqn:Hr1; [done|].
  destruct (is_FileNotFoundError e); [|done].
  destruct (nested_dirs (fs (final o1)) root) as [|d [|d' ds]];
    try (unfold cache_kept_or_stored; cbn [result final]; done).
  pose proof (load_from_dir_stored d sing args (final o1)) as H2.
  unfold cache_kept_or_stored in *. cbn [result final emitted].
  rewrite Hc1 in H2.
  destruct (result (_load_from_dir (TPath d) sing args (final o1))) as [m|e2];
    cbn [replaced].
  - destruct H2 as [H2|(key & j & b & m0 & Hk & Hin & ->)]; [by left|right].
    exists key, j, b, m0. split; [done|]. split; [|done].
    rewrite attempts_app. apply elem_of_app. by right.
  - by destruct (is_FileNotFoundError e2).
Qed.

Lemma load_from_zipfile_stored t sing args s :
  cache_kept_or_stored s (_load_from_zipfile t sing args s).
Proof.
  rewrite load_from_zipfile_run. cbv zeta.
  destruct (zipfile_extractall W _ t _) as [f2|e]; [|done].
  pose proof (load_from_extracted_stored t (tempfile_mkdtemp W (fs s)).1 sing args
                (set_fs f2 s)) as H.
  unfold cache_kept_or_stored in *.
  cbn [result final emitted singleton_module_cache set_fs] in *.
  destruct (result (load_from_extracted t _ sing args (set_fs f2 s))) as [m|e]; [|done].
  destruct H as [H|(key & j & b & m0 & Hk & Hin & ->)]; [by left|right].
  exists key, j, b, m0. split; [done|]. split; [|done].
  rewrite !attempts_app. apply elem_of_app. right. apply elem_of_app. by left.
Qed.

Lemma load_stored module_path load_singleton args s :
  cache_kept_or_stored s (load module_path load_singleton args s).
Proof.
  rewrite load_run.
  destruct load_singleton as [| | |sing| |]; try done.
  destruct (load_target s module_path) as [t|]; [|done].
  destruct (zipfile_is_zipfile W (fs s) t); [apply load_from_zipfile_stored|].
  rewrite except_raise_run.
  destruct t as [p|buf]; [|by rewrite load_from_dir_buffer].
  pose proof (load_from_dir_stored p sing args s) as H.
  unfold cache_kept_or_stored in *. cbn [result final emitted].
  destruct (result (_load_from_dir (TPath p) sing args s)) as [m|e]; [done|].
  cbn [replaced]. by destruct (is_FileNotFoundError e).
Qed.

(** C10.  A load that fails, for whatever reason (an argument of the wrong
    type, a path that does not exist, a missing config, an archive without a
    usable directory, no backend that loads the module, an exception of a
    loader), leaves the singleton cache as it was.  The cache only changes
    in a load that succeeds, by one entry: the module the load returns, which
    is the module a loader has handed back, tagged. *)
Theorem failed_load_keeps_singleton_cache module_path load_singleton args s :
  let o := load module_path load_singleton args s in
  (forall e, result o = Raise e ->
     singleton_module_cache (final o) = singleton_module_cache s) /\
  (singleton_module_cache (final o) <> singleton_module_cache s ->
     exists m key j b m0,
       result o = Ok m /\
       singleton_module_cache (final o) = <[key := m]> (singleton_module_cache s) /\
       (j, b, Ok (LModule m0)) ∈ attempts (emitted o) /\
       m = set_load_backend b m0).
Proof.
  cbv zeta. pose proof (load_stored module_path load_singleton args s) as H.
  unfold cache_kept_or_stored in H. split.
  - intros e He. by rewrite He in H.
  - intros Hne.
    destruct (result (load module_path load_singleton args s)) as [m|e]; [|done].
    destruct H as [H|(key & j & b & m0 & Hk & Hin & Hm)]; [done|].
    by exists m, key, j, b, m0.
Qed.

(** The dispatch loop reads the state through the file system only. *)
Lemma try_backend_fs p args i b parsed s s' :
  fs s = fs s' ->
  result (try_backend p args i b parsed s) = result (try_backend p args i b parsed s') /\
  emitted (try_backend p args i b parsed s) = emitted (try_backend p args i b parsed s').
Proof.
  intros H. destruct (is_shared b) eqn:Hsh.
  - rewrite !try_backend_shared by done. cbv zeta. cbn [result emitted].
    by rewrite H.
  - unfold try_backend. rewrite Hsh.
    unfold try_module_backend, parse_module_config, bind, gets, emit, lift,
      ret, raise.
    destruct parsed as [q|]; cbn [result final emitted]; rewrite ?H.
    + destruct (module_implementations q !! backend_type b) as [impl|]; [|done].
      destruct (bool_decide _); [|done]. cbn [result final emitted]. rewrite H.
      by destruct (impl_load W impl b (fs s') p args) as [[]|].
    + destruct (ModuleConfig_load W (fs s') p) as [mc|e];
        cbn [result final emitted]; [|done].
      destruct (_ !! backend_type b) as [impl|]; [|done].
      destruct (bool_decide _); [|done]. cbn [result final emitted]. rewrite ?H.
      by destruct (impl_load W impl b (fs s') p args) as [[]|].
Qed.

Lemma backend_loop_fs p args bs : forall i parsed s s',
  fs s = fs s' ->
  result (backend_loop p args i bs parsed s) =
    result (backend_loop p args i bs parsed s') /\
  emitted (backend_loop p args i bs parsed s) =
    emitted (backend_loop p args i bs parsed s').
Proof.
  induction bs as [|b rest IH]; intros i parsed s s' H; [done|].
  rewrite !backend_loop_cons. cbv zeta.
  destruct (try_backend_fs p args i b parsed s s' H) as [Hr He].
  rewrite !try_backend_final, Hr, He.
  destruct (result (try_backend p args i b parsed s')) as [[[m|] q]|e];
    cbn [result emitted]; try done.
  destruct (IH (S i) q s s' H) as [-> ->]. done.
Qed.


(** C4, as the code has it.  A singleton load of a path that exists on the
    file system and has an entry in the singleton cache returns that entry
    at once: it takes and releases the lock and does nothing else, so no
    backend is configured or called and no module config is parsed, and the
    state is left as it was.  When there is no entry, a module that is
    returned was handed back by the last loader called, and it is stored
    under the path.  The same holds through [load], whose key is the path it
    passes on. *)
Theorem singleton_load_uses_cache p args s :
  os_path_exists W (fs s) p = true ->
  let o := _load_from_dir (TPath p) true args s in
  (forall m, singleton_module_cache s !! p = Some m ->
     o = {| result := Ok m; final := s;
            emitted := [EvLockAcquire; EvLockRelease] |}) /\
  (singleton_module_cache s !! p = None ->
     forall m, result o = Ok m ->
       singleton_module_cache (final o) = <[p := m]> (singleton_module_cache s) /\
       exists j b m0,
         last (attempts (emitted o)) = Some (j, b, Ok (LModule m0)) /\
         m = set_load_backend b m0) /\
  (forall given,
     load_key s given = p ->
     zipfile_is_zipfile W (fs s) (TPath p) = false ->
     let o' := load (VStr given) (VBool true) args s in
     (forall m, singleton_module_cache s !! p = Some m ->
        o' = {| result := Ok m; final := s;
                emitted := [EvLockAcquire; EvLockRelease] |}) /\
     (singleton_module_cache s !! p = None ->
      forall m, result o' = Ok m ->
        singleton_module_cache (final o') =
          <[p := m]> (singleton_module_cache s))).
Proof.
  intros Hex. cbv zeta.
  assert (Hhit : forall m, singleton_module_cache s !! p = Some m ->
            _load_from_dir (TPath p) true args s =
            {| result := Ok m; final := s;
               emitted := [EvLockAcquire; EvLockRelease] |}).
  { intros m Hm.
    destruct (load_from_dir_run p true args s) as [Hex' Hrun|m' _ _ Hc Hrun|_ Hc Hrun];
      [congruence| |congruence].
    rewrite Hrun. rewrite Hm in Hc. by injection Hc as <-. }
  pose proof (load_from_dir_cache p true args s) as Hcache. cbv zeta in Hcache.
  split; [exact Hhit|split].
  2: { intros given Hkey Hzip.
       rewrite load_str_run. cbv zeta. rewrite Hkey, Hzip, except_raise_run.
       split.
       - intros m Hm. rewrite (Hhit m Hm). done.
       - intros _ m. cbn [result final].
         destruct (result (_load_from_dir (TPath p) true args s)) as [m'|e].
         + by intros [= ->].
         + cbn [replaced]. by destruct (is_FileNotFoundError e). }
  intros Hnone m Hr.
  rewrite Hr in Hcache. split; [done|].
  destruct (load_from_dir_run p true args s) as [Hex' Hrun|m' _ _ Hc Hrun|_ Hc Hrun];
    [congruence|congruence|].
  cbv zeta in Hrun. destruct Hrun as (He & Hr' & _).
  rewrite He, attempts_lock_events, attempts_app, attempts_configure_events.
  cbn [app]. rewrite Hr' in Hr.
  pose proof (backend_loop_search p args (effective_backends s) 0 None
                (after_configure s)) as [_ _ _ H4 _ _].
  destruct (result (backend_loop p args 0 (effective_backends s) None
                      (after_configure s))) as [[[m'|] q]|e]; simplify_eq.
  apply (H4 m q eq_refl).
Qed.


(** ** Paths that do not exist *)

(** C8, as the code has it.  For a path that is not an archive and does not
    exist, [_load_from_dir] raises the [ENOENT] error at once, before it
    takes the lock, looks into the cache, configures or calls a backend; the
    state is untouched.  [load] catches it like every [FileNotFoundError]
    and fails with the error that names the missing [config.yml]: the
    caller sees the same error as for a directory where the first backend
    is a per-module one and the module config is missing. *)
Theorem load_of_missing_path given sing args s :
  let key := load_key s given in
  zipfile_is_zipfile W (fs s) (TPath key) = false ->
  (os_path_exists W (fs s) key = false ->
     _load_from_dir (TPath key) sing args s =
       {| result := Raise (path_does_not_exist key); final := s; emitted := [] |} /\
     load (VStr given) (VBool sing) args s =
       {| result := Raise (no_config_yml W (TPath key)); final := s;
          emitted := [] |}) /\
  (forall b rest e,
     os_path_exists W (fs s) key = true ->
     (if sing then singleton_module_cache s !! key else None) = None ->
     effective_backends s = b :: rest -> is_shared b = false ->
     ModuleConfig_load W (fs s) key = Raise e -> is_FileNotFoundError e = true ->
     result (load (VStr given) (VBool sing) args s) =
       Raise (no_config_yml W (TPath key))).
Proof.
  cbv zeta. intros Hzip. split.
  - intros Hex. split; [by apply load_from_dir_missing|].
    rewrite load_str_run. cbv zeta. rewrite Hzip, except_raise_run.
    by rewrite load_from_dir_missing.
  - intros b rest e Hex Hmiss Heff Hsh Hmc Hfnf.
    rewrite load_str_run. cbv zeta. rewrite Hzip, except_raise_run. cbn [result].
    destruct (load_from_dir_run (load_key s given) sing args s)
      as [Hex' Hrun|m' _ Hs Hc Hrun|_ Hc Hrun]; [congruence|subst sing; congruence|].
    cbv zeta in Hrun. destruct Hrun as (_ & -> & _).
    rewrite Heff, backend_loop_cons. cbv zeta.
    unfold try_backend. rewrite Hsh.
    unfold try_module_backend, parse_module_config.
    rewrite bind_run, bind_gets, bind_emit. cbn [result final emitted].
    rewrite bind_lift, fs_after_configure, Hmc. cbn [result replaced].
    by rewrite Hfnf.
Qed.

(** ** [extract] *)

(** C9.  [extract] returns the absolute form of [model_path] whenever it
    returns.  When that directory exists and [force_overwrite] is false the
    call does nothing: the archive is not opened, nothing is extracted, the
    state is as before; so a second call after any first call finds the same
    destination and returns it.  With [force_overwrite] true the archive is
    opened whether or not the destination exists, and when it unpacks the
    content goes into the destination again. *)
Theorem extract_is_idempotent_unless_forced zip_path model_path s :
  let dest := os_path_abspath W model_path in
  (forall force d, result (extract zip_path model_path force s) = Ok d -> d = dest) /\
  (os_path_exists W (fs s) dest = true ->
     extract zip_path model_path false s =
       {| result := Ok dest; final := s; emitted := [] |}) /\
  (forall force,
     let o1 := extract zip_path model_path force s in
     os_path_exists W (fs (final o1)) dest = true ->
     let o2 := extract zip_path model_path false (final o1) in
     result o2 = Ok dest /\ final o2 = final o1 /\ emitted o2 = [] /\
     (forall d, result o1 = Ok d -> result o2 = result o1)) /\
  (exists evs,
     emitted (extract zip_path model_path true s) = EvZipOpen zip_path :: evs) /\
  (forall f', zipfile_extractall W (fs s) zip_path dest = Ok f' ->
     extract zip_path model_path true s =
       {| result := Ok dest; final := set_fs f' s;
          emitted := [EvZipOpen zip_path; EvExtractAll dest] |}).
Proof.
  cbv zeta.
  assert (Hskip : forall s',
            os_path_exists W (fs s') (os_path_abspath W model_path) = true ->
            extract zip_path model_path false s' =
            {| result := Ok (os_path_abspath W model_path); final := s';
               emitted := [] |}).
  { intros s' Hex. unfold extract. rewrite bind_gets, Hex. done. }
  assert (Hdest : forall force d,
            result (extract zip_path model_path force s) = Ok d ->
            d = os_path_abspath W model_path).
  { intros force d. unfold extract. rewrite bind_gets.
    destruct (negb force && os_path_exists W (fs s) (os_path_abspath W model_path)).
    - by intros [= <-].
    - rewrite bind_run, zip_extractall_run.
      destruct (zipfile_extractall W (fs s) zip_path _); cbn [result]; [|done].
      by intros [= <-]. }
  split; [exact Hdest|]. split; [by apply Hskip|]. split; [|split].
  - intros force Hex. rewrite (Hskip _ Hex). cbn [result final emitted].
    split; [done|]. split; [done|]. split; [done|].
    intros d Hd. rewrite Hd. f_equal. symmetry. by eapply Hdest.
  - unfold extract. rewrite bind_gets. cbn [negb andb].
    rewrite bind_run, zip_extractall_run.
    destruct (zipfile_extractall W (fs s) zip_path _); cbn [result emitted]; eauto.
  - intros f' Hx. unfold extract. rewrite bind_gets. cbn [negb andb].
    rewrite bind_run, zip_extractall_run, Hx. done.
Qed.

(** ** The lock, one load at a time *)

Lemma load_from_dir_cached p args s m :
  os_path_exists W (fs s) p = true ->
  singleton_module_cache s !! p = Some m ->
  _load_from_dir (TPath p) true args s =
  {| result := Ok m; final := s; emitted := [EvLockAcquire; EvLockRelease] |}.
Proof.
  intros Hex Hm.
  destruct (load_from_dir_run p true args s) as [Hex' Hrun|m' _ _ Hc Hrun|_ Hc Hrun];
    [congruence| |congruence].
  rewrite Hrun. rewrite Hm in Hc. by injection Hc as <-.
Qed.

(** A singleton load that has returned a module is served from the cache
    when it is repeated: same module, no loader, no parsing. *)
Lemma repeated_singleton_load p args s m :
  let o := _load_from_dir (TPath p) true args s in
  result o = Ok m ->
  _load_from_dir (TPath p) true args (final o) =
  {| result := Ok m; final := final o;
     emitted := [EvLockAcquire; EvLockRelease] |}.
Proof.
  cbv zeta. intros Hr.
  pose proof (load_from_dir_cache p true args s) as Hc. cbv zeta in Hc.
  pose proof (load_from_dir_frame p true args s) as [Hfs _]. cbv zeta in Hfs.
  rewrite Hr in Hc.
  apply load_from_dir_cached.
  - rewrite Hfs. destruct (os_path_exists W (fs s) p) eqn:Hex; [done|].
    rewrite load_from_dir_missing in Hr by done. discriminate Hr.
  - rewrite Hc. apply lookup_insert_eq.
Qed.

Lemma backend_loop_no_lock p args bs i parsed s :
  Forall (fun e => is_lock_event e = false)
    (emitted (backend_loop p args i bs parsed s)).
Proof.
  destruct (backend_loop_parse_count p args bs i parsed s) as [_ H].
  eapply Forall_impl; [exact H|]. intros e He. by destruct e.
Qed.

(** [_load_from_dir] takes the lock for a singleton load of an existing
    path, once, around everything else it does, and never otherwise. *)
Lemma load_from_dir_lock p sing args s :
  let o := _load_from_dir (TPath p) sing args s in
  if sing && os_path_exists W (fs s) p then
    exists evs, emitted o = EvLockAcquire :: evs ++ [EvLockRelease] /\
                Forall (fun e => is_lock_event e = false) evs
  else Forall (fun e => is_lock_event e = false) (emitted o).
Proof.
  cbv zeta.
  destruct (load_from_dir_run p sing args s) as [Hex Hrun|m Hex Hs Hc Hrun|Hex Hc Hrun].
  - rewrite Hex, andb_false_r, Hrun. constructor.
  - subst sing. rewrite Hex, Hrun. by exists [].
  - cbv zeta in Hrun. destruct Hrun as (-> & _ & _). rewrite Hex, andb_true_r.
    assert (H : Forall (fun e => is_lock_event e = false)
                  (configure_events s ++
                   emitted (backend_loop p args 0 (effective_backends s) None
                              (after_configure s)))).
    { apply Forall_app. split; [|apply backend_loop_no_lock].
      unfold configure_events. destruct (configured_load_backends s);
        by repeat constructor. }
    destruct sing; [|exact H]. by eexists.
Qed.

(** A load that is not a singleton load never takes the lock. *)
Lemma non_singleton_load_takes_no_lock module_path args s :
  Forall (fun e => is_lock_event e = false)
    (emitted (load module_path (VBool false) args s)).
Proof.
  assert (Hdir : forall p s', Forall (fun e => is_lock_event e = false)
                   (emitted (_load_from_dir (TPath p) false args s'))).
  { intros p s'. exact (load_from_dir_lock p false args s'). }
  rewrite load_run.
  destruct (load_target s module_path) as [t|]; [|constructor].
  destruct (zipfile_is_zipfile W (fs s) t).
  - rewrite load_from_zipfile_run. cbv zeta.
    destruct (zipfile_extractall W _ t _) as [f2|e]; [|by repeat constructor].
    cbn [emitted]. apply Forall_app. split; [by repeat constructor|].
    apply Forall_app. split; [|by repeat constructor].
    rewrite load_from_extracted_run. cbv zeta.
    destruct (result (_load_from_dir _ false args (set_fs f2 s))) as [m|e]; [done|].
    destruct (is_FileNotFoundError e); [|done].
    destruct (nested_dirs _ _) as [|d [|d' ds]]; cbn [emitted]; try done.
    apply Forall_app. split; done.
  - rewrite except_raise_run. cbn [emitted].
    destruct t as [p|buf]; [done|]. rewrite load_from_dir_buffer. constructor.
Qed.

(** ** What ends the search *)

Lemma try_backend_verdict p args i b parsed s a :
  a ∈ attempts (emitted (try_backend p args i b parsed s)) ->
  position a = i /\ backend_of a = b /\
  match loader_verdict b (returned a) with
  | Ok x => exists q, result (try_backend p args i b parsed s) = Ok (x, q)
  | Raise e => result (try_backend p args i b parsed s) = Raise e
  end.
Proof.
  unfold loader_verdict.
  unfold try_backend, try_shared_backend, try_module_backend, parse_module_config.
  unfold bind, ret, raise, gets, modify, emit, lift; simpl.
  repeat (case_match; simpl); simplify_eq/=;
    rewrite ?elem_of_cons, ?elem_of_nil; intros Ha;
    destruct_or?; simplify_eq/=; try done;
    split_and!; try done; eauto.
Qed.

Lemma backend_loop_verdict p args bs : forall i parsed s a,
  a ∈ attempts (emitted (backend_loop p args i bs parsed s)) ->
  returned a <> Ok LNone ->
  last (attempts (emitted (backend_loop p args i bs parsed s))) = Some a /\
  match loader_verdict (backend_of a) (returned a) with
  | Ok x => exists q, result (backend_loop p args i bs parsed s) = Ok (x, q)
  | Raise e => result (backend_loop p args i bs parsed s) = Raise e
  end.
Proof.
  intros i parsed s a Hin Hne. split.
  { pose proof (backend_loop_search p args bs i parsed s) as [_ _ H3 _ _ _].
    apply list_elem_of_lookup in Hin as [k Hk].
    destruct (decide (S k < length (attempts (emitted
                (backend_loop p args i bs parsed s))))) as [Hlt|Hge].
    - by specialize (H3 k _ Hk Hlt).
    - rewrite last_lookup. rewrite <- Hk. f_equal.
      apply lookup_lt_Some in Hk. lia. }
  revert i parsed s Hin.
  induction bs as [|b rest IH]; intros i parsed s Hin.
  { by apply elem_of_nil in Hin. }
  rewrite backend_loop_cons in *. cbv zeta in *.
  pose proof (try_backend_verdict p args i b parsed s a) as Hturn.
  destruct (result (try_backend p args i b parsed s)) as [[[m|] q]|e] eqn:Hr;
    cbn [result emitted] in *; rewrite ?app_nil_r in *.
  - destruct (Hturn Hin) as (_ & <- & Hv). exact Hv.
  - rewrite attempts_app in Hin. apply elem_of_app in Hin as [Hin|Hin].
    + destruct (Hturn Hin) as (_ & <- & Hv).
      destruct a as [[j b'] r]. simpl in *.
      destruct r as [[|m|]|e]; simpl in *; try done.
      * destruct Hv as [q' Hv]. discriminate Hv.
    + by apply IH.
  - destruct (Hturn Hin) as (_ & <- & Hv). exact Hv.
Qed.

Lemma backend_loop_events p args bs i parsed s :
  Forall (fun e => is_dispatch_event e = true /\ is_configure e = false)
    (emitted (backend_loop p args i bs parsed s)).
Proof.
  destruct (backend_loop_parse_count p args bs i parsed s) as [_ H].
  eapply Forall_impl; [exact H|]. intros e He. by destruct e.
Qed.

(** X8.  A loader that raises, or hands back something that is neither a
    module nor [None], ends the search of [_load_from_dir]: its call is the
    last one, no later backend is tried, and the load raises: the loader's
    own exception, or the [TypeError] of the type check COR76726077E when a
    shared loader returned an object that is no module.  The singleton
    cache and the file system are as before. *)
Theorem loader_failure_ends_search p sing args s j b r e :
  let o := _load_from_dir (TPath p) sing args s in
  (j, b, r) ∈ attempts (emitted o) ->
  loader_verdict b r = Raise e ->
  last (attempts (emitted o)) = Some (j, b, r) /\
  result o = Raise e /\
  (r = Ok LOther -> is_shared b = true -> e = TypeError "<COR76726077E>") /\
  (forall e', r = Raise e' -> e = e') /\
  singleton_module_cache (final o) = singleton_module_cache s /\
  fs (final o) = fs s.
Proof.
  cbv zeta. intros Hin Hv.
  pose proof (load_from_dir_cache p sing args s) as Hcache. cbv zeta in Hcache.
  pose proof (load_from_dir_frame p sing args s) as [Hfs _]. cbv zeta in Hfs.
  assert (Hres : last (attempts (emitted (_load_from_dir (TPath p) sing args s))) =
                   Some (j, b, r) /\
                 result (_load_from_dir (TPath p) sing args s) = Raise e).
  { destruct (load_from_dir_run p sing args s)
      as [Hex Hrun|m Hex Hs Hc Hrun|Hex Hc Hrun].
    - rewrite Hrun in Hin. by apply elem_of_nil in Hin.
    - rewrite Hrun in Hin. by apply elem_of_nil in Hin.
    - cbv zeta in Hrun. destruct Hrun as (He & Hr & _).
      rewrite He, attempts_lock_events, attempts_app, attempts_configure_events in *.
      cbn [app] in *.
      destruct (backend_loop_verdict p args (effective_backends s) 0 None
                  (after_configure s) (j, b, r) Hin) as [Hlast Hloop].
      { simpl. intros Heq. rewrite Heq in Hv. discriminate Hv. }
      simpl in Hloop. rewrite Hv in Hloop. rewrite Hr, Hloop. done. }
  destruct Hres as [Hlast Hr]. rewrite Hr in Hcache.
  split; [done|]. split; [done|]. split; [|split; [|done]].
  - intros -> Hsh. simpl in Hv. rewrite Hsh in Hv. by injection Hv as <-.
  - intros e' ->. simpl in Hv. by injection Hv as <-.
Qed.

(** ** Backends that all decline *)

Lemma try_backend_declines p args i b parsed s q0 :
  (is_shared b = false ->
   parsed = Some q0 \/
   parsed = None /\ exists mc, ModuleConfig_load W (fs s) p = Ok mc /\
                               q0 = parsed_of W mc) ->
  declines (fs s) p args q0 b ->
  let o := try_backend p args i b parsed s in
  result o = Ok (None, if is_shared b then parsed else Some q0) /\
  parse_count (emitted o) = (if is_shared b then 0 else unparsed parsed) /\
  (is_shared b = true -> attempts (emitted o) = [(i, b, Ok LNone)]).
Proof.
  intros Hparsed Hdec. cbv zeta. unfold declines in Hdec.
  destruct (is_shared b) eqn:Hsh.
  - rewrite try_backend_shared by done. cbv zeta. rewrite Hdec. done.
  - unfold try_backend. rewrite Hsh.
    unfold try_module_backend, parse_module_config.
    destruct (Hparsed eq_refl) as [->|[-> (mc & Hmc & ->)]].
    + unfold bind, ret, raise, gets, emit, lift. cbn [result final emitted].
      destruct (module_implementations q0 !! backend_type b) as [impl|];
        cbn [result final emitted]; [|by (unfold parse_count; simpl)].
      destruct Hdec as [Hnot|Hnone].
      * rewrite bool_decide_eq_false_2 by done. by (unfold parse_count; simpl).
      * destruct (bool_decide _); cbn [result final emitted]; [|by (unfold parse_count; simpl)].
        rewrite Hnone. by (unfold parse_count; simpl).
    + unfold bind, ret, raise, gets, emit, lift. cbn [result final emitted].
      rewrite Hmc. unfold ret, parsed_of in *.
      cbn [result final emitted module_implementations model_creation_backend] in *.
      destruct (default ∅ (module_backend_registry W !! mc_module_id mc)
                  !! backend_type b) as [impl|];
        cbn [result final emitted]; [|by (unfold parse_count; simpl)].
      destruct Hdec as [Hnot|Hnone].
      * rewrite bool_decide_eq_false_2 by done. by (unfold parse_count; simpl).
      * destruct (bool_decide _); cbn [result final emitted]; [|by (unfold parse_count; simpl)].
        rewrite Hnone. by (unfold parse_count; simpl).
Qed.

Lemma backend_loop_declines p args bs q0 : forall i parsed s,
  (Exists (fun b => is_shared b = false) bs ->
   parsed = Some q0 \/
   parsed = None /\ exists mc, ModuleConfig_load W (fs s) p = Ok mc /\
                               q0 = parsed_of W mc) ->
  Forall (declines (fs s) p args q0) bs ->
  let o := backend_loop p args i bs parsed s in
  result o =
    Ok (None, if existsb (fun b => negb (is_shared b)) bs then Some q0 else parsed) /\
  parse_count (emitted o) =
    (if existsb (fun b => negb (is_shared b)) bs then unparsed parsed else 0).
Proof.
  induction bs as [|b rest IH]; intros i parsed s Hparsed Hdec; cbv zeta.
  { done. }
  apply Forall_cons in Hdec as [Hb Hrest].
  rewrite backend_loop_cons. cbv zeta.
  destruct (try_backend_declines p args i b parsed s q0) as (Hr & Hc & _);
    [|done|].
  { intros Hsh. apply Hparsed. by left. }
  rewrite Hr, try_backend_final. cbn [result emitted existsb].
  rewrite parse_count_app, Hc.
  destruct (is_shared b) eqn:Hsh; cbn [negb orb].
  - destruct (IH (S i) parsed s) as [-> ->]; [|done|done].
    intros Hex. apply Hparsed. by right.
  - destruct (IH (S i) (Some q0) s) as [-> ->]; [by left|done|].
    split; [by destruct (existsb _ rest)|].
    destruct (existsb _ rest); cbn [unparsed]; lia.
Qed.

Lemma backend_loop_shared_decline p args bs : forall i parsed s,
  Forall (fun b => is_shared b = true /\ shared_load W b (fs s) p args = Ok LNone) bs ->
  attempts (emitted (backend_loop p args i bs parsed s)) =
  imap (fun k b => (i + k, b, Ok LNone)) bs.
Proof.
  induction bs as [|b rest IH]; intros i parsed s Hall; [done|].
  apply Forall_cons in Hall as [[Hsh Hnone] Hrest].
  rewrite backend_loop_cons. cbv zeta.
  rewrite try_backend_shared by done. cbv zeta. rewrite Hnone.
  cbn [result final emitted]. rewrite attempts_app, (IH (S i) parsed s Hrest).
  change (attempts [EvSharedLoad i b p (Ok LNone)])
    with [(i, b, Ok LNone : Result loaded)].
  cbn [imap app]. rewrite Nat.add_0_r. f_equal.
  apply imap_ext. intros k b' _. simpl. f_equal. f_equal. lia.
Qed.

(** X9.  When the search of [_load_from_dir] runs and every backend
    declines, the load fails with the [ValueError] COR50207494E.  If all the
    backends are shared ones whose loaders return [None], each is asked once
    in the order of the list, the module config is never parsed and the
    message ends in [MODULE_ID None]; this covers the empty list.  If there
    is a per-module backend and the module config parses, the config is
    parsed once and the message names its module id. *)
Theorem load_fails_when_every_backend_declines p sing args s :
  os_path_exists W (fs s) p = true ->
  (if sing then singleton_module_cache s !! p else None) = None ->
  let o := _load_from_dir (TPath p) sing args s in
  let bs := effective_backends s in
  (Forall (fun b => is_shared b = true /\
                    shared_load W b (fs s) p args = Ok LNone) bs ->
     result o = Raise (unable_to_load p None) /\
     attempts (emitted o) = imap (fun k b => (k, b, Ok LNone)) bs /\
     parse_count (emitted o) = 0) /\
  (forall mc,
     ModuleConfig_load W (fs s) p = Ok mc ->
     Exists (fun b => is_shared b = false) bs ->
     Forall (declines (fs s) p args (parsed_of W mc)) bs ->
     result o = Raise (unable_to_load p (Some (mc_module_id mc))) /\
     parse_count (emitted o) = 1).
Proof.
  intros Hex Hmiss. cbv zeta.
  destruct (load_from_dir_run p sing args s) as [Hex' Hrun|m' _ Hs Hc Hrun|_ Hc Hrun];
    [congruence|subst sing; congruence|].
  cbv zeta in Hrun. destruct Hrun as (He & Hr & Hf).
  rewrite He, Hr, parse_count_dispatch_events, attempts_lock_events, attempts_app,
    attempts_configure_events.
  cbn [app]. split.
  - intros Hall.
    assert (Hall' : Forall (fun b => is_shared b = true /\
                       shared_load W b (fs (after_configure s)) p args = Ok LNone)
                      (effective_backends s)) by (by rewrite fs_after_configure).
    rewrite (backend_loop_shared_decline p args _ 0 None _ Hall').
    destruct (backend_loop_declines p args (effective_backends s)
                (parsed_of W {| mc_module_id := ""; mc_model_backend := None |})
                0 None (after_configure s)) as [Hres Hcount].
    + intros Hexists. apply Exists_exists in Hexists as (b & Hin & Hsh).
      rewrite Forall_forall in Hall. destruct (Hall b Hin) as [Hsh' _]. congruence.
    + eapply Forall_impl; [exact Hall'|]. intros b [Hsh Hnone].
      unfold declines. by rewrite Hsh.
    + assert (Hno : existsb (fun b => negb (is_shared b)) (effective_backends s) = false).
      { apply not_true_is_false. intros Hx. apply existsb_exists in Hx as (b & Hin & Hb).
        apply list_elem_of_In in Hin.
        rewrite Forall_forall in Hall. destruct (Hall b Hin) as [Hsh' _].
        by rewrite Hsh' in Hb. }
      rewrite Hno in Hres, Hcount. rewrite Hres, Hcount. done.
  - intros mc Hmc Hexists Hall.
    destruct (backend_loop_declines p args (effective_backends s) (parsed_of W mc)
                0 None (after_configure s)) as [Hres Hcount].
    + intros _. right. split; [done|]. exists mc. by rewrite fs_after_configure.
    + by rewrite fs_after_configure.
    + assert (Hyes : existsb (fun b => negb (is_shared b)) (effective_backends s) = true).
      { apply Exists_exists in Hexists as (b & Hin & Hsh).
        apply existsb_exists. exists b. split; [by apply list_elem_of_In|].
        by rewrite Hsh. }
      rewrite Hyes in Hres, Hcount. rewrite Hres, Hcount. done.
Qed.

(** ** First success wins *)









(** ** [configure()] *)






(** ** What [_load_from_dir] leaves alone *)

Lemma load_from_dir_events p sing args s :
  Forall (fun e => is_dispatch_event e = true)
    (emitted (_load_from_dir (TPath p) sing args s)).
Proof.
  destruct (load_from_dir_run p sing args s) as [Hex Hrun|m Hex Hs Hc Hrun|Hex Hc Hrun].
  - rewrite Hrun. constructor.
  - rewrite Hrun. by repeat constructor.
  - cbv zeta in Hrun. destruct Hrun as (-> & _ & _).
    assert (H : Forall (fun e => is_dispatch_event e = true)
                  (configure_events s ++
                   emitted (backend_loop p args 0 (effective_backends s) None
                              (after_configure s)))).
    { apply Forall_app. split.
      - unfold configure_events. destruct (configured_load_backends s);
          by repeat constructor.
      - eapply Forall_impl; [apply backend_loop_events|]. by intros e [He _]. }
    destruct sing; [|exact H]. unfold lock_events.
    constructor; [done|]. apply Forall_app. split; [done|]. by repeat constructor.
Qed.

(** The cache after [_load_from_dir] holds everything it held before. *)
Lemma load_from_dir_cache_grows p sing args s :
  singleton_module_cache s ⊆
  singleton_module_cache (final (_load_from_dir (TPath p) sing args s)).
Proof.
  pose proof (load_from_dir_cache p sing args s) as Hcache. cbv zeta in Hcache.
  destruct (load_from_dir_run p sing args s) as [Hex Hrun|m Hex Hs Hc Hrun|Hex Hc Hrun].
  - by rewrite Hrun.
  - by rewrite Hrun.
  - destruct (result (_load_from_dir (TPath p) sing args s)) as [m|e];
      rewrite Hcache; [|done].
    destruct sing; [|done]. by apply insert_subseteq.
Qed.

Lemma load_from_extracted_cache_grows t root sing args s :
  singleton_module_cache s ⊆
  singleton_module_cache (final (load_from_extracted t root sing args s)).
Proof.
  rewrite load_from_extracted_run. cbv zeta.
  pose proof (load_from_dir_cache_grows root sing args s) as H1.
  set (o1 := _load_from_dir (TPath root) sing args s) in *.
  destruct (result o1) as [m|e]; [done|].
  destruct (is_FileNotFoundError e); [|done].
  destruct (nested_dirs (fs (final o1)) root) as [|d [|d' ds]]; try done.
  cbn [final]. etrans; [exact H1|]. apply load_from_dir_cache_grows.
Qed.

Lemma load_cache_grows module_path load_singleton args s :
  singleton_module_cache s ⊆
  singleton_module_cache (final (load module_path load_singleton args s)).
Proof.
  rewrite load_run.
  destruct load_singleton as [| | |sing| |]; try done.
  destruct (load_target s module_path) as [t|]; [|done].
  destruct (zipfile_is_zipfile W (fs s) t).
  - rewrite load_from_zipfile_run. cbv zeta.
    destruct (zipfile_extractall W _ t _) as [f2|e]; [|done].
    cbn [final singleton_module_cache set_fs].
    exact (load_from_extracted_cache_grows t _ sing args (set_fs f2 s)).
  - rewrite except_raise_run. cbn [final].
    destruct t as [p|buf]; [apply load_from_dir_cache_grows|].
    by rewrite load_from_dir_buffer.
Qed.

(** ** Loads that are not singleton loads *)

Lemma after_configure_set_cache (c : gmap string ModuleBase) s :
  after_configure (set_cache c s) = set_cache c (after_configure s).
Proof.
  unfold after_configure. cbn [configured_load_backends set_cache].
  by destruct (configured_load_backends s).
Qed.

Lemma set_cache_same s : set_cache (singleton_module_cache s) s = s.
Proof. by destruct s. Qed.

Lemma load_from_dir_non_singleton_cache p args s (c : gmap string ModuleBase) :
  _load_from_dir (TPath p) false args (set_cache c s) =
  {| result := result (_load_from_dir (TPath p) false args s);
     final := set_cache c (final (_load_from_dir (TPath p) false args s));
     emitted := emitted (_load_from_dir (TPath p) false args s) |}.
Proof.
  destruct (os_path_exists W (fs s) p) eqn:Hex.
  2: { rewrite !load_from_dir_missing by done. done. }
  destruct (load_from_dir_existing p false args s Hex) as (Hr & Hf & He).
  destruct (load_from_dir_existing p false args (set_cache c s) Hex) as (Hr' & Hf' & He').
  destruct (load_from_dir_locked_miss p false args s eq_refl) as (Hle & Hlr & Hlf).
  destruct (load_from_dir_locked_miss p false args (set_cache c s) eq_refl)
    as (Hle' & Hlr' & Hlf').
  change (effective_backends (set_cache c s)) with (effective_backends s) in *.
  change (configure_events (set_cache c s)) with (configure_events s) in *.
  destruct (backend_loop_fs p args (effective_backends s) 0 None
              (after_configure (set_cache c s)) (after_configure s)) as [Hlr0 Hle0].
  { by rewrite !fs_after_configure. }
  rewrite Hlr0 in Hlr', Hlf'. rewrite Hle0 in Hle'.
  apply outcome_ext; cbn [result final emitted].
  - by rewrite Hr, Hr', Hlr, Hlr'.
  - rewrite Hf, Hf', Hlf, Hlf', after_configure_set_cache.
    by destruct (result (backend_loop p args 0 (effective_backends s) None
                           (after_configure s))) as [[[m|] q]|e].
  - by rewrite He, He', Hle, Hle'.
Qed.

Lemma load_from_extracted_non_singleton_cache t root args s
    (c : gmap string ModuleBase) :
  load_from_extracted t root false args (set_cache c s) =
  {| result := result (load_from_extracted t root false args s);
     final := set_cache c (final (load_from_extracted t root false args s));
     emitted := emitted (load_from_extracted t root false args s) |}.
Proof.
  rewrite !load_from_extracted_run. cbv zeta.
  rewrite load_from_dir_non_singleton_cache. cbn [result final emitted fs set_cache].
  set (o1 := _load_from_dir (TPath root) false args s).
  destruct (result o1) as [m|e] eqn:Hr1; [by rewrite <- Hr1|].
  destruct (is_FileNotFoundError e); [|by rewrite <- Hr1].
  destruct (nested_dirs (fs (final o1)) root) as [|d [|d' ds]]; try done.
  by rewrite load_from_dir_non_singleton_cache.
Qed.

Lemma load_from_zipfile_non_singleton_cache t args s (c : gmap string ModuleBase) :
  _load_from_zipfile t false args (set_cache c s) =
  {| result := result (_load_from_zipfile t false args s);
     final := set_cache c (final (_load_from_zipfile t false args s));
     emitted := emitted (_load_from_zipfile t false args s) |}.
Proof.
  rewrite !load_from_zipfile_run. cbv zeta. cbn [fs set_cache].
  destruct (zipfile_extractall W _ t _) as [f2|e]; [|done].
  change (set_fs f2 (set_cache c s)) with (set_cache c (set_fs f2 s)).
  rewrite load_from_extracted_non_singleton_cache. done.
Qed.

Lemma load_non_singleton_cache module_path args s (c : gmap string ModuleBase) :
  load module_path (VBool false) args (set_cache c s) =
  {| result := result (load module_path (VBool false) args s);
     final := set_cache c (final (load module_path (VBool false) args s));
     emitted := emitted (load module_path (VBool false) args s) |}.
Proof.
  rewrite !load_run.
  change (load_target (set_cache c s) module_path) with (load_target s module_path).
  cbn [fs set_cache].
  destruct (load_target s module_path) as [t|]; [|done].
  destruct (zipfile_is_zipfile W (fs s) t).
  - apply load_from_zipfile_non_singleton_cache.
  - rewrite !except_raise_run.
    destruct t as [p|buf]; [|by rewrite !load_from_dir_buffer].
    by rewrite load_from_dir_non_singleton_cache.
Qed.

Lemma load_non_singleton_keeps_cache module_path args s :
  singleton_module_cache (final (load module_path (VBool false) args s)) =
  singleton_module_cache s.
Proof.
  pose proof (load_non_singleton_cache module_path args s (singleton_module_cache s))
    as Hsame.
  rewrite set_cache_same in Hsame.
  apply (f_equal (fun o => singleton_module_cache (final o))) in Hsame.
  cbn [final singleton_module_cache set_cache] in Hsame. done.
Qed.

(** ** A singleton load that finds nothing cached *)

Lemma parse_count_lock_events sing evs :
  parse_count (lock_events sing evs) = parse_count evs.
Proof.
  destruct sing; [|done]. unfold lock_events.
  change (EvLockAcquire :: evs ++ [EvLockRelease])
    with ([EvLockAcquire] ++ evs ++ [EvLockRelease]).
  rewrite !parse_count_app. unfold parse_count at 1 3. simpl. lia.
Qed.

Lemma load_from_dir_miss p args s :
  singleton_module_cache s !! p = None ->
  let o1 := _load_from_dir (TPath p) true args s in
  let o0 := _load_from_dir (TPath p) false args s in
  result o1 = result o0 /\
  emitted o1 =
    (if os_path_exists W (fs s) p then lock_events true (emitted o0)
     else emitted o0) /\
  final o1 =
    match result o0 with
    | Ok m => set_cache (<[p := m]> (singleton_module_cache s)) (final o0)
    | Raise _ => final o0
    end.
Proof.
  intros Hmiss. cbv zeta.
  destruct (os_path_exists W (fs s) p) eqn:Hex.
  2: { rewrite !load_from_dir_missing by done. done. }
  destruct (load_from_dir_existing p false args s Hex) as (Hr & Hf & He).
  destruct (load_from_dir_existing p true args s Hex) as (Hr' & Hf' & He').
  destruct (load_from_dir_locked_miss p false args s eq_refl) as (Hle & Hlr & Hlf).
  destruct (load_from_dir_locked_miss p true args s Hmiss) as (Hle' & Hlr' & Hlf').
  rewrite Hr, Hr', Hf, Hf', He, He', Hlr, Hlr', Hlf, Hlf', Hle, Hle'.
  split; [done|]. split; [done|].
  destruct (result (backend_loop p args 0 (effective_backends s) None
                      (after_configure s))) as [[[m|] q]|e]; try done.
  by rewrite cache_after_configure.
Qed.

Lemma unlocked_free evs :
  Forall (fun e => is_lock_event e = false) evs -> unlocked evs = evs.
Proof.
  unfold unlocked. induction 1 as [|e evs He _ IH]; [done|]. simpl.
  by rewrite He, IH.
Qed.

Lemma unlocked_app evs1 evs2 : unlocked (evs1 ++ evs2) = unlocked evs1 ++ unlocked evs2.
Proof. unfold unlocked. apply List.filter_app. Qed.

Lemma unlocked_lock_events sing evs :
  unlocked (lock_events sing evs) = unlocked evs.
Proof.
  destruct sing; [|done]. unfold lock_events.
  change (EvLockAcquire :: evs ++ [EvLockRelease])
    with ([EvLockAcquire] ++ evs ++ [EvLockRelease]).
  rewrite !unlocked_app. unfold unlocked at 1 3. simpl. by rewrite app_nil_r.
Qed.

Lemma attempts_unlocked evs : attempts (unlocked evs) = attempts evs.
Proof.
  unfold unlocked. induction evs as [|e evs IH]; [done|].
  destruct e; simpl; rewrite ?IH; done.
Qed.

Lemma parse_count_unlocked evs : parse_count (unlocked evs) = parse_count evs.
Proof.
  unfold unlocked, parse_count. induction evs as [|e evs IH]; [done|].
  destruct e; simpl; rewrite ?IH; done.
Qed.

(** X4.  A load that is not a singleton load neither reads nor writes the
    singleton cache: with any other cache content it returns the same
    result and leaves the same trace, and the cache is afterwards what it
    was before, also when the same path is cached; nor does it take the
    lock. *)
Theorem non_singleton_load_ignores_cache module_path args s
    (c : gmap string ModuleBase) :
  let o := load module_path (VBool false) args s in
  let o' := load module_path (VBool false) args (set_cache c s) in
  result o' = result o /\
  emitted o' = emitted o /\
  final o' = set_cache c (final o) /\
  singleton_module_cache (final o) = singleton_module_cache s /\
  unlocked (emitted o) = emitted o.
Proof.
  cbv zeta. rewrite load_non_singleton_cache. cbn [result final emitted].
  split; [done|]. split; [done|]. split; [done|].
  split; [apply load_non_singleton_keeps_cache|].
  apply unlocked_free, non_singleton_load_takes_no_lock.
Qed.

(** A singleton load of a path that is not cached, against the load without
    the flag. *)
Lemma load_from_dir_miss_unlocked p args s :
  singleton_module_cache s !! p = None ->
  let o1 := _load_from_dir (TPath p) true args s in
  let o0 := _load_from_dir (TPath p) false args s in
  result o1 = result o0 /\
  unlocked (emitted o1) = emitted o0 /\
  final o1 =
    match result o0 with
    | Ok m => set_cache (<[p := m]> (singleton_module_cache s)) (final o0)
    | Raise _ => final o0
    end.
Proof.
  intros Hmiss. cbv zeta.
  destruct (load_from_dir_miss p args s Hmiss) as (Hr & He & Hf).
  split; [done|]. split; [|done]. rewrite He.
  pose proof (load_from_dir_lock p false args s) as Hfree.
  cbv zeta in Hfree. cbn [andb] in Hfree.
  destruct (os_path_exists W (fs s) p); rewrite ?unlocked_lock_events;
    by apply unlocked_free.
Qed.

(** X5.  When nothing is cached under its key, a singleton load of a string
    that is no archive does what the load without the flag does: the same
    result, the same events apart from taking and releasing the lock (so
    the same loader calls and the same parsing), and on success the one
    difference that the module is then cached under the key. *)
Theorem singleton_miss_loads_as_non_singleton given args s :
  let key := load_key s given in
  zipfile_is_zipfile W (fs s) (TPath key) = false ->
  singleton_module_cache s !! key = None ->
  let o1 := load (VStr given) (VBool true) args s in
  let o0 := load (VStr given) (VBool false) args s in
  result o1 = result o0 /\
  unlocked (emitted o1) = emitted o0 /\
  attempts (emitted o1) = attempts (emitted o0) /\
  parse_count (emitted o1) = parse_count (emitted o0) /\
  final o1 =
    match result o0 with
    | Ok m => set_cache (<[key := m]> (singleton_module_cache s)) (final o0)
    | Raise _ => final o0
    end.
Proof.
  cbv zeta. intros Hzip Hmiss.
  rewrite !load_str_run. cbv zeta. rewrite Hzip, !except_raise_run.
  cbn [result final emitted].
  destruct (load_from_dir_miss_unlocked (load_key s given) args s Hmiss)
    as (Hr & He & Hf).
  rewrite Hr, Hf. split; [done|]. split; [done|].
  split; [by rewrite <- He, attempts_unlocked|].
  split; [by rewrite <- He, parse_count_unlocked|].
  destruct (result (_load_from_dir (TPath (load_key s given)) false args s))
    as [m|e]; cbn [replaced]; [done|].
  by destruct (is_FileNotFoundError e).
Qed.

(** ** The lock, over any sequence of calls *)

Lemma lock_after_app held evs1 evs2 :
  lock_after held (evs1 ++ evs2) =
  match lock_after held evs1 with
  | Some held' => lock_after held' evs2
  | None => None
  end.
Proof.
  revert held. induction evs1 as [|e evs1 IH]; intros held; [done|].
  destruct e, held; simpl; auto.
Qed.

Lemma lock_after_free held evs :
  Forall (fun e => is_lock_event e = false) evs -> lock_after held evs = Some held.
Proof.
  induction 1 as [|e evs He _ IH]; [done|]. by destruct e.
Qed.

Lemma load_from_dir_lock_after p sing args s :
  lock_after false (emitted (_load_from_dir (TPath p) sing args s)) = Some false.
Proof.
  pose proof (load_from_dir_lock p sing args s) as H. cbv zeta in H.
  destruct (sing && os_path_exists W (fs s) p).
  - destruct H as (evs & -> & Hfree).
    change (EvLockAcquire :: evs ++ [EvLockRelease])
      with ([EvLockAcquire] ++ evs ++ [EvLockRelease]).
    rewrite lock_after_app. cbn [lock_after].
    by rewrite lock_after_app, (lock_after_free true evs Hfree).
  - by apply lock_after_free.
Qed.

Lemma load_from_extracted_lock_after t root sing args s :
  lock_after false (emitted (load_from_extracted t root sing args s)) = Some false.
Proof.
  rewrite load_from_extracted_run. cbv zeta.
  pose proof (load_from_dir_lock_after root sing args s) as H1.
  set (o1 := _load_from_dir (TPath root) sing args s) in *.
  destruct (result o1) as [m|e]; [done|].
  destruct (is_FileNotFoundError e); [|done].
  destruct (nested_dirs (fs (final o1)) root) as [|d [|d' ds]]; try done.
  cbn [emitted]. rewrite lock_after_app, H1. apply load_from_dir_lock_after.
Qed.

Lemma load_lock_after module_path load_singleton args s :
  lock_after false (emitted (load module_path load_singleton args s)) = Some false.
Proof.
  rewrite load_run.
  destruct load_singleton as [| | |sing| |]; try done.
  destruct (load_target s module_path) as [t|]; [|done].
  destruct (zipfile_is_zipfile W (fs s) t).
  - rewrite load_from_zipfile_run. cbv zeta.
    destruct (zipfile_extractall W _ t _) as [f2|e]; [|done].
    cbn [emitted]. rewrite lock_after_app. cbn [lock_after].
    by rewrite lock_after_app, load_from_extracted_lock_after.
  - rewrite except_raise_run. cbn [emitted].
    destruct t as [p|buf]; [apply load_from_dir_lock_after|].
    by rewrite load_from_dir_buffer.
Qed.

Lemma extract_run zip_path model_path force s :
  let dest := os_path_abspath W model_path in
  extract zip_path model_path force s =
  if negb force && os_path_exists W (fs s) dest then
    {| result := Ok dest; final := s; emitted := [] |}
  else
    match zipfile_extractall W (fs s) zip_path dest with
    | Ok f' =>
        {| result := Ok dest; final := set_fs f' s;
           emitted := [EvZipOpen zip_path; EvExtractAll dest] |}
    | Raise e =>
        {| result := Raise e; final := set_fs (zipfile_partial W (fs s) zip_path dest) s;
           emitted := [EvZipOpen zip_path] |}
    end.
Proof.
  cbv zeta. unfold extract. rewrite bind_gets.
  destruct (negb force && os_path_exists W (fs s) (os_path_abspath W model_path));
    [done|].
  rewrite bind_run, zip_extractall_run.
  by destruct (zipfile_extractall W (fs s) zip_path _).
Qed.

Lemma resolve_and_load_run reference load_singleton args s :
  resolve_and_load reference load_singleton args s =
  match reference with
  | RefModule m => {| result := Ok m; final := s; emitted := [] |}
  | RefValue (VStr name) =>
      if os_path_isdir W (fs s) name then
        load (VStr name) (default (VBool false) load_singleton) args s
      else {| result := Raise (could_not_find name); final := s; emitted := [] |}
  | RefValue _ =>
      {| result := Raise (TypeError "<COR50266694E>"); final := s; emitted := [] |}
  end.
Proof.
  destruct reference as [m|[name| | | | |]]; try reflexivity.
  unfold resolve_and_load. rewrite bind_gets.
  by destruct (os_path_isdir W (fs s) name).
Qed.

Lemma perform_lock_after c s :
  lock_after false (perform c s).2 = Some false.
Proof.
  destruct c as [mp ls args|z mpath force|r ls args|]; cbn [perform snd].
  - apply load_lock_after.
  - pose proof (extract_run z mpath force s) as H. cbv zeta in H. rewrite H.
    destruct (negb force && _); [done|].
    by destruct (zipfile_extractall W (fs s) z _).
  - rewrite resolve_and_load_run.
    destruct r as [m|[name| | | | |]]; try done.
    destruct (os_path_isdir W (fs s) name); [apply load_lock_after|done].
  - done.
Qed.

(** X19.  Over any sequence of calls to [load], [extract],
    [resolve_and_load] and [clear_singleton_cache], whatever their arguments
    and however each of them ends, the singleton lock is never acquired
    while it is held and never released while it is free, and it is free
    after the last call: every way out of a singleton load releases it. *)
Theorem calls_release_the_lock (cs : list call) s :
  lock_after false (run_calls cs s).2 = Some false.
Proof.
  revert s. induction cs as [|c rest IH]; intros s; [done|].
  cbn [run_calls]. pose proof (perform_lock_after c s) as Hc.
  destruct (perform c s) as [s1 evs1]. specialize (IH s1).
  destruct (run_calls rest s1) as [s2 evs2]. cbn [snd] in *.
  by rewrite lock_after_app, Hc.
Qed.

(** ** Archives *)

Lemma load_from_extracted_frame t root sing args s :
  let o := load_from_extracted t root sing args s in
  fs (final o) = fs s /\
  Forall (fun e => is_dispatch_event e = true) (emitted o).
Proof.
  cbv zeta. rewrite load_from_extracted_run. cbv zeta.
  pose proof (load_from_dir_frame root sing args s) as [Hfs1 _].
  pose proof (load_from_dir_events root sing args s) as Hev1.
  cbv zeta in Hfs1.
  set (o1 := _load_from_dir (TPath root) sing args s) in *.
  destruct (result o1) as [m|e]; [done|].
  destruct (is_FileNotFoundError e); [|done].
  destruct (nested_dirs (fs (final o1)) root) as [|d [|d' ds]]; try done.
  cbn [final emitted].
  pose proof (load_from_dir_frame d sing args (final o1)) as [Hfs2 _].
  cbv zeta in Hfs2. split; [by rewrite Hfs2|].
  apply Forall_app. split; [done|]. apply load_from_dir_events.
Qed.

(** X11.  A load from an archive makes one temporary directory, opens the
    archive once, and removes the directory as the last thing it does, on
    every way out: when the archive cannot be unpacked (then no loader is
    called and the error is the one of the zip library), when the load
    succeeds and when it fails.  What is left of the file system does not
    depend on the loaders: it is the file system with the directory made,
    the archive unpacked, as far as the extraction got, and the directory
    removed. *)
Theorem zip_load_removes_its_temp_dir t sing args s :
  let tmp := (tempfile_mkdtemp W (fs s)).1 in
  let f1 := (tempfile_mkdtemp W (fs s)).2 in
  let o := _load_from_zipfile t sing args s in
  (exists evs,
     emitted o = EvTempDir tmp :: EvZipOpen t :: evs ++ [EvCleanup tmp] /\
     Forall (fun e => e = EvExtractAll tmp \/ is_dispatch_event e = true) evs) /\
  fs (final o) =
    tempfile_cleanup W
      (match zipfile_extractall W f1 t tmp with
       | Ok f2 => f2
       | Raise _ => zipfile_partial W f1 t tmp
       end) tmp /\
  (forall e, zipfile_extractall W f1 t tmp = Raise e ->
     result o = Raise e /\ attempts (emitted o) = [] /\
     final o = set_fs (tempfile_cleanup W (zipfile_partial W f1 t tmp) tmp) s).
Proof.
  cbv zeta. rewrite load_from_zipfile_run. cbv zeta.
  destruct (zipfile_extractall W _ t _) as [f2|e] eqn:Hx.
  - destruct (load_from_extracted_frame t (tempfile_mkdtemp W (fs s)).1 sing args
                (set_fs f2 s)) as [Hfs Hev]. cbn [fs set_fs] in Hfs.
    cbn [result final emitted fs set_fs].
    split; [|split; [by rewrite Hfs|done]].
    exists (EvExtractAll (tempfile_mkdtemp W (fs s)).1 ::
            emitted (load_from_extracted t (tempfile_mkdtemp W (fs s)).1 sing args
                       (set_fs f2 s))).
    split; [reflexivity|].
    constructor; [by left|].
    eapply Forall_impl; [exact Hev|]. intros ev H. by right.
  - cbn [result final emitted fs set_fs].
    split; [by exists []|]. split; [done|]. by intros e' [= <-].
Qed.

(** X12.  When the archive unpacks and [_load_from_dir] on the extraction
    root returns a module, or fails with anything but a
    [FileNotFoundError], that is the outcome of the load from the archive:
    the directories under the root are never looked at, and every loader
    call and every parse is on the root. *)
Theorem archive_root_result_stands t sing args s f2 :
  let tmp := (tempfile_mkdtemp W (fs s)).1 in
  let f1 := (tempfile_mkdtemp W (fs s)).2 in
  zipfile_extractall W f1 t tmp = Ok f2 ->
  let o1 := _load_from_dir (TPath tmp) sing args (set_fs f2 s) in
  (forall e, result o1 = Raise e -> is_FileNotFoundError e = false) ->
  let o := _load_from_zipfile t sing args s in
  result o = result o1 /\
  emitted o =
    [EvTempDir tmp; EvZipOpen t; EvExtractAll tmp] ++ emitted o1 ++ [EvCleanup tmp] /\
  Forall (fun ev => forall q, probed_path ev = Some q -> q = tmp) (emitted o) /\
  singleton_module_cache (final o) = singleton_module_cache (final o1).
Proof.
  cbv zeta. intros Hx Hnot. rewrite load_from_zipfile_run. cbv zeta. rewrite Hx.
  rewrite load_from_extracted_run. cbv zeta.
  pose proof (load_from_dir_frame (tempfile_mkdtemp W (fs s)).1 sing args (set_fs f2 s))
    as [_ Hp1]. cbv zeta in Hp1.
  set (tmp := (tempfile_mkdtemp W (fs s)).1) in *.
  set (o1 := _load_from_dir (TPath tmp) sing args (set_fs f2 s)) in *.
  assert (Hsame :
    match result o1 with
    | Ok _ => o1
    | Raise e =>
        if is_FileNotFoundError e
        then
          match nested_dirs (fs (final o1)) tmp with
          | [d] =>
              {| result := replaced (top_two_levels_error W t)
                             (result (_load_from_dir (TPath d) sing args (final o1)));
                 final := final (_load_from_dir (TPath d) sing args (final o1));
                 emitted := emitted o1 ++
                            emitted (_load_from_dir (TPath d) sing args (final o1)) |}
          | _ => {| result := Raise nested_dirs_error; final := final o1;
                    emitted := emitted o1 |}
          end
        else o1
    end = o1).
  { destruct (result o1) as [m|e] eqn:Hr; [done|]. by rewrite (Hnot e eq_refl). }
  rewrite Hsame. cbn [result final emitted singleton_module_cache set_fs].
  split; [done|]. split; [done|]. split; [|done].
  apply Forall_app. split; [apply Forall_unprobed; by repeat constructor|].
  apply Forall_app. split; [done|]. apply Forall_unprobed; by repeat constructor.
Qed.

(** ** Singleton loads of archives *)

Lemma load_from_extracted_miss t root args s :
  singleton_module_cache s !! root = None ->
  (forall d, d ∈ nested_dirs (fs s) root -> singleton_module_cache s !! d = None) ->
  result (load_from_extracted t root true args s) =
    result (load_from_extracted t root false args s) /\
  unlocked (emitted (load_from_extracted t root true args s)) =
    emitted (load_from_extracted t root false args s).
Proof.
  intros Hroot Hnested. rewrite !load_from_extracted_run. cbv zeta.
  destruct (load_from_dir_miss_unlocked root args s Hroot) as (Hr & He & Hf).
  pose proof (load_from_dir_frame root false args s) as [Hfs0 _]. cbv zeta in Hfs0.
  pose proof (load_from_dir_cache root false args s) as Hc0. cbv zeta in Hc0.
  set (o1 := _load_from_dir (TPath root) true args s) in *.
  set (o0 := _load_from_dir (TPath root) false args s) in *.
  destruct (result o0) as [m|e] eqn:Hr0; rewrite Hr.
  { by rewrite Hr. }
  rewrite Hf. destruct (is_FileNotFoundError e); [|by rewrite Hr].
  destruct (nested_dirs (fs (final o0)) root) as [|d [|d' ds]] eqn:Hd;
    cbn [result emitted]; try done.
  assert (Hmiss : singleton_module_cache (final o0) !! d = None).
  { rewrite Hc0. apply Hnested. rewrite <- Hfs0, Hd. apply list_elem_of_here. }
  destruct (load_from_dir_miss_unlocked d args (final o0) Hmiss) as (Hr2 & He2 & _).
  by rewrite Hr2, unlocked_app, He, He2.
Qed.

Lemma load_from_zipfile_miss t args s :
  let tmp := (tempfile_mkdtemp W (fs s)).1 in
  let f1 := (tempfile_mkdtemp W (fs s)).2 in
  singleton_module_cache s !! tmp = None ->
  (forall f2 d, zipfile_extractall W f1 t tmp = Ok f2 -> d ∈ nested_dirs f2 tmp ->
     singleton_module_cache s !! d = None) ->
  result (_load_from_zipfile t true args s) = result (_load_from_zipfile t false args s) /\
  unlocked (emitted (_load_from_zipfile t true args s)) =
    emitted (_load_from_zipfile t false args s).
Proof.
  cbv zeta. intros Htmp Hnested. rewrite !load_from_zipfile_run. cbv zeta.
  destruct (zipfile_extractall W _ t _) as [f2|e] eqn:Hx; [|done].
  destruct (load_from_extracted_miss t (tempfile_mkdtemp W (fs s)).1 args (set_fs f2 s))
    as [Hr He]; [done|intros d Hd; exact (Hnested f2 d eq_refl Hd)|].
  cbn [result emitted]. split; [done|].
  rewrite !unlocked_app, He. done.
Qed.

(** X13.  Singleton loads of an archive are keyed by the temporary
    directory the archive is unpacked into.  So when the name that
    [tempfile] hands out is not a key of the cache, and neither is a
    directory under it, a singleton load of an archive is never served from
    the cache, whatever was loaded before: it returns what the load without
    the flag returns, after the same loader calls and the same parsing. *)
Theorem archive_singleton_load_is_not_memoised t args s :
  let tmp := (tempfile_mkdtemp W (fs s)).1 in
  let f1 := (tempfile_mkdtemp W (fs s)).2 in
  singleton_module_cache s !! tmp = None ->
  (forall f2 d, zipfile_extractall W f1 t tmp = Ok f2 -> d ∈ nested_dirs f2 tmp ->
     singleton_module_cache s !! d = None) ->
  let o1 := _load_from_zipfile t true args s in
  let o0 := _load_from_zipfile t false args s in
  result o1 = result o0 /\
  unlocked (emitted o1) = emitted o0 /\
  attempts (emitted o1) = attempts (emitted o0) /\
  parse_count (emitted o1) = parse_count (emitted o0).
Proof.
  cbv zeta. intros Htmp Hnested.
  destruct (load_from_zipfile_miss t args s Htmp Hnested) as [Hr He].
  split; [done|]. split; [done|].
  split; [by rewrite <- He, attempts_unlocked|by rewrite <- He, parse_count_unlocked].
Qed.

Lemma load_on_empty_cache module_path args s :
  singleton_module_cache s = ∅ ->
  result (load module_path (VBool true) args s) =
    result (load module_path (VBool false) args s) /\
  unlocked (emitted (load module_path (VBool true) args s)) =
    emitted (load module_path (VBool false) args s).
Proof.
  intros Hempty. rewrite !load_run.
  destruct (load_target s module_path) as [t|]; [|done].
  destruct (zipfile_is_zipfile W (fs s) t).
  - apply load_from_zipfile_miss; intros; rewrite Hempty; apply lookup_empty.
  - rewrite !except_raise_run. cbn [result emitted].
    destruct t as [p|buf]; [|by rewrite !load_from_dir_buffer].
    destruct (load_from_dir_miss_unlocked p args s) as (Hr & He & _).
    { rewrite Hempty. apply lookup_empty. }
    by rewrite Hr, He.
Qed.

(** ** A module config that cannot be read *)

Lemma backend_loop_parse_error p args b rest e pre : forall i s,
  Forall (fun b' => is_shared b' = true /\
                    shared_load W b' (fs s) p args = Ok LNone) pre ->
  is_shared b = false ->
  ModuleConfig_load W (fs s) p = Raise e ->
  let o := backend_loop p args i (pre ++ b :: rest) None s in
  result o = Raise e /\
  attempts (emitted o) = imap (fun k b' => (i + k, b', Ok LNone)) pre /\
  parse_count (emitted o) = 1.
Proof.
  induction pre as [|b0 pre IH]; intros i s Hpre Hsh Hmc; cbv zeta.
  - simpl app. rewrite backend_loop_cons. cbv zeta.
    unfold try_backend. rewrite Hsh.
    unfold try_module_backend, parse_module_config.
    rewrite bind_run, bind_gets, bind_emit. cbn [result final emitted].
    rewrite bind_lift, Hmc. cbn [result final emitted]. done.
  - apply Forall_cons in Hpre as [[Hsh0 Hload0] Hpre].
    change ((b0 :: pre) ++ b :: rest) with (b0 :: (pre ++ b :: rest)).
    rewrite backend_loop_cons, try_backend_shared by done.
    cbv zeta. rewrite Hload0. cbn [result emitted final].
    destruct (IH (S i) s Hpre Hsh Hmc) as (-> & Ha & Hc).
    split; [done|]. rewrite attempts_app, parse_count_app, Ha, Hc.
    split; [|done].
    change (attempts [EvSharedLoad i b0 p (Ok LNone)])
      with [(i, b0, Ok LNone : Result loaded)].
    cbn [imap app]. rewrite Nat.add_0_r. f_equal.
    apply imap_ext. intros k b' _. simpl. f_equal. f_equal. lia.
Qed.

(** X10.  When the shared backends at the head of the list all decline and
    the search comes to a per-module backend, an exception of
    [ModuleConfig.load] ends the load: no backend after it is tried, no
    second parse is attempted, and [_load_from_dir] raises that exception.
    Through [load] a [FileNotFoundError] among them (a directory without
    config.yml) surfaces as the error COR80419785E that names the missing
    [config.yml]; any other exception is passed on. *)
Theorem module_config_error_ends_search given sing args s pre b rest e :
  let p := load_key s given in
  zipfile_is_zipfile W (fs s) (TPath p) = false ->
  os_path_exists W (fs s) p = true ->
  (if sing then singleton_module_cache s !! p else None) = None ->
  effective_backends s = pre ++ b :: rest ->
  Forall (fun b' => is_shared b' = true /\
                    shared_load W b' (fs s) p args = Ok LNone) pre ->
  is_shared b = false ->
  ModuleConfig_load W (fs s) p = Raise e ->
  let o := _load_from_dir (TPath p) sing args s in
  result o = Raise e /\
  attempts (emitted o) = imap (fun k b' => (k, b', Ok LNone)) pre /\
  parse_count (emitted o) = 1 /\
  result (load (VStr given) (VBool sing) args s) =
    Raise (if is_FileNotFoundError e then no_config_yml W (TPath p) else e).
Proof.
  cbv zeta. intros Hzip Hex Hmiss Heff Hpre Hsh Hmc.
  assert (Hdir : result (_load_from_dir (TPath (load_key s given)) sing args s) = Raise e /\
                 attempts (emitted (_load_from_dir (TPath (load_key s given)) sing args s)) =
                   imap (fun k b' => (k, b', Ok LNone)) pre /\
                 parse_count (emitted (_load_from_dir (TPath (load_key s given))
                                         sing args s)) = 1).
  { destruct (load_from_dir_run (load_key s given) sing args s)
      as [Hex' Hrun|m' _ Hs Hc Hrun|_ Hc Hrun]; [congruence|subst sing; congruence|].
    cbv zeta in Hrun. destruct Hrun as (He & Hr & _).
    rewrite He, Hr, parse_count_dispatch_events, attempts_lock_events, attempts_app,
      attempts_configure_events, Heff.
    cbn [app].
    destruct (backend_loop_parse_error (load_key s given) args b rest e pre 0
                (after_configure s)) as (-> & -> & ->);
      rewrite ?fs_after_configure; done. }
  destruct Hdir as (Hr & Ha & Hc). split; [done|]. split; [done|]. split; [done|].
  rewrite load_str_run. cbv zeta. rewrite Hzip, except_raise_run. cbn [result].
  rewrite Hr. cbn [replaced]. by destruct (is_FileNotFoundError e).
Qed.

(** ** The same singleton load, twice *)

(** X6.  A singleton load of a string that is no archive, once it has
    returned a module, is served from the cache when it is repeated: the
    second call returns the same module and only takes and releases the
    lock; no loader is called, nothing is parsed or configured, and the
    state stays as the first call left it. *)
Theorem repeated_singleton_load_is_served_from_cache given args s m :
  zipfile_is_zipfile W (fs s) (TPath (load_key s given)) = false ->
  let o := load (VStr given) (VBool true) args s in
  result o = Ok m ->
  load (VStr given) (VBool true) args (final o) =
  {| result := Ok m; final := final o; emitted := [EvLockAcquire; EvLockRelease] |}.
Proof.
  cbv zeta. intros Hzip.
  rewrite (load_str_run given true args s). cbv zeta.
  rewrite Hzip, except_raise_run. cbn [result final].
  set (o1 := _load_from_dir (TPath (load_key s given)) true args s).
  intros Hr.
  assert (Hr1 : result o1 = Ok m).
  { destruct (result o1) as [m'|e]; cbn [replaced] in Hr; [done|].
    by destruct (is_FileNotFoundError e). }
  pose proof (load_from_dir_frame (load_key s given) true args s) as [Hfs _].
  cbv zeta in Hfs. fold o1 in Hfs.
  rewrite load_str_run. cbv zeta.
  assert (Hk : load_key (final o1) given = load_key s given)
    by (unfold load_key; by rewrite Hfs).
  rewrite Hk, Hfs, Hzip, except_raise_run. subst o1.
  rewrite (repeated_singleton_load (load_key s given) args s m Hr1). done.
Qed.

(** ** [extract] and the rest of the manager *)

(** X14.  [extract] only ever touches the file system: the singleton cache
    and the configured backends are as before, the lock is not taken and no
    loader runs.  When the archive cannot be opened or unpacked the
    exception of the zip library is passed on, and the file system is what
    the failed extraction left behind: nothing is rolled back, so the
    destination may exist and be partly filled, and then a second call
    without [force_overwrite] skips the extraction and returns the
    destination as if it held the model.  [force_overwrite] matters only
    for a destination that exists: for one that does not, both values of
    the flag do the same. *)
Theorem extract_touches_only_the_file_system zip_path model_path force s :
  let dest := os_path_abspath W model_path in
  let o := extract zip_path model_path force s in
  singleton_module_cache (final o) = singleton_module_cache s /\
  configured_load_backends (final o) = configured_load_backends s /\
  Forall (fun e => is_dispatch_event e = false) (emitted o) /\
  (forall e, result o = Raise e ->
     zipfile_extractall W (fs s) zip_path dest = Raise e /\
     final o = set_fs (zipfile_partial W (fs s) zip_path dest) s /\
     emitted o = [EvZipOpen zip_path] /\
     (os_path_exists W (zipfile_partial W (fs s) zip_path dest) dest = true ->
      extract zip_path model_path false (final o) =
        {| result := Ok dest; final := final o; emitted := [] |})) /\
  (os_path_exists W (fs s) dest = false ->
     extract zip_path model_path false s = extract zip_path model_path true s).
Proof.
  cbv zeta.
  pose proof (extract_run zip_path model_path) as Hrun. cbv zeta in Hrun.
  rewrite (Hrun force s).
  split; [|split; [|split; [|split]]].
  - destruct (negb force && _); [done|].
    by destruct (zipfile_extractall W (fs s) zip_path _).
  - destruct (negb force && _); [done|].
    by destruct (zipfile_extractall W (fs s) zip_path _).
  - destruct (negb force && _); [constructor|].
    destruct (zipfile_extractall W (fs s) zip_path _); by repeat constructor.
  - intros e. destruct (negb force && _); [done|].
    destruct (zipfile_extractall W (fs s) zip_path _) as [f'|e']; [done|].
    intros [= <-]. cbn [final]. split; [done|]. split; [done|]. split; [done|].
    intros Hex. rewrite Hrun. cbn [fs set_fs negb andb]. by rewrite Hex.
  - intros Hex. rewrite !Hrun, Hex. done.
Qed.

(** ** The arguments of [load] *)

(** X1.  [load] checks its arguments before it does anything: a
    [load_singleton] that is no [bool] gives the [TypeError] COR98255724E,
    whatever [module_path] is; with a [bool], a [module_path] that is
    neither [str] nor [bytes] nor [BytesIO] gives the [TypeError]
    COR98255419E.  In both cases the state is untouched and nothing has
    happened: no lock, no backend, no file-system call. *)
Theorem load_checks_its_arguments_first module_path load_singleton args s :
  let o := load module_path load_singleton args s in
  ((forall sing, load_singleton <> VBool sing) ->
     o = {| result := Raise (TypeError "<COR98255724E>"); final := s;
            emitted := [] |}) /\
  (forall sing, load_singleton = VBool sing ->
     load_target s module_path = None ->
     o = {| result := Raise (TypeError "<COR98255419E>"); final := s;
            emitted := [] |}).
Proof.
  cbv zeta. rewrite load_run. split.
  - intros Hno. destruct load_singleton as [| | |sing| |]; try done.
    by destruct (Hno sing).
  - intros sing -> Hnone. by rewrite Hnone.
Qed.

(** X2.  A [bytes] or [BytesIO] argument that is not a zip archive makes
    [load] fail with a [TypeError]: [_load_from_dir] hands the stream to
    [os.path.exists].  It is not a [FileNotFoundError], so [load] does not
    turn it into the error about a missing [config.yml]; the state is
    untouched and no loader is called. *)
Theorem load_of_bytes_that_are_no_archive (buf : bytes) module_path sing args s :
  module_path = VBytes buf \/ module_path = VBytesIO buf ->
  zipfile_is_zipfile W (fs s) (TBuffer buf) = false ->
  let o := load module_path (VBool sing) args s in
  (exists msg, result o = Raise (TypeError msg)) /\
  (forall mp, result o <> Raise (no_config_yml W mp)) /\
  final o = s /\ emitted o = [].
Proof.
  cbv zeta. intros Hmp Hzip. rewrite load_run.
  assert (Ht : load_target s module_path = Some (TBuffer buf))
    by (by destruct Hmp as [-> | ->]).
  rewrite Ht, Hzip, except_raise_run, load_from_dir_buffer.
  cbn [result final emitted replaced is_FileNotFoundError].
  split; [by eexists|]. split; [|done]. intros mp. discriminate.
Qed.

(** ** [resolve_and_load] *)

(** X15.  [resolve_and_load] has four outcomes.  A module reference is
    returned as it is; a value that is neither a module nor a [str] gives
    the [TypeError] COR50266694E; a string that [os.path.isdir] does not
    accept gives the [ValueError] COR50207495E, also when it names an
    archive or something under the configured [load_path] that [load]
    itself would take; in these three cases nothing else happens.  Only for
    a directory it is the call of [load] on the string, with the caller's
    [load_singleton] or [False].  It never drops a cached module, and
    without [load_singleton] it leaves the cache alone and does not take
    the lock. *)
Theorem resolve_and_load_loads_directories_only reference load_singleton args s :
  let o := resolve_and_load reference load_singleton args s in
  (forall m, reference = RefModule m ->
     o = {| result := Ok m; final := s; emitted := [] |}) /\
  (forall v, reference = RefValue v -> (forall name, v <> VStr name) ->
     o = {| result := Raise (TypeError "<COR50266694E>"); final := s;
            emitted := [] |}) /\
  (forall name, reference = RefValue (VStr name) ->
     os_path_isdir W (fs s) name = false ->
     o = {| result := Raise (could_not_find name); final := s; emitted := [] |}) /\
  (forall name, reference = RefValue (VStr name) ->
     os_path_isdir W (fs s) name = true ->
     o = load (VStr name) (default (VBool false) load_singleton) args s) /\
  singleton_module_cache s ⊆ singleton_module_cache (final o) /\
  (load_singleton = None ->
     singleton_module_cache (final o) = singleton_module_cache s /\
     unlocked (emitted o) = emitted o).
Proof.
  cbv zeta. rewrite resolve_and_load_run.
  split; [by intros m ->|]. split.
  { intros v -> Hno. destruct v as [name| | | | |]; try done. by destruct (Hno name). }
  split; [by intros name -> ->|]. split; [by intros name -> ->|].
  split.
  - destruct reference as [m|[name| | | | |]]; try done.
    destruct (os_path_isdir W (fs s) name); [apply load_cache_grows|done].
  - intros ->.
    destruct reference as [m|[name| | | | |]]; try done.
    destruct (os_path_isdir W (fs s) name); [|done].
    split; [apply load_non_singleton_keeps_cache|].
    apply unlocked_free, non_singleton_load_takes_no_lock.
Qed.

(** X16.  [resolve_and_load] only goes on with a string that is a
    directory, and a directory exists; so the configured [load_path] is
    never consulted on this way into [load]: the path that is loaded, and
    the key of a singleton load, is [os.path.normpath] of the string as
    given, and the outcome is the one of [_load_from_dir] on it, a
    [FileNotFoundError] becoming the error about the missing
    [config.yml]. *)
Theorem resolve_and_load_ignores_load_path name sing args s :
  os_path_isdir W (fs s) name = true ->
  os_path_exists W (fs s) name = true ->
  let key := os_path_normpath W name in
  zipfile_is_zipfile W (fs s) (TPath key) = false ->
  let o := resolve_and_load (RefValue (VStr name)) (Some (VBool sing)) args s in
  let o1 := _load_from_dir (TPath key) sing args s in
  load_key s name = key /\
  result o = replaced (no_config_yml W (TPath key)) (result o1) /\
  final o = final o1 /\ emitted o = emitted o1.
Proof.
  cbv zeta. intros Hdir Hex Hzip.
  assert (Hk : load_key s name = os_path_normpath W name).
  { unfold load_key. destruct (config_load_path W); by rewrite ?Hex. }
  rewrite resolve_and_load_run, Hdir.
  change (default (VBool false) (Some (VBool sing))) with (VBool sing).
  rewrite load_str_run. cbv zeta. rewrite Hk, Hzip, except_raise_run. done.
Qed.

(** ** The singleton cache over sequences of calls *)

Lemma perform_cache_grows c s :
  is_clear c = false ->
  singleton_module_cache s ⊆ singleton_module_cache (perform c s).1.
Proof.
  intros Hc. destruct c as [mp ls args|z mpath force|r ls args|]; [| | |done];
    cbn [perform fst].
  - apply load_cache_grows.
  - pose proof (extract_run z mpath force s) as H. cbv zeta in H. rewrite H.
    destruct (negb force && _); [done|].
    by destruct (zipfile_extractall W (fs s) z _).
  - rewrite resolve_and_load_run.
    destruct r as [m|[name| | | | |]]; try done.
    destruct (os_path_isdir W (fs s) name); [apply load_cache_grows|done].
Qed.

(** X20.  Only [clear_singleton_cache] takes modules out of the singleton
    cache: over any sequence of calls to [load], [extract] and
    [resolve_and_load], with any arguments and however the calls end, every
    key that was cached at the start is still cached at the end, with the
    same module. *)
Theorem only_clear_drops_cached_singletons (cs : list call) s :
  forallb (fun c => negb (is_clear c)) cs = true ->
  singleton_module_cache s ⊆ singleton_module_cache (run_calls cs s).1.
Proof.
  revert s. induction cs as [|c rest IH]; intros s Hcs; [done|].
  cbn [forallb] in Hcs. apply andb_true_iff in Hcs as [Hc Hrest].
  apply negb_true_iff in Hc.
  cbn [run_calls]. pose proof (perform_cache_grows c s Hc) as H1.
  destruct (perform c s) as [s1 evs1]. specialize (IH s1 Hrest).
  destruct (run_calls rest s1) as [s2 evs2]. cbn [fst] in *.
  by etrans.
Qed.

Lemma load_tagged module_path load_singleton args s :
  cache_tagged s -> cache_tagged (final (load module_path load_singleton args s)).
Proof.
  intros Htag. pose proof (load_stored module_path load_singleton args s) as H.
  unfold cache_kept_or_stored, cache_tagged in *.
  destruct (result (load module_path load_singleton args s)) as [m|e];
    [|by rewrite H].
  destruct H as [H|(key & j & b & m0 & Hk & _ & ->)]; [by rewrite H|].
  intros key' m' Hl. rewrite Hk in Hl.
  apply lookup_insert_Some in Hl as [[_ <-]|[_ Hl]]; [by exists b|by eapply Htag].
Qed.

Lemma perform_tagged c s : cache_tagged s -> cache_tagged (perform c s).1.
Proof.
  intros Htag. destruct c as [mp ls args|z mpath force|r ls args|];
    cbn [perform fst].
  - by apply load_tagged.
  - pose proof (extract_run z mpath force s) as H. cbv zeta in H. rewrite H.
    destruct (negb force && _); [done|].
    by destruct (zipfile_extractall W (fs s) z _).
  - rewrite resolve_and_load_run.
    destruct r as [m|[name| | | | |]]; try done.
    destruct (os_path_isdir W (fs s) name); [by apply load_tagged|done].
  - intros key m Hl. cbn in Hl. by rewrite lookup_empty in Hl.
Qed.

(** X21.  On a manager as [__init__] makes it, after any sequence of calls
    to [load], [extract], [resolve_and_load] and [clear_singleton_cache],
    every module in the singleton cache carries a load backend: a module is
    only stored after [set_load_backend], and a module that is passed to
    [resolve_and_load] is never stored. *)
Theorem cached_modules_carry_their_backend (cs : list call) s :
  cache_tagged (final (__init__ s)) /\
  cache_tagged (run_calls cs (final (__init__ s))).1.
Proof.
  assert (Hinit : cache_tagged (final (__init__ s))).
  { intros key m Hl. cbn in Hl. by rewrite lookup_empty in Hl. }
  split; [done|].
  revert Hinit. generalize (final (__init__ s)). clear s.
  induction cs as [|c rest IH]; intros s Htag; [done|].
  cbn [run_calls]. pose proof (perform_tagged c s Htag) as H1.
  destruct (perform c s) as [s1 evs1]. specialize (IH s1 H1).
  by destruct (run_calls rest s1) as [s2 evs2].
Qed.

(** X18.  [clear_singleton_cache] takes the lock, empties the cache and
    releases the lock; the manager is then as [__init__] made it, the cache
    snapshot is empty, and clearing again changes nothing.  After it every
    singleton load loads afresh: it returns what the same load without the
    flag would have returned before the clearing, after the same loader
    calls, whatever was cached. *)
Theorem clear_singleton_cache_starts_afresh {T} (type : ModuleBase -> T) s :
  let o := clear_singleton_cache s in
  o = {| result := Ok tt; final := set_cache ∅ s;
         emitted := [EvLockAcquire; EvLockRelease] |} /\
  final o = final (__init__ s) /\
  result (get_singleton_model_cache_info type (final o)) = Ok ∅ /\
  final (clear_singleton_cache (final o)) = final o /\
  (forall module_path args,
     let o1 := load module_path (VBool true) args (final o) in
     let o0 := load module_path (VBool false) args s in
     result o1 = result o0 /\
     unlocked (emitted o1) = emitted o0 /\
     attempts (emitted o1) = attempts (emitted o0)).
Proof.
  cbv zeta.
  assert (Hrun : clear_singleton_cache s =
                 {| result := Ok tt; final := set_cache ∅ s;
                    emitted := [EvLockAcquire; EvLockRelease] |}) by reflexivity.
  rewrite Hrun. cbn [final].
  split; [done|]. split; [done|]. split.
  { unfold get_singleton_model_cache_info. rewrite bind_gets.
    cbn [ret result singleton_module_cache set_cache]. by rewrite fmap_empty. }
  split; [done|].
  intros module_path args.
  destruct (load_on_empty_cache module_path args (set_cache ∅ s) eq_refl) as [Hr He].
  rewrite load_non_singleton_cache in Hr, He. cbn [result emitted] in Hr, He.
  split; [done|]. split; [done|]. by rewrite <- He, attempts_unlocked.
Qed.

(** X17.  [get_singleton_model_cache_info] lists the cached keys with the
    class of their modules and touches nothing.  What it reports follows
    the loads: a load never takes an entry out of it; a load without the
    singleton flag leaves it as it was; a singleton load of a string that is
    no archive which returns a module adds that module's class under the
    key of the load. *)
Theorem cache_info_follows_the_loads {T} (type : ModuleBase -> T)
    module_path load_singleton args s :
  let info := fun s' : State W => type <$> singleton_module_cache s' in
  let o := load module_path load_singleton args s in
  (forall s', get_singleton_model_cache_info type s' =
     {| result := Ok (info s'); final := s'; emitted := [] |}) /\
  info s ⊆ info (final o) /\
  (load_singleton = VBool false -> info (final o) = info s) /\
  (forall given m,
     module_path = VStr given -> load_singleton = VBool true ->
     zipfile_is_zipfile W (fs s) (TPath (load_key s given)) = false ->
     result o = Ok m ->
     info (final o) = <[load_key s given := type m]> (info s)).
Proof.
  cbv zeta. split; [|split; [|split]].
  - intros s'. unfold get_singleton_model_cache_info. by rewrite bind_gets.
  - apply map_fmap_mono, load_cache_grows.
  - intros ->. by rewrite load_non_singleton_keeps_cache.
  - intros given m -> -> Hzip. rewrite load_str_run. cbv zeta.
    rewrite Hzip, except_raise_run. cbn [result final].
    pose proof (load_from_dir_cache (load_key s given) true args s) as Hc.
    cbv zeta in Hc.
    destruct (result (_load_from_dir (TPath (load_key s given)) true args s))
      as [m'|e]; cbn [replaced].
    + intros [= ->]. by rewrite Hc, fmap_insert.
    + by destruct (is_FileNotFoundError e).
Qed.

(** ** The file system *)

(** X3.  [load] changes the file system only when it unpacks an archive.
    For a target that [zipfile.is_zipfile] does not accept, the file system
    is afterwards as before and the trace holds nothing but the lock,
    [configure()] and the loader calls and parses; and whenever the trace of
    a load shows no temporary directory, the file system is untouched. *)
Theorem load_changes_the_file_system_only_for_archives module_path load_singleton
    args s :
  let o := load module_path load_singleton args s in
  (forall sing t, load_singleton = VBool sing ->
     load_target s module_path = Some t ->
     zipfile_is_zipfile W (fs s) t = false ->
     fs (final o) = fs s /\
     Forall (fun e => is_dispatch_event e = true) (emitted o)) /\
  (Forall (fun e => is_dispatch_event e = true) (emitted o) ->
   fs (final o) = fs s).
Proof.
  cbv zeta.
  assert (Hdir : forall sing t,
            zipfile_is_zipfile W (fs s) t = false ->
            let o := except_FileNotFoundError (_load_from_dir t sing args)
                       (raise (no_config_yml W t)) s in
            fs (final o) = fs s /\
            Forall (fun e => is_dispatch_event e = true) (emitted o)).
  { intros sing t Hzip. cbv zeta. rewrite except_raise_run. cbn [final emitted].
    destruct t as [p|buf]; [|by rewrite load_from_dir_buffer].
    pose proof (load_from_dir_frame p sing args s) as [Hfs _].
    split; [exact Hfs|apply load_from_dir_events]. }
  rewrite load_run. split.
  - intros sing t -> -> Hzip. rewrite Hzip. by apply Hdir.
  - destruct load_singleton as [| | |sing| |]; try done.
    destruct (load_target s module_path) as [t|]; [|done].
    destruct (zipfile_is_zipfile W (fs s) t) eqn:Hzip.
    + rewrite load_from_zipfile_run. cbv zeta.
      destruct (zipfile_extractall W _ t _) as [f2|e]; cbn [emitted];
        intros Hall; apply Forall_cons in Hall as [Hbad _]; discriminate Hbad.
    + intros _. by apply Hdir.
Qed.

End Properties.

(** ** The POSIX path functions on sample inputs *)

Example normpath_samples :
  posixpath.normpath "models/foo/" = "models/foo" /\
  posixpath.normpath "models//./foo/../bar" = "models/bar" /\
  posixpath.normpath "//a/../.." = "//" /\
  posixpath.normpath "///a/b" = "/a/b" /\
  posixpath.normpath "../a/.." = ".." /\
  posixpath.normpath "" = "." /\
  posixpath.normpath "models/foo" <> posixpath.normpath "/srv/models/foo".
Proof. repeat split; try reflexivity. vm_compute. discriminate. Qed.

Example join_samples :
  posixpath.join "/tmp/x" "model" = "/tmp/x/model" /\
  posixpath.join "/tmp/x/" "model" = "/tmp/x/model" /\
  posixpath.join "/tmp/x" "/abs" = "/abs" /\
  posixpath.join "" "model" = "model" /\
  posixpath.abspath "/srv" "out/../out" = "/srv/out".
Proof. repeat split; reflexivity. Qed.

(** ** The theorems at work on the demo disk *)


(** C1 at the per-module backend of the same load: the search reaches it,
    and its loader runs because [LOCAL] is in the declared list. *)
Lemma load_from_dir_impl_called_iff_supported_witness :
  let W := demo.world demo.SampleModule in
  let s := demo.state demo.SampleModule ∅ [demo.tgis; demo.local] in
  let o := _load_from_dir (W:=W) (TPath "models/foo") false tt s in
  effective_backends s !! 1 = Some demo.local /\
  ModuleConfig_load W (fs s) "models/foo" = Ok demo.manifest /\
  module_implementations (parsed_of W demo.manifest) !! "LOCAL" =
    Some demo.SampleModule /\
  SUPPORTED_LOAD_BACKENDS demo.SampleModule = Some ["LOCAL"] /\
  os_path_exists W (fs s) "models/foo" = true /\
  (forall a, a ∈ attempts (emitted o) -> position a < 1 -> returned a = Ok LNone) /\
  (impl_called 1 demo.local demo.SampleModule "models/foo" (emitted o) <->
   model_creation_backend (parsed_of W demo.manifest) ∈ ["LOCAL"]) /\
  impl_called 1 demo.local demo.SampleModule "models/foo" (emitted o).
Proof.
  cbv zeta.
  set (W := demo.world demo.SampleModule).
  set (s := demo.state demo.SampleModule ∅ [demo.tgis; demo.local]).
  assert (H1 : effective_backends s !! 1 = Some demo.local) by reflexivity.
  assert (H2 : ModuleConfig_load W (fs s) "models/foo" = Ok demo.manifest)
    by (vm_compute; reflexivity).
  assert (H3 : module_implementations (parsed_of W demo.manifest) !! "LOCAL" =
               Some demo.SampleModule) by (vm_compute; reflexivity).
  assert (H4 : os_path_exists W (fs s) "models/foo" = true)
    by (vm_compute; reflexivity).
  assert (Htried : attempts (emitted (_load_from_dir (W:=W) (TPath "models/foo")
                                        false tt s)) =
            [(0, demo.tgis, Ok LNone);
             (1, demo.local, Ok (LModule {| instance := 7; load_backend := None |}))])
    by (vm_compute; reflexivity).
  assert (H5 : forall a,
            a ∈ attempts (emitted (_load_from_dir (W:=W) (TPath "models/foo")
                                     false tt s)) ->
            position a < 1 -> returned a = Ok LNone).
  { intros a Hin Hlt. rewrite Htried in Hin.
    apply elem_of_cons in Hin as [->|Hin]; [reflexivity|].
    apply elem_of_cons in Hin as [->|Hin]; [simpl in Hlt; lia|].
    by apply elem_of_nil in Hin. }
  destruct (proj2 (load_from_dir_impl_called_iff_supported (W:=W)
                     "models/foo" false tt s)
              1 demo.local demo.manifest demo.SampleModule ["LOCAL"]
              H1 eq_refl H2 H3 eq_refl H4 eq_refl H5) as (_ & Hiff & _).
  split; [exact H1|]. split; [exact H2|]. split; [exact H3|].
  split; [reflexivity|]. split; [exact H4|]. split; [exact H5|].
  split; [exact Hiff|].
  apply Hiff. apply list_elem_of_here.
Defined.

(** C4 on a cached, existing path. *)
Lemma singleton_load_uses_cache_witness :
  let W := demo.world demo.SampleModule in
  let s := demo.state demo.SampleModule {[ "models/foo" := demo.cached ]}
             [demo.tgis; demo.local] in
  os_path_exists W (fs s) "models/foo" = true /\
  singleton_module_cache s !! "models/foo" = Some demo.cached /\
  _load_from_dir (W:=W) (TPath "models/foo") true tt s =
    {| result := Ok demo.cached; final := s;
       emitted := [EvLockAcquire; EvLockRelease] |}.
Proof.
  cbv zeta.
  assert (H1 : os_path_exists (demo.world demo.SampleModule)
                 (fs (demo.state demo.SampleModule
                        {[ "models/foo" := demo.cached ]} [demo.tgis; demo.local]))
                 "models/foo" = true) by (vm_compute; reflexivity).
  assert (H2 : singleton_module_cache
                 (demo.state demo.SampleModule
                    {[ "models/foo" := demo.cached ]} [demo.tgis; demo.local])
                 !! "models/foo" = Some demo.cached) by (vm_compute; reflexivity).
  split; [exact H1|]. split; [exact H2|].
  exact (proj1 (singleton_load_uses_cache (W:=demo.world demo.SampleModule)
                  "models/foo" tt _ H1) demo.cached H2).
Defined.

(** C5 on [m.zip]: no config at the root, one directory next to
    [__MACOSX], the module is loaded from it. *)
Lemma load_from_zipfile_nested_fallback_witness :
  let W := demo.world demo.SampleModule in
  let s := demo.state demo.SampleModule ∅ [demo.tgis; demo.local] in
  let e := FileNotFoundError (Some ENOENT) strerror_ENOENT
             (Some "/tmp/tmp/config.yml") in
  zipfile_extractall W (tempfile_mkdtemp W (fs s)).2 (TPath "m.zip")
    (tempfile_mkdtemp W (fs s)).1 = Ok unpacked.the_disk /\
  result (_load_from_dir (W:=W) (TPath unpacked.tmp) true tt
            (set_fs (W:=W) unpacked.the_disk s)) = Raise e /\
  is_FileNotFoundError e = true /\
  nested_dirs (W:=W) unpacked.the_disk unpacked.tmp = ["/tmp/tmp/model"] /\
  result (_load_from_zipfile (W:=W) (TPath "m.zip") true tt s) =
    Ok {| instance := 7; load_backend := Some demo.local |}.
Proof.
  cbv zeta.
  set (W := demo.world demo.SampleModule).
  set (s := demo.state demo.SampleModule ∅ [demo.tgis; demo.local]).
  assert (H1 : zipfile_extractall W (tempfile_mkdtemp W (fs s)).2 (TPath "m.zip")
                 (tempfile_mkdtemp W (fs s)).1 = Ok unpacked.the_disk)
    by (vm_compute; reflexivity).
  assert (H2 : result (_load_from_dir (W:=W) (TPath (tempfile_mkdtemp W (fs s)).1)
                         true tt (set_fs (W:=W) unpacked.the_disk s)) =
               Raise (FileNotFoundError (Some ENOENT) strerror_ENOENT
                        (Some "/tmp/tmp/config.yml")))
    by (vm_compute; reflexivity).
  assert (H3 : nested_dirs (W:=W) unpacked.the_disk (tempfile_mkdtemp W (fs s)).1 =
               ["/tmp/tmp/model"]) by (vm_compute; reflexivity).
  destruct (load_from_zipfile_nested_fallback (W:=W) (TPath "m.zip") true tt s
              unpacked.the_disk _ H1 H2 eq_refl)
    as (_ & _ & Hone & _).
  split; [exact H1|]. split; [exact H2|]. split; [reflexivity|].
  split; [exact H3|].
  apply (proj1 (Hone "/tmp/tmp/model" H3)).
  vm_compute; reflexivity.
Defined.

(** C6 on [blobs], which has weights and no config.yml: the shared backend
    loads it and nothing is parsed; and on [models/foo] with two per-module
    backends, where the config is parsed once. *)
Lemma load_from_dir_parses_at_most_once_witness :
  let W := demo.world demo.SampleModule in
  let s := demo.state demo.SampleModule ∅ [demo.tgis; demo.local] in
  let o := _load_from_dir (W:=W) (TPath "blobs") false tt s in
  let s' := demo.state demo.SampleModule ∅ [demo.other; demo.local] in
  let o' := _load_from_dir (W:=W) (TPath "models/foo") false tt s' in
  is_FileNotFoundError
    (match ModuleConfig_load W (fs s) "blobs" with
     | Raise e => e
     | Ok _ => OtherError "parsed"
     end) = true /\
  effective_backends s = [] ++ demo.tgis :: [demo.local] /\
  shared_load W demo.tgis (fs s) "blobs" tt =
    Ok (LModule {| instance := 3; load_backend := None |}) /\
  os_path_exists W (fs s) "blobs" = true /\
  result o = Ok {| instance := 3; load_backend := Some demo.tgis |} /\
  parse_count (emitted o) = 0 /\
  emitted o' =
    [EvModuleConfigLoad "models/foo";
     EvImplLoad 1 demo.local demo.SampleModule "models/foo"
       (Ok (LModule {| instance := 7; load_backend := None |}))] /\
  parse_count (emitted o') <= 1.
Proof.
  cbv zeta.
  set (W := demo.world demo.SampleModule).
  set (s := demo.state demo.SampleModule ∅ [demo.tgis; demo.local]).
  assert (H1 : effective_backends s = [] ++ demo.tgis :: [demo.local])
    by reflexivity.
  assert (H2 : shared_load W demo.tgis (fs s) "blobs" tt =
               Ok (LModule {| instance := 3; load_backend := None |}))
    by (vm_compute; reflexivity).
  assert (H3 : os_path_exists W (fs s) "blobs" = true) by (vm_compute; reflexivity).
  split; [vm_compute; reflexivity|].
  split; [exact H1|]. split; [exact H2|]. split; [exact H3|].
  destruct (proj2 (proj2 (load_from_dir_parses_at_most_once (W:=W) "blobs" false tt s))
              [] demo.tgis [demo.local] _ H1 (Forall_nil_2 _) eq_refl H2 H3 eq_refl)
    as [Hres Hcount].
  split; [exact Hres|]. split; [exact Hcount|].
  split; [vm_compute; reflexivity|].
  exact (proj1 (load_from_dir_parses_at_most_once (W:=W) "models/foo" false tt
                  (demo.state demo.SampleModule ∅ [demo.other; demo.local]))).
Defined.


(** C8 on a path that is not on the disk. *)
Lemma load_of_missing_path_witness :
  let W := demo.world demo.SampleModule in
  let s := demo.state demo.SampleModule ∅ [demo.tgis; demo.local] in
  load_key s "nothere" = "nothere" /\
  zipfile_is_zipfile W (fs s) (TPath (load_key s "nothere")) = false /\
  os_path_exists W (fs s) (load_key s "nothere") = false /\
  load (W:=W) (VStr "nothere") (VBool true) tt s =
    {| result := Raise (no_config_yml W (TPath (load_key s "nothere")));
       final := s; emitted := [] |}.
Proof.
  cbv zeta.
  set (W := demo.world demo.SampleModule).
  set (s := demo.state demo.SampleModule ∅ [demo.tgis; demo.local]).
  assert (H2 : zipfile_is_zipfile W (fs s) (TPath (load_key s "nothere")) = false)
    by (vm_compute; reflexivity).
  assert (H3 : os_path_exists W (fs s) (load_key s "nothere") = false)
    by (vm_compute; reflexivity).
  split; [vm_compute; reflexivity|]. split; [exact H2|]. split; [exact H3|].
  exact (proj2 (proj1 (load_of_missing_path (W:=W) "nothere" true tt s H2) H3)).
Defined.

(** C9 on the existing destination [/srv/out], given as [out]. *)
Lemma extract_is_idempotent_unless_forced_witness :
  let W := demo.world demo.SampleModule in
  let s := demo.state demo.SampleModule ∅ [] in
  os_path_abspath W "out" = "/srv/out" /\
  os_path_exists W (fs s) (os_path_abspath W "out") = true /\
  extract (W:=W) (TPath "m.zip") "out" false s =
    {| result := Ok (os_path_abspath W "out"); final := s; emitted := [] |} /\
  emitted (extract (W:=W) (TPath "m.zip") "out" true s) =
    [EvZipOpen (TPath "m.zip"); EvExtractAll "/srv/out"].
Proof.
  cbv zeta.
  set (W := demo.world demo.SampleModule).
  set (s := demo.state demo.SampleModule ∅ []).
  assert (H1 : os_path_exists W (fs s) (os_path_abspath W "out") = true)
    by (vm_compute; reflexivity).
  split; [vm_compute; reflexivity|]. split; [exact H1|].
  split; [|vm_compute; reflexivity].
  exact (proj1 (proj2 (extract_is_idempotent_unless_forced (W:=W)
                         (TPath "m.zip") "out" s)) H1).
Defined.

(** C10 on [empty], a directory without a config.yml, with an entry
    already in the cache. *)
Lemma failed_load_keeps_singleton_cache_witness :
  let W := demo.world demo.SampleModule in
  let s := demo.state demo.SampleModule {[ "models/foo" := demo.cached ]}
             [demo.local] in
  let o := load (W:=W) (VStr "empty") (VBool true) tt s in
  result o = Raise (no_config_yml W (TPath "empty")) /\
  singleton_module_cache (final o) = singleton_module_cache s.
Proof.
  cbv zeta.
  set (W := demo.world demo.SampleModule).
  set (s := demo.state demo.SampleModule {[ "models/foo" := demo.cached ]}
              [demo.local]).
  assert (H1 : result (load (W:=W) (VStr "empty") (VBool true) tt s) =
               Raise (no_config_yml W (TPath "empty")))
    by (vm_compute; reflexivity).
  split; [exact H1|].
  exact (proj1 (failed_load_keeps_singleton_cache (W:=W) (VStr "empty") (VBool true)
                  tt s) _ H1).
Defined.

(** ** Where the code departs from the specification's wording *)

(** C1 as worded fails.  [models/foo] was created with [LOCAL], the only
    configured backend is the per-module backend [LOCAL], and the class
    registered for it declares the empty supported-load-backends list.
    Read as the specification words it, the empty declaration allows the
    implementation's own kind, [LOCAL]; the code finds [LOCAL] in no list,
    never calls the loader, and the load fails for want of a backend. *)
Lemma impl_with_empty_list_is_never_called :
  let W := demo.world demo.EmptyListModule in
  let s := demo.state demo.EmptyListModule ∅ [demo.local] in
  let o := _load_from_dir (W:=W) (TPath "models/foo") false tt s in
  effective_backends s !! 0 = Some demo.local /\
  module_implementations (parsed_of W demo.manifest) !! backend_type demo.local =
    Some demo.EmptyListModule /\
  SUPPORTED_LOAD_BACKENDS demo.EmptyListModule = Some [] /\
  model_creation_backend (parsed_of W demo.manifest)
    ∈ spec_supported_load_backends (backend_type demo.local) demo.EmptyListModule /\
  ~ impl_called 0 demo.local demo.EmptyListModule "models/foo" (emitted o) /\
  emitted o = [EvModuleConfigLoad "models/foo"] /\
  result o = Raise (unable_to_load "models/foo" (Some "mod")).
Proof.
  cbv zeta.
  assert (He : emitted (_load_from_dir (W:=demo.world demo.EmptyListModule)
                          (TPath "models/foo") false tt
                          (demo.state demo.EmptyListModule ∅ [demo.local])) =
               [EvModuleConfigLoad "models/foo"]) by (vm_compute; reflexivity).
  split; [reflexivity|]. split; [vm_compute; reflexivity|].
  split; [reflexivity|]. split; [apply list_elem_of_here|].
  split; [|split; [exact He|vm_compute; reflexivity]].
  intros [r Hin]. rewrite He in Hin.
  apply elem_of_cons in Hin as [Hin|Hin]; [discriminate|].
  by apply elem_of_nil in Hin.
Qed.

(** C4 as worded fails.  The key [gone] is in the singleton cache and the
    path is no longer on the disk: the load does not return the cached
    module, it fails on the existence check that precedes the cache. *)
Lemma cached_key_of_missing_path_is_not_returned :
  let W := demo.world demo.SampleModule in
  let s := demo.state demo.SampleModule {[ "gone" := demo.cached ]}
             [demo.tgis; demo.local] in
  singleton_module_cache s !! "gone" = Some demo.cached /\
  load_key s "gone" = "gone" /\
  result (_load_from_dir (W:=W) (TPath "gone") true tt s) =
    Raise (path_does_not_exist "gone") /\
  result (load (W:=W) (VStr "gone") (VBool true) tt s) =
    Raise (no_config_yml W (TPath "gone")) /\
  result (load (W:=W) (VStr "gone") (VBool true) tt s) <> Ok demo.cached.
Proof.
  cbv zeta. split; [vm_compute; reflexivity|]. split; [vm_compute; reflexivity|].
  split; [vm_compute; reflexivity|]. split; [vm_compute; reflexivity|].
  vm_compute. discriminate.
Qed.


(** C8 as worded fails.  The path [nothere] does not exist and [empty]
    exists without a config.yml: [load] fails on both with the same
    missing-[config.yml] error; the [ENOENT] error of [_load_from_dir] does
    not reach the caller. *)
Lemma missing_path_surfaces_as_missing_config :
  let W := demo.world demo.SampleModule in
  let s := demo.state demo.SampleModule ∅ [demo.local] in
  os_path_exists W (fs s) "nothere" = false /\
  os_path_exists W (fs s) "empty" = true /\
  zipfile_is_zipfile W (fs s) (TPath "nothere") = false /\
  result (load (W:=W) (VStr "nothere") (VBool false) tt s) =
    Raise (no_config_yml W (TPath "nothere")) /\
  result (load (W:=W) (VStr "empty") (VBool false) tt s) =
    Raise (no_config_yml W (TPath "empty")) /\
  result (load (W:=W) (VStr "nothere") (VBool false) tt s) <>
    Raise (path_does_not_exist "nothere").
Proof.
  cbv zeta. split; [vm_compute; reflexivity|]. split; [vm_compute; reflexivity|].
  split; [vm_compute; reflexivity|]. split; [vm_compute; reflexivity|].
  split; [vm_compute; reflexivity|]. vm_compute. discriminate.
Qed.

(** ** The further theorems at work *)

(** X8 in a world whose shared loader fails on [blobs]: its exception is
    the result, and the per-module backend behind it is never asked. *)
Lemma loader_failure_ends_search_witness :
  let s := Build_State variants.faulty_world demo.the_disk ∅ [demo.tgis; demo.local] in
  let o := _load_from_dir (W:=variants.faulty_world) (TPath "blobs") true tt s in
  attempts (emitted o) = [(0, demo.tgis, Raise (OtherError "RuntimeError"))] /\
  loader_verdict demo.tgis (Raise (OtherError "RuntimeError")) =
    Raise (OtherError "RuntimeError") /\
  result o = Raise (OtherError "RuntimeError") /\
  singleton_module_cache (final o) = ∅.
Proof.
  cbv zeta.
  set (s := Build_State variants.faulty_world demo.the_disk ∅ [demo.tgis; demo.local]).
  assert (Htried : attempts (emitted (_load_from_dir (W:=variants.faulty_world)
                     (TPath "blobs") true tt s)) =
                   [(0, demo.tgis, Raise (OtherError "RuntimeError"))])
    by (vm_compute; reflexivity).
  assert (Hin : (0, demo.tgis, Raise (OtherError "RuntimeError")) ∈
                attempts (emitted (_load_from_dir (W:=variants.faulty_world)
                  (TPath "blobs") true tt s)))
    by (rewrite Htried; apply list_elem_of_here).
  destruct (loader_failure_ends_search (W:=variants.faulty_world) "blobs" true tt s
              0 demo.tgis (Raise (OtherError "RuntimeError"))
              (OtherError "RuntimeError") Hin eq_refl)
    as (_ & Hres & _ & _ & Hcache & _).
  split; [exact Htried|]. split; [reflexivity|]. split; [exact Hres|exact Hcache].
Defined.

(** X9 on [models/foo] with the backends [tgis; other]: the shared loader
    declines, the module has no implementation for [OTHER]. *)
Lemma load_fails_when_every_backend_declines_witness :
  let W := demo.world demo.SampleModule in
  let s := demo.state demo.SampleModule ∅ [demo.tgis; demo.other] in
  let o := _load_from_dir (W:=W) (TPath "models/foo") false tt s in
  os_path_exists W (fs s) "models/foo" = true /\
  ModuleConfig_load W (fs s) "models/foo" = Ok demo.manifest /\
  result o = Raise (unable_to_load "models/foo" (Some "mod")) /\
  parse_count (emitted o) = 1.
Proof.
  cbv zeta.
  set (W := demo.world demo.SampleModule).
  set (s := demo.state demo.SampleModule ∅ [demo.tgis; demo.other]).
  assert (Hex : os_path_exists W (fs s) "models/foo" = true) by (vm_compute; reflexivity).
  assert (Hmc : ModuleConfig_load W (fs s) "models/foo" = Ok demo.manifest)
    by (vm_compute; reflexivity).
  assert (Hsome : Exists (fun b => is_shared b = false) (effective_backends s)).
  { apply Exists_cons_tl, Exists_cons_hd. reflexivity. }
  assert (Hall : Forall (declines (fs s) "models/foo" tt (parsed_of W demo.manifest))
                   (effective_backends s)).
  { repeat constructor; vm_compute; auto. }
  destruct (load_fails_when_every_backend_declines (W:=W) "models/foo" false tt s
              Hex eq_refl) as [_ Hper].
  destruct (Hper demo.manifest Hmc Hsome Hall) as [Hres Hcount].
  split; [exact Hex|]. split; [exact Hmc|]. split; [exact Hres|exact Hcount].
Defined.

(** X20 over a singleton load, an extraction and a [resolve_and_load]: the
    module cached under [blobs] is still there. *)
Lemma only_clear_drops_cached_singletons_witness :
  let W := demo.world demo.SampleModule in
  let s := demo.state demo.SampleModule {[ "blobs" := demo.cached ]}
             [demo.tgis; demo.local] in
  let cs :=
    [CallLoad (W:=W) (VStr "models/foo") (VBool true) tt;
     CallExtract (W:=W) (TPath "m.zip") "out" true;
     CallResolveAndLoad (W:=W) (RefValue (VStr "nowhere")) (Some (VBool true)) tt] in
  forallb (fun c => negb (is_clear c)) cs = true /\
  singleton_module_cache (run_calls cs s).1 !! "blobs" = Some demo.cached.
Proof.
  cbv zeta.
  set (W := demo.world demo.SampleModule).
  set (s := demo.state demo.SampleModule {[ "blobs" := demo.cached ]}
              [demo.tgis; demo.local]).
  set (cs := [CallLoad (W:=W) (VStr "models/foo") (VBool true) tt;
              CallExtract (W:=W) (TPath "m.zip") "out" true;
              CallResolveAndLoad (W:=W) (RefValue (VStr "nowhere"))
                (Some (VBool true)) tt]).
  assert (Hcs : forallb (fun c => negb (is_clear c)) cs = true) by reflexivity.
  split; [exact Hcs|].
  eapply lookup_weaken; [|exact (only_clear_drops_cached_singletons (W:=W) cs s Hcs)].
  vm_compute. reflexivity.
Defined.

(** X5 on [models/foo] with an empty cache. *)
Lemma singleton_miss_loads_as_non_singleton_witness :
  let W := demo.world demo.SampleModule in
  let s := demo.state demo.SampleModule ∅ [demo.tgis; demo.local] in
  let o1 := load (W:=W) (VStr "models/foo") (VBool true) tt s in
  let o0 := load (W:=W) (VStr "models/foo") (VBool false) tt s in
  zipfile_is_zipfile W (fs s) (TPath (load_key s "models/foo")) = false /\
  singleton_module_cache s !! load_key s "models/foo" = None /\
  result o1 = result o0 /\
  attempts (emitted o1) = attempts (emitted o0).
Proof.
  cbv zeta.
  set (W := demo.world demo.SampleModule).
  set (s := demo.state demo.SampleModule ∅ [demo.tgis; demo.local]).
  assert (Hzip : zipfile_is_zipfile W (fs s) (TPath (load_key s "models/foo")) = false)
    by (vm_compute; reflexivity).
  assert (Hmiss : singleton_module_cache s !! load_key s "models/foo" = None)
    by (vm_compute; reflexivity).
  destruct (singleton_miss_loads_as_non_singleton (W:=W) "models/foo" tt s Hzip Hmiss)
    as (Hr & _ & Ha & _).
  split; [exact Hzip|]. split; [exact Hmiss|]. split; [exact Hr|exact Ha].
Defined.

(** X12 on [m.zip] with the shared backend alone: the loader declines on
    the extraction root, the load fails with the [ValueError], and the
    directory [model] under the root is not tried. *)
Lemma archive_root_result_stands_witness :
  let W := demo.world demo.SampleModule in
  let s := demo.state demo.SampleModule ∅ [demo.tgis] in
  let o := _load_from_zipfile (W:=W) (TPath "m.zip") false tt s in
  zipfile_extractall W (tempfile_mkdtemp W (fs s)).2 (TPath "m.zip")
    (tempfile_mkdtemp W (fs s)).1 = Ok unpacked.the_disk /\
  result o = Raise (unable_to_load unpacked.tmp None) /\
  Forall (fun ev => forall q, probed_path ev = Some q -> q = unpacked.tmp) (emitted o).
Proof.
  cbv zeta.
  set (W := demo.world demo.SampleModule).
  set (s := demo.state demo.SampleModule ∅ [demo.tgis]).
  assert (Hx : zipfile_extractall W (tempfile_mkdtemp W (fs s)).2 (TPath "m.zip")
                 (tempfile_mkdtemp W (fs s)).1 = Ok unpacked.the_disk)
    by (vm_compute; reflexivity).
  assert (Hr1 : result (_load_from_dir (W:=W) (TPath (tempfile_mkdtemp W (fs s)).1)
                          false tt (set_fs (W:=W) unpacked.the_disk s)) =
                Raise (unable_to_load unpacked.tmp None))
    by (vm_compute; reflexivity).
  assert (Hnot : forall e,
            result (_load_from_dir (W:=W) (TPath (tempfile_mkdtemp W (fs s)).1)
                      false tt (set_fs (W:=W) unpacked.the_disk s)) = Raise e ->
            is_FileNotFoundError e = false).
  { intros e He. rewrite Hr1 in He. injection He as <-. reflexivity. }
  destruct (archive_root_result_stands (W:=W) (TPath "m.zip") false tt s
              unpacked.the_disk Hx Hnot) as (Hres & _ & Hprobed & _).
  split; [exact Hx|]. split; [rewrite Hres; exact Hr1|exact Hprobed].
Defined.

(** X13 on [m.zip], loaded as a singleton a second time: the first load
    cached the module under the first temporary directory, the second one
    unpacks into the next and loads again. *)
Lemma archive_singleton_load_is_not_memoised_witness :
  let W := demo.world demo.SampleModule in
  let s0 := demo.state demo.SampleModule ∅ [demo.tgis; demo.local] in
  let s := final (load (W:=W) (VStr "m.zip") (VBool true) tt s0) in
  let o1 := _load_from_zipfile (W:=W) (TPath "m.zip") true tt s in
  let o0 := _load_from_zipfile (W:=W) (TPath "m.zip") false tt s in
  singleton_module_cache s !! "/tmp/tmp/model" =
    Some {| instance := 7; load_backend := Some demo.local |} /\
  singleton_module_cache s !! (tempfile_mkdtemp W (fs s)).1 = None /\
  result o1 = result o0 /\
  attempts (emitted o1) =
    [(0, demo.tgis, Ok LNone); (0, demo.tgis, Ok LNone);
     (1, demo.local, Ok (LModule {| instance := 7; load_backend := None |}))].
Proof.
  cbv zeta.
  set (W := demo.world demo.SampleModule).
  set (s := final (load (W:=W) (VStr "m.zip") (VBool true) tt
                     (demo.state demo.SampleModule ∅ [demo.tgis; demo.local]))).
  assert (Hfirst : singleton_module_cache s !! "/tmp/tmp/model" =
                   Some {| instance := 7; load_backend := Some demo.local |})
    by (vm_compute; reflexivity).
  assert (Htmp : singleton_module_cache s !! (tempfile_mkdtemp W (fs s)).1 = None)
    by (vm_compute; reflexivity).
  assert (Hnested : forall f2 d,
            zipfile_extractall W (tempfile_mkdtemp W (fs s)).2 (TPath "m.zip")
              (tempfile_mkdtemp W (fs s)).1 = Ok f2 ->
            d ∈ nested_dirs f2 (tempfile_mkdtemp W (fs s)).1 ->
            singleton_module_cache s !! d = None).
  { intros f2 d Hx Hd. vm_compute in Hx. injection Hx as <-.
    vm_compute in Hd. apply list_elem_of_singleton in Hd as ->.
    vm_compute. reflexivity. }
  assert (Htried : attempts (emitted (_load_from_zipfile (W:=W) (TPath "m.zip")
                                        false tt s)) =
            [(0, demo.tgis, Ok LNone); (0, demo.tgis, Ok LNone);
             (1, demo.local, Ok (LModule {| instance := 7; load_backend := None |}))])
    by (vm_compute; reflexivity).
  destruct (archive_singleton_load_is_not_memoised (W:=W) (TPath "m.zip") tt s
              Htmp Hnested) as (Hr & _ & Ha & _).
  split; [exact Hfirst|]. split; [exact Htmp|]. split; [exact Hr|].
  by rewrite Ha.
Defined.

(** X10 on [empty] with the backends [tgis; local]: the shared loader
    declines, there is no config.yml for the per-module backend. *)
Lemma module_config_error_ends_search_witness :
  let W := demo.world demo.SampleModule in
  let s := demo.state demo.SampleModule ∅ [demo.tgis; demo.local] in
  let e := FileNotFoundError (Some ENOENT) strerror_ENOENT (Some "empty/config.yml") in
  load_key s "empty" = "empty" /\
  ModuleConfig_load W (fs s) "empty" = Raise e /\
  result (_load_from_dir (W:=W) (TPath "empty") true tt s) = Raise e /\
  attempts (emitted (_load_from_dir (W:=W) (TPath "empty") true tt s)) =
    [(0, demo.tgis, Ok LNone)] /\
  result (load (W:=W) (VStr "empty") (VBool true) tt s) =
    Raise (no_config_yml W (TPath "empty")).
Proof.
  cbv zeta.
  set (W := demo.world demo.SampleModule).
  set (s := demo.state demo.SampleModule ∅ [demo.tgis; demo.local]).
  set (e := FileNotFoundError (Some ENOENT) strerror_ENOENT (Some "empty/config.yml")).
  assert (Hk : load_key s "empty" = "empty") by (vm_compute; reflexivity).
  assert (Hmc : ModuleConfig_load W (fs s) "empty" = Raise e) by (vm_compute; reflexivity).
  assert (Hzip : zipfile_is_zipfile W (fs s) (TPath (load_key s "empty")) = false)
    by (vm_compute; reflexivity).
  assert (Hex : os_path_exists W (fs s) (load_key s "empty") = true)
    by (vm_compute; reflexivity).
  assert (Hpre : Forall (fun b' => is_shared b' = true /\
                    shared_load W b' (fs s) (load_key s "empty") tt = Ok LNone)
                   [demo.tgis]).
  { repeat constructor. }
  assert (Hmc' : ModuleConfig_load W (fs s) (load_key s "empty") = Raise e)
    by (vm_compute; reflexivity).
  destruct (module_config_error_ends_search (W:=W) "empty" true tt s
              [demo.tgis] demo.local [] e Hzip Hex eq_refl eq_refl Hpre eq_refl Hmc')
    as (Hr & Ha & _ & Hload).
  split; [exact Hk|]. split; [exact Hmc|]. split; [exact Hr|].
  split; [exact Ha|exact Hload].
Defined.

(** X6 on [models/foo]: loaded once by the per-module backend, then served
    from the cache. *)
Lemma repeated_singleton_load_is_served_from_cache_witness :
  let W := demo.world demo.SampleModule in
  let s := demo.state demo.SampleModule ∅ [demo.tgis; demo.local] in
  let o := load (W:=W) (VStr "models/foo") (VBool true) tt s in
  let m := {| instance := 7; load_backend := Some demo.local |} in
  result o = Ok m /\
  attempts (emitted o) =
    [(0, demo.tgis, Ok LNone);
     (1, demo.local, Ok (LModule {| instance := 7; load_backend := None |}))] /\
  load (W:=W) (VStr "models/foo") (VBool true) tt (final o) =
    {| result := Ok m; final := final o; emitted := [EvLockAcquire; EvLockRelease] |}.
Proof.
  cbv zeta.
  set (W := demo.world demo.SampleModule).
  set (s := demo.state demo.SampleModule ∅ [demo.tgis; demo.local]).
  assert (Hzip : zipfile_is_zipfile W (fs s) (TPath (load_key s "models/foo")) = false)
    by (vm_compute; reflexivity).
  assert (Hr : result (load (W:=W) (VStr "models/foo") (VBool true) tt s) =
               Ok {| instance := 7; load_backend := Some demo.local |})
    by (vm_compute; reflexivity).
  split; [exact Hr|]. split; [vm_compute; reflexivity|].
  exact (repeated_singleton_load_is_served_from_cache (W:=W) "models/foo" tt s _ Hzip Hr).
Defined.

(** X2 on an empty [bytes] object. *)
Lemma load_of_bytes_that_are_no_archive_witness :
  let W := demo.world demo.SampleModule in
  let s := demo.state demo.SampleModule ∅ [demo.tgis; demo.local] in
  let o := load (W:=W) (VBytes []) (VBool true) tt s in
  zipfile_is_zipfile W (fs s) (TBuffer []) = false /\
  (exists msg, result o = Raise (TypeError msg)) /\
  final o = s /\ emitted o = [].
Proof.
  cbv zeta.
  set (W := demo.world demo.SampleModule).
  set (s := demo.state demo.SampleModule ∅ [demo.tgis; demo.local]).
  assert (Hzip : zipfile_is_zipfile W (fs s) (TBuffer []) = false)
    by (vm_compute; reflexivity).
  destruct (load_of_bytes_that_are_no_archive (W:=W) [] (VBytes []) true tt s
              (or_introl eq_refl) Hzip) as (Hty & _ & Hf & He).
  split; [exact Hzip|]. split; [exact Hty|]. split; [exact Hf|exact He].
Defined.

(** X16 with [load_path] set to [models]: [models/foo] is a directory, so
    it is loaded as given and not looked up under the load path. *)
Lemma resolve_and_load_ignores_load_path_witness :
  let W := variants.world_under "models" in
  let s := Build_State W demo.the_disk ∅ [demo.tgis; demo.local] in
  let o := resolve_and_load (W:=W) (RefValue (VStr "models/foo")) (Some (VBool true))
             tt s in
  config_load_path W = Some "models" /\
  os_path_isdir W (fs s) "models/foo" = true /\
  load_key s "models/foo" = "models/foo" /\
  result o = Ok {| instance := 7; load_backend := Some demo.local |} /\
  emitted o = emitted (_load_from_dir (W:=W) (TPath "models/foo") true tt s).
Proof.
  cbv zeta.
  set (W := variants.world_under "models").
  set (s := Build_State W demo.the_disk ∅ [demo.tgis; demo.local]).
  assert (Hdir : os_path_isdir W (fs s) "models/foo" = true) by (vm_compute; reflexivity).
  assert (Hex : os_path_exists W (fs s) "models/foo" = true) by (vm_compute; reflexivity).
  assert (Hzip : zipfile_is_zipfile W (fs s)
                   (TPath (os_path_normpath W "models/foo")) = false)
    by (vm_compute; reflexivity).
  destruct (resolve_and_load_ignores_load_path (W:=W) "models/foo" true tt s
              Hdir Hex Hzip) as (Hk & Hr & _ & He).
  split; [reflexivity|]. split; [exact Hdir|]. split; [exact Hk|].
  split; [|exact He].
  rewrite Hr. vm_compute. reflexivity.
Defined.

(** X14 on [bad.zip]: the extraction fails after it has made the destination,
    which stays; a second call without [force_overwrite] then skips the
    extraction and returns the destination. *)
Lemma extract_touches_only_the_file_system_witness :
  let W := variants.corrupt_world in
  let s := Build_State W demo.the_disk ∅ [demo.tgis; demo.local] in
  let o := extract (W:=W) (TPath "bad.zip") "new" false s in
  os_path_exists W (fs s) "/srv/new" = false /\
  result o = Raise (OtherError "BadZipFile") /\
  os_path_exists W (fs (final o)) "/srv/new" = true /\
  extract (W:=W) (TPath "bad.zip") "new" false (final o) =
    {| result := Ok "/srv/new"; final := final o; emitted := [] |}.
Proof.
  cbv zeta.
  set (W := variants.corrupt_world).
  set (s := Build_State W demo.the_disk ∅ [demo.tgis; demo.local]).
  assert (Hno : os_path_exists W (fs s) "/srv/new" = false) by (vm_compute; reflexivity).
  assert (Hr : result (extract (W:=W) (TPath "bad.zip") "new" false s) =
               Raise (OtherError "BadZipFile")) by (vm_compute; reflexivity).
  assert (Hleft : os_path_exists W
                    (zipfile_partial W (fs s) (TPath "bad.zip")
                       (os_path_abspath W "new"))
                    (os_path_abspath W "new") = true) by (vm_compute; reflexivity).
  destruct (extract_touches_only_the_file_system (W:=W) (TPath "bad.zip") "new" false s)
    as (_ & _ & _ & Hfail & _).
  destruct (Hfail _ Hr) as (_ & Hf & _ & Hagain).
  split; [exact Hno|]. split; [exact Hr|]. split.
  - rewrite Hf. exact Hleft.
  - exact (Hagain Hleft).
Defined.
